(** * degrees.py: ortholog mapping and cross-experiment concordance

    A shallow embedding of the parts of [degrees.py] that build the ortholog
    index, translate DESeq2 tables to ortholog groups, classify pairs of
    experiments, reduce all experiments globally, report enrichment, name
    the orthologs and start the program, together with the properties of
    those parts.

    Conventions of the embedding:
    - a Python [dict] is a [gmap], a Python [set] a [gset], a text file a list
      of lines, the file system a [gmap] from file names to files;
    - a Python exception is the [Raise] case of [result];
    - a float is a [float64]: an exact rational, an infinity or NaN (no
      rounding and no signed zero); Python's own float division raises
      [ZeroDivisionError] on a zero divisor, numpy's float64 division (the
      cells of a pandas row) follows IEEE 754 and yields NaN or an infinity;
    - a pandas DataFrame indexed by ortholog group is a [gmap] from the group
      to its row; a comparison with NaN is false, as in pandas;
    - the builtin [float()], Pearson's correlation ([Series.corr]), Fisher's
      test and the FDR correction are taken as parameters;
    - the plots, the report lines, the ratio of positive to negative changes,
      the optional [filter] of [global_dataframe] and the counting of the
      Pfam domains before the tests are left out. *)

From Stdlib Require Import Ascii String QArith Qcanon.
From stdpp Require Import gmap strings list fin_maps fin_sets numbers pretty.

Open Scope string_scope.
Open Scope list_scope.

(** ** Exceptions *)

Inductive exn : Type :=
| ValueError
| TypeError
| KeyError
| ZeroDivisionError
| IOError
| AssertionError.

Inductive result (A : Type) : Type :=
| Ok (a : A)
| Raise (e : exn).
Arguments Ok {A} a.
Arguments Raise {A} e.

#[global] Instance result_ret : MRet result := λ A a, Ok a.
#[global] Instance result_bind : MBind result := λ A B f m,
  match m with
  | Ok a => f a
  | Raise e => Raise e
  end.

#[global] Instance result_fmap : FMap result := λ A B f m,
  match m with
  | Ok a => Ok (f a)
  | Raise e => Raise e
  end.

(** A [for] loop whose body may raise: the first exception ends the loop. *)
Fixpoint for_each {A S : Type} (body : S → A → result S) (s : S) (l : list A)
  : result S :=
  match l with
  | [] => Ok s
  | x :: l' => s' ← body s x; for_each body s' l'
  end.

#[global] Instance exn_eq_dec : EqDecision exn.
Proof. solve_decision. Defined.

#[global] Instance result_eq_dec {A : Type} `{EqDecision A} :
  EqDecision (result A).
Proof. solve_decision. Defined.

(** ** Strings *)

(** The characters [str.split()] (no argument) separates on. *)
Definition is_space (c : ascii) : bool :=
  let n := nat_of_ascii c in
  Nat.eqb n 32 || (Nat.leb 9 n && Nat.leb n 13).

(** [split_ws cur s]: [line.split()], with [cur] the word being read. *)
Fixpoint split_ws (cur : string) (s : string) : list string :=
  match s with
  | EmptyString => if decide (cur = "") then [] else [cur]
  | String c s' =>
      if is_space c
      then (if decide (cur = "") then [] else [cur]) ++ split_ws "" s'
      else split_ws (cur +:+ String c "") s'
  end.

Definition split (line : string) : list string := split_ws "" line.

(** [s.split(sep)] for a one-character separator: never the empty list. *)
Fixpoint split_on (sep : ascii) (s : string) : list string :=
  match s with
  | EmptyString => [""]
  | String c s' =>
      if Ascii.eqb c sep then "" :: split_on sep s'
      else match split_on sep s' with
           | h :: t => String c h :: t
           | [] => [String c ""]
           end
  end.

(** Python truthiness of an optional string or list ([if args.exclude:]). *)
Definition truthy_str (o : option string) : bool :=
  match o with
  | Some s => negb (String.eqb s "")
  | None => false
  end.

Definition truthy_list {A : Type} (o : option (list A)) : bool :=
  match o with
  | Some (_ :: _) => true
  | _ => false
  end.

(** ** Floats *)

Inductive float64 : Type :=
| Fin (q : Qc)
| PInf
| NInf
| NaN.

#[global] Instance float64_eq_dec : EqDecision float64.
Proof. solve_decision. Defined.

Definition qc (n : Z) (d : positive) : Qc := Q2Qc (n # d).

Definition f_zero : float64 := Fin (qc 0 1).
Definition f_one : float64 := Fin (qc 1 1).
Definition f_0_05 : float64 := Fin (qc 1 20).
Definition f_0_5 : float64 := Fin (qc 1 2).

(** [x < y], [x <= y]; false as soon as one side is NaN. *)
Definition flt (x y : float64) : bool :=
  match x, y with
  | NaN, _ | _, NaN => false
  | _, NInf => false
  | NInf, _ => true
  | PInf, _ => false
  | Fin _, PInf => true
  | Fin a, Fin b => bool_decide (a < b)%Qc
  end.

Definition fle (x y : float64) : bool :=
  match x, y with
  | NaN, _ | _, NaN => false
  | NInf, _ => true
  | _, NInf => false
  | _, PInf => true
  | PInf, _ => false
  | Fin a, Fin b => bool_decide (a ≤ b)%Qc
  end.

Definition fgt (x y : float64) : bool := flt y x.
Definition fge (x y : float64) : bool := fle y x.

Definition isnull (x : float64) : bool :=
  match x with
  | NaN => true
  | _ => false
  end.

Definition fneg (x : float64) : float64 :=
  match x with
  | Fin a => Fin (- a)%Qc
  | PInf => NInf
  | NInf => PInf
  | NaN => NaN
  end.

Definition fabs (x : float64) : float64 :=
  match x with
  | Fin a => if bool_decide (a < 0)%Qc then Fin (- a)%Qc else Fin a
  | PInf | NInf => PInf
  | NaN => NaN
  end.

(** numpy's [x / y] on float64 scalars: no exception, IEEE 754 results. *)
Definition np_div (x y : float64) : float64 :=
  match x, y with
  | NaN, _ | _, NaN => NaN
  | Fin a, Fin b =>
      if decide (b = 0)%Qc
      then (if decide (a = 0)%Qc then NaN
            else if bool_decide (0 < a)%Qc then PInf else NInf)
      else Fin (a / b)%Qc
  | Fin _, (PInf | NInf) => f_zero
  | PInf, Fin b => if bool_decide (b < 0)%Qc then NInf else PInf
  | NInf, Fin b => if bool_decide (b < 0)%Qc then PInf else NInf
  | (PInf | NInf), (PInf | NInf) => NaN
  end.

(** Python's [x / y] on its own floats: a zero divisor raises. *)
Definition py_div (x y : Qc) : result Qc :=
  if decide (y = 0)%Qc then Raise ZeroDivisionError else Ok (x / y)%Qc.

Definition of_nat (n : nat) : Qc := Q2Qc (inject_Z (Z.of_nat n)).

(** ** fetch_orthologs *)

(** One turn of [for g in cols]: the species of [g] is counted, or coerced
    to 1.  [spec in exclude] raises [TypeError] when [exclude] is [None]. *)
Definition count_species (duplicates : bool) (exclude : option (list string))
    (counts : gmap string nat) (g : string) : result (gmap string nat) :=
  let spec := hd "" (split_on "|" g) in
  if duplicates then Ok (<[spec := 1]> counts)
  else match exclude with
       | None => Raise TypeError
       | Some ex =>
           if bool_decide (spec ∈ ex) then Ok (<[spec := 1]> counts)
           else Ok (<[spec := S (default 0 (counts !! spec))]> counts)
       end.

Definition all_at_most_once (counts : gmap string nat) : bool :=
  bool_decide (map_Forall (λ _ c, (c ≤ 1)%nat) counts).

Definition all_present (whitelist : list string) (counts : gmap string nat)
  : bool :=
  forallb (λ wl, bool_decide (wl ∈ dom counts)) whitelist.

(** The two dictionaries [fetch_orthologs] fills. *)
Record ortho_tables : Type := {
  ortho_dic : gmap string string;
  ortho_idx : gmap string (list string)
}.

Definition update_all (grp : string) (cols : list string)
    (dic : gmap string string) : gmap string string :=
  foldl (λ d g, <[g := grp]> d) dic cols.

(** The body of [for line in handle]. *)
Definition fetch_line (mustcontain exclude : option (list string))
    (duplicates : bool) (t : ortho_tables) (line : string)
  : result ortho_tables :=
  match split line with
  | [] => Ok t
  | grp :: members =>
      let idx := <[grp := members]> (ortho_idx t) in
      counts ← for_each (count_species duplicates exclude) ∅ (grp :: members);
      let whitelist :=
        if truthy_list mustcontain then default [] mustcontain
        else elements (dom counts) in
      if all_at_most_once counts && all_present whitelist counts
      then Ok {| ortho_dic := update_all grp (grp :: members) (ortho_dic t);
                 ortho_idx := idx |}
      else Ok {| ortho_dic := ortho_dic t; ortho_idx := idx |}
  end.

(** [open(name, 'rb')]: the lines of the file, [IOError] when it is missing. *)
Definition open_file (fs : gmap string (list string)) (name : string)
  : result (list string) :=
  match fs !! name with
  | Some handle => Ok handle
  | None => Raise IOError
  end.

Definition fetch_orthologs (fs : gmap string (list string)) (orthofile : string)
    (mustcontain exclude : option (list string)) (duplicates : bool)
  : result ortho_tables :=
  handle ← open_file fs orthofile;
  for_each (fetch_line mustcontain exclude duplicates)
    {| ortho_dic := ∅; ortho_idx := ∅ |} handle.

(** ** translate_to_orthologs *)

(** One row of a translated experiment: the tuple [padj, logfc, bmean]. *)
Record degrec : Type := {
  padj : float64;
  logfc : float64;
  basemean : float64
}.

#[global] Instance degrec_eq_dec : EqDecision degrec.
Proof. solve_decision. Defined.

Definition with_logfc (f : float64 → float64) (r : degrec) : degrec :=
  {| padj := padj r; logfc := f (logfc r); basemean := basemean r |}.

(** [indexed_df['logfc'] * -1] *)
Definition negate_logfc (df : gmap string degrec) : gmap string degrec :=
  with_logfc fneg <$> df.

(** [if calibrate and df['logfc'].loc[calibrate] < 0: df.logfc = df.logfc * -1];
    [.loc] raises [KeyError] on a label that is not in the index. *)
Definition calibrate_df (calibrate : option string) (df : gmap string degrec)
  : result (gmap string degrec) :=
  if truthy_str calibrate then
    match df !! default "" calibrate with
    | None => Raise KeyError
    | Some r => if flt (logfc r) f_zero then Ok (negate_logfc df) else Ok df
    end
  else Ok df.

(** [DataFrame.drop_duplicates(keep=False)]: a row goes when another row has
    the same values in every column; the index plays no part. *)
Definition occurrences (df : gmap string degrec) (r : degrec) : nat :=
  length (filter (λ kv, kv.2 = r) (map_to_list df)).

Definition drop_duplicates (df : gmap string degrec) : gmap string degrec :=
  filter (λ kv, occurrences df kv.2 = 1%nat) df.

Section Translate.

(** The builtin [float()]: [None] stands for [ValueError]. *)
Variable pyfloat : string → option float64.

(** Lines 192-200: column 6, then the fallback on column 5. *)
Definition parse_padj (c5 c6 : string) : result float64 :=
  match pyfloat c6 with
  | Some v => Ok v
  | None =>
      if String.eqb c5 "NA" then Ok f_one
      else match pyfloat c5 with
           | Some v => if flt v f_0_05 then Ok f_0_05 else Ok f_one
           | None => Raise ValueError
           end
  end.

(** [try: float(c) except ValueError: 0] *)
Definition parse_or_zero (c : string) : float64 := default f_zero (pyfloat c).

(** The body of [for line in handle]. *)
Definition translate_line (orthodic : gmap string string)
    (degdic : gmap string degrec) (line : string)
  : result (gmap string degrec) :=
  match split line with
  | [c0; c1; c2; _; _; c5; c6] =>
      if String.eqb c0 "baseMean" then Ok degdic
      else match orthodic !! c0 with
           | None => Ok degdic
           | Some grp =>
               p ← parse_padj c5 c6;
               Ok (<[grp := {| padj := p;
                               logfc := parse_or_zero c2;
                               basemean := parse_or_zero c1 |}]> degdic)
           end
  | _ => Ok degdic
  end.

Definition translate_to_orthologs (fs : gmap string (list string))
    (degfile : string) (orthodic : gmap string string)
    (calibrate : option string) (duplicates : bool)
  : result (gmap string degrec) :=
  handle ← open_file fs degfile;
  degdic ← for_each (translate_line orthodic) ∅ handle;
  indexed_df ← calibrate_df calibrate degdic;
  Ok (if duplicates then drop_duplicates indexed_df else indexed_df).

End Translate.

(** ** Pairwise comparison of two translated experiments *)

(** A row of [df3 = df1.join(df2, how='left', lsuffix="1st")]: first the
    columns of [df1] ([padj1st], [logfc1st], [basemean1st]), then those of
    [df2] ([padj], [logfc], [basemean]). *)
Definition joined : Type := degrec * degrec.

Definition padj1st (j : joined) : float64 := padj j.1.
Definition logfc1st (j : joined) : float64 := logfc j.1.
Definition padj2 (j : joined) : float64 := padj j.2.
Definition logfc2 (j : joined) : float64 := logfc j.2.

Definition nan_row : degrec := {| padj := NaN; logfc := NaN; basemean := NaN |}.

Definition join_left (df1 df2 : gmap string degrec) : gmap string joined :=
  map_imap (λ k r1, Some (r1, default nan_row (df2 !! k))) df1.

Definition row_has_na (r : degrec) : bool :=
  isnull (padj r) || isnull (logfc r) || isnull (basemean r).

Definition dropna (df3 : gmap string joined) : gmap string joined :=
  filter (λ kv, row_has_na kv.2.1 = false ∧ row_has_na kv.2.2 = false) df3.

(** [df3[mask]] and [set(df3[mask].index)] *)
Definition select (mask : joined → bool) (df3 : gmap string joined)
  : gmap string joined :=
  filter (λ kv, mask kv.2 = true) df3.

Definition index_of (mask : joined → bool) (df3 : gmap string joined)
  : gset string :=
  dom (select mask df3).

(** The eight masks of lines 632-640; [1] is [exp1] (columns [..1st]). *)
Definition sp1 (j : joined) : bool := fle (padj1st j) f_0_05 && fgt (logfc1st j) f_zero.
Definition sp2 (j : joined) : bool := fle (padj2 j) f_0_05 && fgt (logfc2 j) f_zero.
Definition sn1 (j : joined) : bool := fle (padj1st j) f_0_05 && flt (logfc1st j) f_zero.
Definition sn2 (j : joined) : bool := fle (padj2 j) f_0_05 && flt (logfc2 j) f_zero.
Definition nsp1 (j : joined) : bool := fgt (padj1st j) f_0_05 && fgt (logfc1st j) f_zero.
Definition nsp2 (j : joined) : bool := fgt (padj2 j) f_0_05 && fgt (logfc2 j) f_zero.
Definition nsn1 (j : joined) : bool := fgt (padj1st j) f_0_05 && flt (logfc1st j) f_zero.
Definition nsn2 (j : joined) : bool := fgt (padj2 j) f_0_05 && flt (logfc2 j) f_zero.

(** The masks of the correlation metrics and of the counts. *)
Definition high_mask (high_expr : float64) (j : joined) : bool :=
  fge (fabs (logfc2 j)) high_expr || fge (fabs (logfc1st j)) high_expr.

Definition both_high_mask (high_expr : float64) (j : joined) : bool :=
  fge (fabs (logfc2 j)) high_expr && fge (fabs (logfc1st j)) high_expr.

(** Line 610: [(df3.padj <= 0.5) | (df3.padj1st <= 0.05)] *)
Definition onedeg_mask (j : joined) : bool :=
  fle (padj2 j) f_0_5 || fle (padj1st j) f_0_05.

(** Line 654: [(df3.padj <= 0.05) | (df3.padj1st <= 0.05)] *)
Definition sig_mask (j : joined) : bool :=
  fle (padj2 j) f_0_05 || fle (padj1st j) f_0_05.

Definition concord_mask (j : joined) : bool :=
  (fgt (logfc1st j) f_zero && fgt (logfc2 j) f_zero)
  || (flt (logfc1st j) f_zero && flt (logfc2 j) f_zero).

Definition close_mask (j : joined) : bool := concord_mask j && sig_mask j.

(** [x / abs(x)] on a cell of a row: numpy's division. *)
Definition sign_of (x : float64) : float64 := np_div x (fabs x).

(** Lines 619-620, the columns [bitfc] and [bitfc1st]:
    [df3['bitfc'] = df3.apply(lambda x: x['logfc']/abs(x['logfc']), axis=1)].
    On a frame without rows [apply] does not go through the rows: it hands
    back a copy of the frame, and the assignment of a frame of six columns
    to the one column [bitfc] raises [ValueError]. *)
Definition sign_columns (df3 : gmap string joined)
  : result (gmap string (float64 * float64)) :=
  if decide (df3 = ∅) then Raise ValueError
  else Ok ((λ j, (sign_of (logfc2 j), sign_of (logfc1st j))) <$> df3).

(** What [concordancecounts] returns. *)
Record concordance : Type := {
  con_sig1 : gset string;
  con_nsig1 : gset string;
  ncon_sig1 : gset string;
  ncon_nsig1 : gset string;
  con_sig2 : gset string;
  con_nsig2 : gset string;
  ncon_sig2 : gset string;
  ncon_nsig2 : gset string;
  bkgd_freq : Qc
}.

Definition concordancecounts
    (df1_sp df2_sp df1_sn df2_sn df1_nsp df2_nsp df1_nsn df2_nsn : gset string)
  : result concordance :=
  let bkgd_con := size ((df1_nsp ∩ df2_nsp) ∪ (df1_nsn ∩ df2_nsn)
                        ∪ (df1_sp ∩ df2_sp) ∪ (df1_sn ∩ df2_sn)) in
  let bkgd_dis := size ((df1_nsp ∩ df2_nsn) ∪ (df1_nsn ∩ df2_nsp)
                        ∪ (df1_sn ∩ df2_sp) ∪ (df1_sp ∩ df2_sn)) in
  freq ← py_div (1 * of_nat bkgd_con)%Qc (of_nat (bkgd_con + bkgd_dis));
  Ok {| con_sig1 := (df1_sp ∩ df2_sp) ∪ (df1_sn ∩ df2_sn);
        con_nsig1 := (df1_sp ∩ df2_nsp) ∪ (df1_sn ∩ df2_nsn);
        ncon_sig1 := (df1_sp ∩ df2_sn) ∪ (df1_sn ∩ df2_sp);
        ncon_nsig1 := (df1_sp ∩ df2_nsn) ∪ (df1_sn ∩ df2_nsp);
        con_sig2 := (df1_sp ∩ df2_sp) ∪ (df1_sn ∩ df2_sn);
        con_nsig2 := (df1_nsp ∩ df2_sp) ∪ (df1_nsn ∩ df2_sn);
        ncon_sig2 := (df1_sp ∩ df2_sn) ∪ (df1_sn ∩ df2_sp);
        ncon_nsig2 := (df1_nsp ∩ df2_sn) ∪ (df1_nsn ∩ df2_sp);
        bkgd_freq := freq |}.

(** The values one pass of the loop stores in the ten containers, and the
    set it appends to [concordant_sig_genesets]. *)
Record pair_scores : Type := {
  correlation : float64;
  high_corr : float64;
  onedeg_corr : float64;
  hsize : nat;
  bitfc : gmap string (float64 * float64);
  bit_corr : float64;
  num_concord : nat;
  num_close : nat;
  rel_conc : Qc;
  concordance_sets : concordance;
  ijidx : Qc
}.

Section Pairwise.

Variable pyfloat : string → option float64.

(** [a.corr(b, method='pearson')] on two aligned columns. *)
Variable pearson : list (float64 * float64) → float64.

(** Two columns of the rows a mask keeps, row by row. *)
Definition columns (f g : joined → float64) (df3 : gmap string joined)
  : list (float64 * float64) :=
  (λ kv, (f kv.2, g kv.2)) <$> map_to_list df3.

(** Lines 597-674, on the joined table [df3]. *)
Definition analyse_joined (threshold : float64) (df3 : gmap string joined)
  : result pair_scores :=
  let correlation := pearson (columns logfc2 logfc1st df3) in
  let high_expr := threshold in
  let high_corr :=
    pearson (columns logfc2 logfc1st (select (high_mask high_expr) df3)) in
  let onedeg_corr :=
    pearson (columns logfc2 logfc1st (select onedeg_mask df3)) in
  let hsize := size (select (both_high_mask high_expr) df3) in
  bitfc ← sign_columns df3;
  let bit_corr := pearson (snd <$> map_to_list bitfc) in
  let df1_sp := index_of sp1 df3 in
  let df2_sp := index_of sp2 df3 in
  let df1_sn := index_of sn1 df3 in
  let df2_sn := index_of sn2 df3 in
  let df1_nsp := index_of nsp1 df3 in
  let df2_nsp := index_of nsp2 df3 in
  let df1_nsn := index_of nsn1 df3 in
  let df2_nsn := index_of nsn2 df3 in
  let num_concord := size (index_of concord_mask df3) in
  let num_close := size (index_of close_mask df3) in
  let num_sig := size (index_of sig_mask df3) in
  rel ← py_div (1 * of_nat num_close)%Qc (of_nat num_sig);
  concordance_sets ← concordancecounts df1_sp df2_sp df1_sn df2_sn
                        df1_nsp df2_nsp df1_nsn df2_nsn;
  let intersection_ab :=
    (1 * of_nat (size (df1_sp ∩ df2_sp)) + of_nat (size (df1_sn ∩ df2_sn)))%Qc in
  let union_ab := of_nat num_sig in
  ij ← py_div union_ab (union_ab - intersection_ab)%Qc;
  Ok {| correlation := correlation;
        high_corr := high_corr;
        onedeg_corr := onedeg_corr;
        hsize := hsize;
        bitfc := bitfc;
        bit_corr := bit_corr;
        num_concord := num_concord;
        num_close := num_close;
        rel_conc := rel;
        concordance_sets := concordance_sets;
        ijidx := ij |}.

(** Lines 570-592: the joined table of [exp1] and [exp2]. *)
Definition joined_table (fs : gmap string (list string))
    (orthodic : gmap string string) (calibrate : option string)
    (drop_nas : bool) (exp1 exp2 : string) : result (gmap string joined) :=
  df1 ← translate_to_orthologs pyfloat fs exp1 orthodic None false;
  df2 ← translate_to_orthologs pyfloat fs exp2 orthodic None false;
  df1 ← calibrate_df calibrate df1;
  df2 ← calibrate_df calibrate df2;
  let df3 := join_left df1 df2 in
  Ok (if drop_nas then dropna df3 else df3).

(** [os.path.basename(exp)[:5]] *)
Definition label (exp : string) : string :=
  substring 0 5 (List.last (split_on "/" exp) "").

(** The containers of [pairwise_comparisons]: the ten score tables, kept
    as one table of [pair_scores] under [(label1, label2)], and the list
    [concordant_sig_genesets]. *)
Record pairwise_state : Type := {
  scores : gmap (string * string) pair_scores;
  concordant_sig_genesets : list (gset string)
}.

(** The body of [for (exp1, exp2) in itertools.product(experiments, experiments)]. *)
Definition pairwise_step (fs : gmap string (list string))
    (orthodic : gmap string string) (threshold : float64)
    (calibrate : option string) (drop_nas : bool)
    (st : pairwise_state) (pair : string * string) : result pairwise_state :=
  let '(exp1, exp2) := pair in
  if decide (exp1 = exp2) then Ok st
  else
    df3 ← joined_table fs orthodic calibrate drop_nas exp1 exp2;
    r ← analyse_joined threshold df3;
    Ok {| scores := <[(label exp1, label exp2) := r]> (scores st);
          concordant_sig_genesets :=
            concordant_sig_genesets st ++ [con_sig1 (concordance_sets r)] |}.

(** [set.intersection] applied to the unpacked list of sets: with no
    argument at all it raises [TypeError]. *)
Definition set_intersection (sets : list (gset string))
  : result (gset string) :=
  match sets with
  | [] => Raise TypeError
  | s :: rest => Ok (foldl (∩) s rest)
  end.

(** The plots and the report lines are not part of the embedding. *)
Definition pairwise_comparisons (fs : gmap string (list string))
    (experiments : list string) (orthodic : gmap string string)
    (threshold : float64) (calibrate : option string) (drop_nas : bool)
  : result (gset string) :=
  st ← for_each (pairwise_step fs orthodic threshold calibrate drop_nas)
         {| scores := ∅; concordant_sig_genesets := [] |}
         (list_prod experiments experiments);
  set_intersection (concordant_sig_genesets st).

End Pairwise.

(** ** Global comparison of all experiments *)

(** A row of [dfall]: the columns of the first experiment ([padj], [logfc],
    [basemean]), then those of experiment [i] ([padj_i], [logfc_i],
    [basemean_i]) for [i = 1, 2, ...]. *)
Definition wide : Type := degrec * list degrec.

Definition cells (w : wide) : list degrec := w.1 :: w.2.

Definition wide_has_na (w : wide) : bool := existsb row_has_na (cells w).

Section GlobalDataframe.

Variable pyfloat : string → option float64.

(** One turn of [for num, exp in enumerate(experiments[1:])]. *)
Definition add_experiment (fs : gmap string (list string))
    (orthodic : gmap string string) (calibrate : option string)
    (drop_nas duplicates : bool) (dfall : gmap string wide) (exp : string)
  : result (gmap string wide) :=
  dfnew ← translate_to_orthologs pyfloat fs exp orthodic calibrate duplicates;
  let dfall :=
    map_imap (λ k w, Some (w.1, w.2 ++ [default nan_row (dfnew !! k)])) dfall in
  Ok (if drop_nas then filter (λ kv, wide_has_na kv.2 = false) dfall
      else dfall).

(** [global_dataframe] with [filter=None]. *)
Definition global_dataframe (fs : gmap string (list string))
    (experiments : list string) (orthodic : gmap string string)
    (calibrate : option string) (drop_nas duplicates : bool)
  : result (gmap string wide) :=
  match experiments with
  | exp0 :: (_ :: _) as others =>
      df0 ← translate_to_orthologs pyfloat fs exp0 orthodic calibrate duplicates;
      for_each (add_experiment fs orthodic calibrate drop_nas duplicates)
        ((λ r, (r, [])) <$> df0) others
  | _ => Raise AssertionError
  end.

End GlobalDataframe.

(** [dfall[label]] for the columns of experiment [i]: [KeyError] when the
    table has no such columns. *)
Definition column (w : wide) (i : nat) : result degrec :=
  match i with
  | O => Ok w.1
  | S i' => match w.2 !! i' with
            | Some c => Ok c
            | None => Raise KeyError
            end
  end.

(** The shape of the ten loops of lines 817-879:
    [acc = p(first); for i in range(1, n): acc = op(p(column i), acc)]. *)
Definition reduce (op : bool → bool → bool) (p : degrec → bool) (n : nat)
    (w : wide) : result bool :=
  for_each (λ acc i, c ← column w i; Ok (op (p c) acc)) (p w.1)
    (seq 1 (n - 1)).

Definition is_sig (c : degrec) : bool := fle (padj c) f_0_05.
Definition is_neg (c : degrec) : bool := flt (logfc c) f_zero.
Definition is_pos (c : degrec) : bool := fgt (logfc c) f_zero.
Definition is_big (threshold : float64) (c : degrec) : bool :=
  fge (logfc c) threshold || fle (logfc c) (fneg threshold).

(** Reductions over all species: a null cell is let through. *)
Definition sig (n : nat) : wide → result bool :=
  reduce andb (λ c, is_sig c || isnull (padj c)) n.
Definition neg (n : nat) : wide → result bool :=
  reduce andb (λ c, is_neg c || isnull (logfc c)) n.
Definition pos (n : nat) : wide → result bool :=
  reduce andb (λ c, is_pos c || isnull (logfc c)) n.
Definition bigchange (threshold : float64) (n : nat) : wide → result bool :=
  reduce andb (λ c, is_big threshold c || isnull (logfc c)) n.

(** Reductions over at least one ("alo") species. *)
Definition sig_alo (n : nat) : wide → result bool := reduce orb is_sig n.
Definition neg_alo (n : nat) : wide → result bool := reduce orb is_neg n.
Definition pos_alo (n : nat) : wide → result bool := reduce orb is_pos n.
Definition bigchange_alo (threshold : float64) (n : nat) : wide → result bool :=
  reduce orb (is_big threshold) n.

(** [dfall.isnull().sum(axis=1).apply(lambda x: x/3.)] and [x < sp_threshold]
    with [sp_threshold = len(experiments) - 1]. *)
Definition null_cells (r : degrec) : nat :=
  length (filter (λ x, isnull x = true) [padj r; logfc r; basemean r]).

Definition missing (w : wide) : Qc :=
  (of_nat (sum_list (null_cells <$> cells w)) / qc 3 1)%Qc.

Definition enough (n : nat) (w : wide) : bool :=
  bool_decide (missing w < Q2Qc (inject_Z (Z.of_nat n - 1)))%Qc.

(** The boolean columns of one row. *)
Record flags : Type := {
  f_enough : bool;
  f_sig : bool;
  f_neg : bool;
  f_pos : bool;
  f_sig_alo : bool;
  f_neg_alo : bool;
  f_pos_alo : bool;
  f_concordant : bool;
  f_bigchange_alo : bool;
  f_bigchange : bool
}.

Definition classify (threshold : float64) (n : nat) (w : wide) : result flags :=
  s ← sig n w;
  ng ← neg n w;
  ps ← pos n w;
  sa ← sig_alo n w;
  na ← neg_alo n w;
  pa ← pos_alo n w;
  ba ← bigchange_alo threshold n w;
  b ← bigchange threshold n w;
  Ok {| f_enough := enough n w; f_sig := s; f_neg := ng; f_pos := ps;
        f_sig_alo := sa; f_neg_alo := na; f_pos_alo := pa;
        f_concordant := ps || ng; f_bigchange_alo := ba; f_bigchange := b |}.

(** The traversal of a table by a function that may raise. *)
Definition classify_table (threshold : float64) (n : nat)
    (dfall : gmap string wide) : result (gmap string flags) :=
  list_to_map <$>
    for_each (λ acc kv, fl ← classify threshold n kv.2; Ok (acc ++ [(kv.1, fl)]))
      [] (map_to_list dfall).

(** [global_comparisons]: the orthologs of [dfall[concordant & sig & enough]];
    the report lines count the rows of the same boolean columns. *)
Definition global_comparisons (dfall : gmap string wide)
    (experiments : list string) (threshold : float64) : result (gset string) :=
  tbl ← classify_table threshold (length experiments) dfall;
  Ok (dom (filter (λ kv, f_concordant kv.2 && f_sig kv.2 && f_enough kv.2 = true)
             tbl)).

(** ** Enrichment report *)

(** A [Fisher_square] after [fisher_test()]: the counts, the names and [p]. *)
Record Fisher_square : Type := {
  TwG : nat;
  TwoG : Z;
  NwG : Z;
  NwoG : Z;
  id : string;
  id_info : string;
  p : float64
}.

(** What the loop of lines 507-514 prints. *)
Inductive finding : Type :=
| square_line (s : Fisher_square)
| fdr_line (q : float64)
| fdr_not_determined_line (pval : float64).

Section Enrichment.

(** [p_to_q(pvals, alpha=0.05, method='fdr_bh')]: the dictionary from a
    p-value to its q-value, [None] for a p-value that is not a key. *)
Variable p_to_q : list float64 → float64 → option float64.

Definition report_square (fdr : float64 → option float64) (s : Fisher_square)
  : list finding :=
  match fdr (p s) with
  | Some q =>
      if fle q f_0_05 && Nat.ltb 1 (TwG s)
      then [square_line s; fdr_line q] else []
  | None =>
      if fle (p s) f_0_05 && Nat.ltb 1 (TwG s)
      then [square_line s; fdr_not_determined_line (p s)] else []
  end.

(** Lines 503-504 and 507-514 of [enrichment], on the tested squares [fs]
    (the line that counts the domains is left out). *)
Definition enrichment_report (fs : list Fisher_square) : list finding :=
  let pvals := p <$> fs in
  let fdr := p_to_q pvals in
  concat (report_square fdr <$> fs).

End Enrichment.

(** ** Program start *)

(** The options of the command line that the start of the program reads. *)
Record arguments : Type := {
  experiments : list string;
  orthologs : string;
  mustcontain : option string;
  exclude : option string;
  manage_duplicates : bool
}.

(** What the start of the program does that can be seen from outside. *)
Inductive event : Type :=
| could_not_be_found (f : string)
| finding_orthologs_containing (species : list string)
| not_worrying_about (species : list string)
| call_fetch_orthologs (orthofile : string)
| genes_were_indexed (genes groups : nat)
| insufficient_files.

Inductive outcome : Type :=
| continue (t : ortho_tables)
| sys_exit (code : nat)
| uncaught (e : exn).

(** [os.path.isfile(f)] *)
Definition isfile (fs : gmap string (list string)) (f : string) : bool :=
  bool_decide (is_Some (fs !! f)).

(** Lines 952-984 and 1033-1035 of [__main__]: the events in order, and how
    this part ends ([continue] enters the branch of the analyses). *)
Definition main_start (fs : gmap string (list string)) (args : arguments)
  : list event * outcome :=
  let lost := List.filter (λ f, negb (isfile fs f)) (experiments args) in
  let log := could_not_be_found <$> lost in
  if negb (bool_decide (lost = [])) then (log, sys_exit 1)
  else
    let exclusions :=
      if truthy_str (exclude args)
      then Some (split_on "," (default "" (exclude args))) else None in
    let necessary :=
      if truthy_str (mustcontain args)
      then Some (split_on "," (default "" (mustcontain args))) else None in
    let log :=
      log
      ++ (if truthy_str (mustcontain args)
          then [finding_orthologs_containing (default [] necessary)] else [])
      ++ (if truthy_str (exclude args)
          then [not_worrying_about (default [] exclusions)] else [])
      ++ [call_fetch_orthologs (orthologs args)] in
    match fetch_orthologs fs (orthologs args) necessary exclusions
            (manage_duplicates args) with
    | Raise e => (log, uncaught e)
    | Ok t =>
        let log :=
          log ++ [genes_were_indexed (size (ortho_dic t)) (size (ortho_idx t))] in
        if Nat.ltb 1 (length (experiments args)) then (log, continue t)
        else (log ++ [insufficient_files], sys_exit 1)
    end.

(** ** A reader of decimal numbers *)

Definition digit_of (c : ascii) : option Z :=
  let n := nat_of_ascii c in
  if Nat.leb 48 n && Nat.leb n 57 then Some (Z.of_nat (n - 48)) else None.

Fixpoint digits_value (s : string) (acc : Z) : option Z :=
  match s with
  | EmptyString => Some acc
  | String c s' =>
      match digit_of c with
      | Some d => digits_value s' (10 * acc + d)%Z
      | None => None
      end
  end.

Definition unsigned_decimal (s : string) : option Qc :=
  match split_on "." s with
  | [i] =>
      if decide (i = "") then None
      else n ← digits_value i 0; Some (qc n 1)
  | [i; f] =>
      if decide (i = "" ∧ f = "") then None
      else n ← digits_value i 0; m ← digits_value f 0;
           let scale := Pos.pow 10 (Pos.of_nat (String.length f)) in
           if decide (f = "") then Some (qc n 1)
           else Some (qc (n * Z.pos scale + m) scale)
  | _ => None
  end.

(** The part of [float()] the worked examples need: [nan], [inf], and signed
    decimals such as [0.01], [-2], [1.5]; every other string is refused
    (the builtin also reads exponents and surrounding blanks). *)
Definition decimal_float (s : string) : option float64 :=
  if decide (s = "nan") then Some NaN
  else if decide (s = "inf") then Some PInf
  else if decide (s = "-inf") then Some NInf
  else match s with
       | String "-" s' => (λ q, Fin (- q)%Qc) <$> unsigned_decimal s'
       | String "+" s' => Fin <$> unsigned_decimal s'
       | _ => Fin <$> unsigned_decimal s
       end.

(** ** sigcounts *)

(** The tuple [fordrawing] of [sigcounts]. *)
Definition fordrawing (pos1 pos2 neg1 neg2 : gset string) : list (gset string) :=
  let concord_p := pos1 ∩ pos2 in
  let concord_n := neg1 ∩ neg2 in
  let discord_1p := pos1 ∩ neg2 in
  let discord_2p := pos2 ∩ neg1 in
  let pos1_u := pos1 ∖ concord_p ∖ discord_1p in
  let pos2_u := pos2 ∖ concord_p ∖ discord_2p in
  let neg1_u := neg1 ∖ concord_n ∖ discord_2p in
  let neg2_u := neg2 ∖ concord_n ∖ discord_1p in
  [pos1_u; pos2_u; neg2_u; neg1_u; concord_p; discord_2p; concord_n; discord_1p].

(** [[str(len(s)) for s in fordrawing]] *)
Definition sigcounts (pos1 pos2 neg1 neg2 : gset string) : list string :=
  (λ s, pretty (size s)) <$> fordrawing pos1 pos2 neg1 neg2.

(** ** convert_name *)

(** The exceptions of [convert_name]: [KeyError] from [ortho_idx[o]],
    [IndexError] from [ortho_idx[o][0]]. *)
Inductive name_error : Type :=
| name_KeyError
| name_IndexError.

#[global] Instance name_error_eq_dec : EqDecision name_error.
Proof. solve_decision. Defined.

(** [gene[5:]] *)
Definition without_prefix (gene : string) : string :=
  substring 5 (String.length gene - 5) gene.

(** ["%-20s" % s]: spaces on the right up to the width, nothing cut. *)
Definition ljust (width : nat) (s : string) : string :=
  s +:+ string_of_list_ascii (replicate (width - String.length s) " "%char).

(** ["%-20s %-18s %s" % (o, geneid, name)] *)
Definition name_line (o geneid name : string) : string :=
  ljust 20 o +:+ " " +:+ ljust 18 geneid +:+ " " +:+ name.

(** One turn of [for gene in ortho_idx[o]] on [(name, geneid)]. *)
Definition name_step (name_chart : gmap string string) (st : string * string)
    (gene : string) : string * string :=
  match name_chart !! without_prefix gene with
  | Some name => (name, gene)
  | None => st
  end.

(** [convert_name], with [args.name_genes] as its first argument.  [geneid]
    is read only after it was assigned: in the loop when [name] is no longer
    ["---"], in the second [if] otherwise. *)
Definition convert_name (name_genes : option string) (o : string)
    (ortho_idx : gmap string (list string)) (name_chart : gmap string string)
  : name_error + string :=
  let '(name, geneid) :=
    if truthy_str name_genes then
      match ortho_idx !! o with
      | Some members => foldl (name_step name_chart) ("---", "") members
      | None => ("---", "")
      end
    else ("---", "") in
  if String.eqb name "---" then
    match ortho_idx !! o with
    | None => inl name_KeyError
    | Some members =>
        let name := String.concat " " (take 2 (drop 1 members)) in
        match members with
        | [] => inl name_IndexError
        | geneid :: _ => inr (name_line o geneid name)
        end
    end
  else inr (name_line o geneid name).

(** ** Worked inputs and the predicates of the statements *)

Definition ortho_lines : list string :=
  ["G1 AAAA|1 BBBB|1"; "G2 AAAA|2 AAAA|3"; "G3 AAAA|4 BBBB|4"].

(** The index of [ortho_lines] for [mustcontain = AAAA,BBBB]: [G2] has two
    genes of [AAAA] and is left out. *)
Definition example_dic : gmap string string :=
  list_to_map [("G1", "G1"); ("AAAA|1", "G1"); ("BBBB|1", "G1");
               ("G3", "G3"); ("AAAA|4", "G3"); ("BBBB|4", "G3")].

(** Stands for [Series.corr] where its value plays no part. *)
Definition no_corr : list (float64 * float64) → float64 := λ _, NaN.

(** Closes a decidable closed statement by evaluation. *)
Ltac by_eval := apply (bool_decide_eq_true_1 _); vm_compute; reflexivity.

(** With [duplicates=True] the index keeps [G2] and its two genes of
    [AAAA]. *)
Definition duplicates_dic : gmap string string :=
  list_to_map [("G1", "G1"); ("AAAA|1", "G1"); ("BBBB|1", "G1");
               ("G2", "G2"); ("AAAA|2", "G2"); ("AAAA|3", "G2");
               ("G3", "G3"); ("AAAA|4", "G3"); ("BBBB|4", "G3")].

(** Two rows of [G2] with different values, one row of [G1]. *)
Definition two_rows_of_G2 : list string :=
  ["AAAA|2 10 1.5 x x 0.001 0.01";
   "AAAA|3 20 -2 x x 0.001 0.02";
   "AAAA|1 5 1 x x 0.5 0.6"].

(** A row with finite values. *)
Definition row (p l b : Qc) : degrec :=
  {| padj := Fin p; logfc := Fin l; basemean := Fin b |}.

(** Joined rows: [G1] significant in both, [G3] with [padj = 0.3] in both. *)
Definition fs_onedeg : gmap string (list string) :=
  {["a.txt" := ["AAAA|1 10 1.5 x x 0.001 0.01"; "AAAA|4 10 1.5 x x 0.2 0.3"];
    "b.txt" := ["BBBB|1 10 -2 x x 0.001 0.02"; "BBBB|4 10 1 x x 0.2 0.3"]]}.

Definition df3_onedeg : gmap string joined :=
  {["G1" := (row (qc 1 100) (qc 3 2) (qc 10 1), row (qc 1 50) (qc (-2) 1) (qc 10 1));
    "G3" := (row (qc 3 10) (qc 3 2) (qc 10 1), row (qc 3 10) (qc 1 1) (qc 10 1))]}.

(** [G1] is significant and positive in both files; [G3] is significant in
    [a.txt] only and has the fold change 0 in [b.txt]. *)
Definition fs_pair : gmap string (list string) :=
  {["a.txt" := ["AAAA|1 10 1.5 x x 0.001 0.01"; "AAAA|4 10 1.5 x x 0.001 0.01"];
    "b.txt" := ["BBBB|1 10 2.0 x x 0.001 0.02"; "BBBB|4 10 NA x x 0.4 0.5"]]}.

Definition df3_ab : gmap string joined :=
  {["G1" := (row (qc 1 100) (qc 3 2) (qc 10 1), row (qc 1 50) (qc 2 1) (qc 10 1));
    "G3" := (row (qc 1 100) (qc 3 2) (qc 10 1), row (qc 1 2) (qc 0 1) (qc 10 1))]}.

Definition df3_ba : gmap string joined :=
  {["G1" := (row (qc 1 50) (qc 2 1) (qc 10 1), row (qc 1 100) (qc 3 2) (qc 10 1));
    "G3" := (row (qc 1 2) (qc 0 1) (qc 10 1), row (qc 1 100) (qc 3 2) (qc 10 1))]}.

(** The scenario of one shared group, significant and positive in both. *)
Definition fs_single : gmap string (list string) :=
  {["a.txt" := ["AAAA|1 10 1.5 x x 0.001 0.01"];
    "b.txt" := ["BBBB|1 10 2.0 x x 0.001 0.02"]]}.

Definition df3_single : gmap string joined :=
  {["G1" := (row (qc 1 100) (qc 3 2) (qc 10 1), row (qc 1 50) (qc 2 1) (qc 10 1))]}.

(** A reduction over all experiments: a cell passes when it is null or
    satisfies the predicate.  A reduction over at least one experiment: some
    cell that is not null satisfies the predicate. *)
Definition all_or_null (col : degrec → float64) (p : degrec → bool) (w : wide)
  : Prop :=
  ∀ c, c ∈ cells w → isnull (col c) = true ∨ p c = true.

Definition some_not_null (col : degrec → float64) (p : degrec → bool) (w : wide)
  : Prop :=
  ∃ c, c ∈ cells w ∧ isnull (col c) = false ∧ p c = true.

(** Three experiments; the ortholog has no row in the second one. *)
Definition w_missing : wide :=
  (row (qc 1 100) (qc 3 2) (qc 10 1),
   [nan_row; row (qc 1 50) (qc 2 1) (qc 10 1)]).

(** The test of lines 509 and 512: at least 2 target genes carry the domain,
    and its q-value, or its p-value when it has no q-value, is at most
    0.05. *)
Definition reported (fdr : float64 → option float64) (s : Fisher_square) : Prop :=
  (2 ≤ TwG s)%nat
  ∧ match fdr (p s) with
    | Some q => fle q f_0_05 = true
    | None => fle (p s) f_0_05 = true
    end.

#[global] Instance reported_dec (fdr : float64 → option float64)
    (s : Fisher_square) : Decision (reported fdr s).
Proof. unfold reported. destruct (fdr (p s)); apply _. Defined.

(** One target gene carries [PF00001], whose q-value is 0.01; three carry
    [PF00002], which has no q-value and the raw p-value 0.5. *)
Definition one_gene_square : Fisher_square :=
  {| TwG := 1; TwoG := 2; NwG := 7; NwoG := 90; id := "PF00001";
     id_info := "PF00001 (7tm_1)"; p := Fin (qc 1 1000) |}.

Definition no_fdr_square : Fisher_square :=
  {| TwG := 3; TwoG := 0; NwG := 50; NwoG := 47; id := "PF00002";
     id_info := "PF00002 (7tm_2)"; p := Fin (qc 1 2) |}.

Definition example_p_to_q (pvals : list float64) (x : float64)
  : option float64 :=
  if decide (x = Fin (qc 1 1000)) then Some (Fin (qc 1 100)) else None.

Definition fs_run : gmap string (list string) :=
  {["o.txt" := ortho_lines;
    "a.txt" := ["AAAA|1 10 1.5 x x 0.001 0.01"]]}.

(** One experiment file, present; [-x XXXX] on the command line. *)
Definition args_one_file : arguments :=
  {| experiments := ["a.txt"]; orthologs := "o.txt"; mustcontain := None;
     exclude := Some "XXXX"; manage_duplicates := false |}.

(** Two experiment files, the second one missing. *)
Definition args_missing_file : arguments :=
  {| experiments := ["a.txt"; "c.txt"]; orthologs := "o.txt";
     mustcontain := None; exclude := Some "XXXX"; manage_duplicates := false |}.

(** ** Predicates of the further statements *)

(** [g.split('|')[0]] *)
Definition species (g : string) : string := hd "" (split_on "|" g).

(** When [fetch_orthologs] adds the genes of a line to [ortho_dic], for a
    given list to ignore: no species outside the list occurs twice among the
    columns, and every species of [mustcontain] occurs. *)
Definition included (mustcontain : option (list string)) (exclude : list string)
    (cols : list string) : Prop :=
  NoDup (filter (λ s, s ∉ exclude) (species <$> cols))
  ∧ (truthy_list mustcontain = true →
     Forall (λ wl, wl ∈ species <$> cols) (default [] mustcontain)).

(** A line of the file whose first column is [grp] and whose other columns
    are [members]. *)
Definition line_of (handle : list string) (grp : string) (members : list string)
  : Prop :=
  ∃ line, line ∈ handle ∧ split line = grp :: members.

(** The last line of the file whose first column is [grp]; its other
    columns are [members]. *)
Definition last_line_of (handle : list string) (grp : string)
    (members : list string) : Prop :=
  ∃ before line after,
    handle = before ++ line :: after
    ∧ split line = grp :: members
    ∧ ∀ l m, l ∈ after → split l ≠ grp :: m.

(** A line of seven columns, not the header, whose first column is a gene
    that [orthodic] maps to [g]: the lines [translate_to_orthologs] reads a
    row from. *)
Definition data_row (orthodic : gmap string string) (handle : list string)
    (g : string) : Prop :=
  ∃ line c0 cs,
    line ∈ handle ∧ split line = c0 :: cs ∧ length cs = 6%nat
    ∧ c0 ≠ "baseMean" ∧ orthodic !! c0 = Some g.

(** The rows one experiment of a pair puts in one of its four sets: the
    adjusted p-value is a number and the fold change is above or below 0. *)
Definition directed1 (j : joined) : bool :=
  negb (isnull (padj1st j))
  && (fgt (logfc1st j) f_zero || flt (logfc1st j) f_zero).

Definition directed2 (j : joined) : bool :=
  negb (isnull (padj2 j)) && (fgt (logfc2 j) f_zero || flt (logfc2 j) f_zero).

(** The counts the three Python divisions of a pair divide by. *)
Definition num_sig (df3 : gmap string joined) : nat :=
  size (index_of sig_mask df3).

Definition intersection_ab (df3 : gmap string joined) : nat :=
  size (index_of sp1 df3 ∩ index_of sp2 df3)
  + size (index_of sn1 df3 ∩ index_of sn2 df3).

Definition bkgd_con (df3 : gmap string joined) : nat :=
  size ((index_of nsp1 df3 ∩ index_of nsp2 df3)
        ∪ (index_of nsn1 df3 ∩ index_of nsn2 df3)
        ∪ (index_of sp1 df3 ∩ index_of sp2 df3)
        ∪ (index_of sn1 df3 ∩ index_of sn2 df3)).

Definition bkgd_dis (df3 : gmap string joined) : nat :=
  size ((index_of nsp1 df3 ∩ index_of nsn2 df3)
        ∪ (index_of nsn1 df3 ∩ index_of nsp2 df3)
        ∪ (index_of sn1 df3 ∩ index_of sp2 df3)
        ∪ (index_of sp1 df3 ∩ index_of sn2 df3)).

(** The table of one experiment as a pair of [pairwise_comparisons] sees
    it (lines 570-578): translated without calibration, then calibrated. *)
Definition calibrated (pyfloat : string → option float64)
    (fs : gmap string (list string)) (orthodic : gmap string string)
    (calibrate : option string) (exp : string) : result (gmap string degrec) :=
  df ← translate_to_orthologs pyfloat fs exp orthodic None false;
  calibrate_df calibrate df.

(** Significant in the direction [up] (positive) or not [up] (negative). *)
Definition significant_towards (up : bool) (r : degrec) : bool :=
  fle (padj r) f_0_05
  && (if up then fgt (logfc r) f_zero else flt (logfc r) f_zero).

(** ** Worked inputs of the further statements *)

(** The index of [ortho_lines]: every line is in it. *)
Definition example_idx : gmap string (list string) :=
  list_to_map [("G1", ["AAAA|1"; "BBBB|1"]); ("G2", ["AAAA|2"; "AAAA|3"]);
               ("G3", ["AAAA|4"; "BBBB|4"])].

Definition example_tables : ortho_tables :=
  {| ortho_dic := example_dic; ortho_idx := example_idx |}.

(** The translated tables of the two files of [fs_pair]. *)
Definition df_a : gmap string degrec :=
  {["G1" := row (qc 1 100) (qc 3 2) (qc 10 1);
    "G3" := row (qc 1 100) (qc 3 2) (qc 10 1)]}.

Definition df_b : gmap string degrec :=
  {["G1" := row (qc 1 50) (qc 2 1) (qc 10 1);
    "G3" := row (qc 1 2) (qc 0 1) (qc 10 1)]}.

(** A table whose reference group [G1] has a negative fold change. *)
Definition df_down : gmap string degrec :=
  {["G1" := row (qc 1 50) (qc (-2) 1) (qc 10 1);
    "G3" := row (qc 3 10) (qc 1 1) (qc 10 1)]}.

(** The table of all experiments for the two files of [fs_pair]. *)
Definition dfall_pair : gmap string wide :=
  {["G1" := (row (qc 1 100) (qc 3 2) (qc 10 1),
             [row (qc 1 50) (qc 2 1) (qc 10 1)]);
    "G3" := (row (qc 1 100) (qc 3 2) (qc 10 1),
             [row (qc 1 2) (qc 0 1) (qc 10 1)])]}.

(** The files of [fs_pair] with the orthology file, and a command line that
    names both experiments and a species to ignore. *)
Definition fs_two : gmap string (list string) :=
  <["o.txt" := ortho_lines]> fs_pair.

Definition args_two_files : arguments :=
  {| experiments := ["a.txt"; "b.txt"]; orthologs := "o.txt";
     mustcontain := None; exclude := Some "XXXX"; manage_duplicates := false |}.

Definition args_no_exclude : arguments :=
  {| experiments := ["a.txt"]; orthologs := "o.txt"; mustcontain := None;
     exclude := None; manage_duplicates := false |}.

(** An orthology file that names the group [G1] on two lines, and its
    index: the second line replaces the first in [ortho_idx]. *)
Definition repeated_lines : list string := ["G1 a"; "G1 b"].

Definition repeated_tables : ortho_tables :=
  {| ortho_dic := list_to_map [("G1", "G1"); ("a", "G1"); ("b", "G1")];
     ortho_idx := {["G1" := ["b"]]} |}.

(** Both genes of [G1] are called [1] once their first five characters are
    cut. *)
Definition example_names : gmap string string := {["1" := "kinase"]}.

(** * Properties *)

(** ** The readers on the example files *)

Example ex_split : split "G1  AAAA|1	BBBB|1 " = ["G1"; "AAAA|1"; "BBBB|1"].
Proof. reflexivity. Qed.

Example ex_fetch :
  ortho_dic <$> fetch_orthologs {["o.txt" := ortho_lines]} "o.txt"
      (Some ["AAAA"; "BBBB"]) (Some []) false
  = Ok example_dic.
Proof. by_eval. Qed.

(** ** The result monad and loops *)

Lemma bind_Ok {A B : Type} (m : result A) (f : A → result B) (b : B) :
  m ≫= f = Ok b ↔ ∃ a, m = Ok a ∧ f a = Ok b.
Proof.
  destruct m as [a|e]; simpl; split.
  - intros H. exists a. split; [reflexivity | exact H].
  - intros (a' & Ha & H). injection Ha as ->. exact H.
  - intros H. discriminate H.
  - intros (a' & Ha & _). discriminate Ha.
Qed.

Lemma for_each_cons {A S : Type} (body : S → A → result S) (s : S) (x : A)
    (l : list A) :
  for_each body s (x :: l) = body s x ≫= λ s', for_each body s' l.
Proof. reflexivity. Qed.

Lemma for_each_app {A S : Type} (body : S → A → result S) (s : S)
    (l1 l2 : list A) :
  for_each body s (l1 ++ l2) = for_each body s l1 ≫= λ s', for_each body s' l2.
Proof.
  revert s. induction l1 as [|x l1 IH]; intros s; simpl.
  - reflexivity.
  - destruct (body s x) as [s'|e]; simpl; [apply IH | reflexivity].
Qed.

(** ** fetch_orthologs without a list of species to ignore *)

Lemma count_species_None (counts : gmap string nat) (g : string) :
  count_species false None counts g = Raise TypeError.
Proof. reflexivity. Qed.

Lemma fetch_line_None (mc : option (list string)) (t : ortho_tables)
    (line : string) :
  fetch_line mc None false t line
  = if decide (split line = []) then Ok t else Raise TypeError.
Proof.
  unfold fetch_line. destruct (split line) as [|grp members]; reflexivity.
Qed.

Lemma fetch_loop_None (mc : option (list string)) (handle : list string)
    (t : ortho_tables) :
  Exists (λ line, split line ≠ []) handle →
  for_each (fetch_line mc None false) t handle = Raise TypeError.
Proof.
  induction 1 as [line rest Hline | line rest _ IH]; simpl;
    rewrite fetch_line_None; destruct (decide (split line = [])) as [E|E];
    simpl; try reflexivity.
  - contradiction.
  - apply IH.
Qed.

(** C9. With [exclude=None] and [duplicates=False], [fetch_orthologs] raises
    [TypeError] on every orthology file that has a line with at least one
    column: [spec in exclude] is evaluated on [None]. *)
Theorem fetch_orthologs_exclude_None_raises
    (fs : gmap string (list string)) (orthofile : string)
    (handle : list string) (mc : option (list string)) :
  fs !! orthofile = Some handle →
  Exists (λ line, split line ≠ []) handle →
  fetch_orthologs fs orthofile mc None false = Raise TypeError.
Proof.
  intros Hfile Hline. unfold fetch_orthologs, open_file. rewrite Hfile. simpl.
  by apply fetch_loop_None.
Qed.

Lemma fetch_orthologs_exclude_None_raises_witness :
  ({["o.txt" := ortho_lines]} : gmap string (list string)) !! "o.txt"
    = Some ortho_lines
  ∧ Exists (λ line, split line ≠ []) ortho_lines
  ∧ fetch_orthologs {["o.txt" := ortho_lines]} "o.txt" None None false
    = Raise TypeError.
Proof.
  assert (H1 : ({["o.txt" := ortho_lines]} : gmap string (list string))
                 !! "o.txt" = Some ortho_lines) by reflexivity.
  assert (H2 : Exists (λ line, split line ≠ []) ortho_lines).
  { apply Exists_cons_hd. vm_compute. discriminate. }
  split; [exact H1 | split; [exact H2 |]].
  exact (fetch_orthologs_exclude_None_raises _ _ _ None H1 H2).
Defined.

(** The sibling argument [mustcontain=None] is accepted: the same file is
    indexed once a list to ignore is given, even an empty one. *)
Example fetch_orthologs_mustcontain_None :
  ortho_dic <$> fetch_orthologs {["o.txt" := ortho_lines]} "o.txt"
      None (Some []) false
  = Ok example_dic.
Proof. by_eval. Qed.


(** ** translate_to_orthologs: the adjusted p-value *)

Section TranslateFacts.

Variable pyfloat : string → option float64.

Lemma parse_padj_column6 (c5 c6 : string) (v : float64) :
  pyfloat c6 = Some v → parse_padj pyfloat c5 c6 = Ok v.
Proof. intros H. unfold parse_padj. by rewrite H. Qed.

Lemma parse_padj_NA (c6 : string) :
  pyfloat c6 = None → parse_padj pyfloat "NA" c6 = Ok f_one.
Proof. intros H. unfold parse_padj. by rewrite H. Qed.

Lemma parse_padj_column5 (c5 c6 : string) (v : float64) :
  pyfloat c6 = None → c5 ≠ "NA" → pyfloat c5 = Some v →
  parse_padj pyfloat c5 c6 = Ok (if flt v f_0_05 then f_0_05 else f_one).
Proof.
  intros H6 HNA H5. unfold parse_padj. rewrite H6, H5.
  apply String.eqb_neq in HNA. rewrite HNA. by destruct (flt v f_0_05).
Qed.

Lemma parse_padj_unparsable (c5 c6 : string) :
  pyfloat c6 = None → c5 ≠ "NA" → pyfloat c5 = None →
  parse_padj pyfloat c5 c6 = Raise ValueError.
Proof.
  intros H6 HNA H5. unfold parse_padj. rewrite H6, H5.
  apply String.eqb_neq in HNA. by rewrite HNA.
Qed.

(** A row of seven columns whose gene is indexed. *)
Lemma translate_line_row (orthodic : gmap string string)
    (degdic : gmap string degrec) (line c0 c1 c2 c3 c4 c5 c6 grp : string) :
  split line = [c0; c1; c2; c3; c4; c5; c6] →
  c0 ≠ "baseMean" →
  orthodic !! c0 = Some grp →
  translate_line pyfloat orthodic degdic line
  = p ← parse_padj pyfloat c5 c6;
    Ok (<[grp := {| padj := p; logfc := parse_or_zero pyfloat c2;
                    basemean := parse_or_zero pyfloat c1 |}]> degdic).
Proof.
  intros Hsplit Hhead Hgene. unfold translate_line. rewrite Hsplit, Hgene.
  apply String.eqb_neq in Hhead. by rewrite Hhead.
Qed.

(** The fallback chain where it is defined: column 6 when it parses; else
    1 for the literal [NA] in column 5; else 0.05 or 1 as column 5 parses
    below 0.05 or not. *)
Lemma translate_line_padj (orthodic : gmap string string)
    (degdic df : gmap string degrec) (line c0 c1 c2 c3 c4 c5 c6 grp : string) :
  split line = [c0; c1; c2; c3; c4; c5; c6] →
  c0 ≠ "baseMean" →
  orthodic !! c0 = Some grp →
  translate_line pyfloat orthodic degdic line = Ok df →
  padj <$> df !! grp
  = Some (match pyfloat c6 with
          | Some v => v
          | None =>
              if decide (c5 = "NA") then f_one
              else match pyfloat c5 with
                   | Some v => if flt v f_0_05 then f_0_05 else f_one
                   | None => f_one
                   end
          end).
Proof.
  intros Hsplit Hhead Hgene.
  rewrite (translate_line_row _ _ _ _ _ _ _ _ _ _ _ Hsplit Hhead Hgene).
  intros (p & Hp & Hdf)%bind_Ok. injection Hdf as <-.
  rewrite lookup_insert_eq. simpl. f_equal.
  destruct (pyfloat c6) as [v|] eqn:H6.
  - rewrite (parse_padj_column6 _ _ _ H6) in Hp. by injection Hp.
  - destruct (decide (c5 = "NA")) as [->|HNA].
    + rewrite (parse_padj_NA _ H6) in Hp. by injection Hp.
    + destruct (pyfloat c5) as [v|] eqn:H5.
      * rewrite (parse_padj_column5 _ _ _ H6 HNA H5) in Hp. by injection Hp.
      * rewrite (parse_padj_unparsable _ _ H6 HNA H5) in Hp. discriminate Hp.
Qed.

(** C3. A row whose column 6 does not parse and whose column 5 is neither
    the literal [NA] nor a number is not given the adjusted p-value 1: the
    second [float()] is outside any [try], and the translation raises
    [ValueError]. *)
Theorem translate_line_unparsable_pvalue_raises
    (orthodic : gmap string string) (degdic : gmap string degrec)
    (line c0 c1 c2 c3 c4 c5 c6 grp : string) :
  split line = [c0; c1; c2; c3; c4; c5; c6] →
  c0 ≠ "baseMean" →
  orthodic !! c0 = Some grp →
  pyfloat c6 = None →
  c5 ≠ "NA" →
  pyfloat c5 = None →
  translate_line pyfloat orthodic degdic line = Raise ValueError.
Proof.
  intros Hsplit Hhead Hgene H6 HNA H5.
  rewrite (translate_line_row _ _ _ _ _ _ _ _ _ _ _ Hsplit Hhead Hgene).
  by rewrite (parse_padj_unparsable _ _ H6 HNA H5).
Qed.

(** Of several rows of one group the last one is kept. *)
Lemma translate_last_row_wins (fs : gmap string (list string))
    (degfile : string) (handle : list string) (orthodic : gmap string string)
    (line c0 c1 c2 c3 c4 c5 c6 grp : string) (df : gmap string degrec) :
  fs !! degfile = Some (handle ++ [line]) →
  split line = [c0; c1; c2; c3; c4; c5; c6] →
  c0 ≠ "baseMean" →
  orthodic !! c0 = Some grp →
  translate_to_orthologs pyfloat fs degfile orthodic None false = Ok df →
  ∃ p, parse_padj pyfloat c5 c6 = Ok p
       ∧ df !! grp = Some {| padj := p; logfc := parse_or_zero pyfloat c2;
                             basemean := parse_or_zero pyfloat c1 |}.
Proof.
  intros Hfile Hsplit Hhead Hgene. unfold translate_to_orthologs, open_file.
  rewrite Hfile. simpl. rewrite for_each_app.
  intros (degdic & Hloop & Hrest)%bind_Ok.
  apply bind_Ok in Hloop as (before & _ & Hlast). simpl in Hlast.
  rewrite (translate_line_row _ _ _ _ _ _ _ _ _ _ _ Hsplit Hhead Hgene) in Hlast.
  destruct (parse_padj pyfloat c5 c6) as [p|e]; simpl in Hlast;
    [|discriminate Hlast].
  injection Hlast as <-. simpl in Hrest. injection Hrest as <-.
  exists p. split; [reflexivity | apply lookup_insert_eq].
Qed.

End TranslateFacts.

Lemma translate_line_unparsable_pvalue_raises_witness :
  split "AAAA|1 10 1.5 x x abc NA" = ["AAAA|1"; "10"; "1.5"; "x"; "x"; "abc"; "NA"]
  ∧ translate_line decimal_float example_dic ∅ "AAAA|1 10 1.5 x x abc NA"
    = Raise ValueError.
Proof.
  assert (Hsplit : split "AAAA|1 10 1.5 x x abc NA"
                   = ["AAAA|1"; "10"; "1.5"; "x"; "x"; "abc"; "NA"])
    by reflexivity.
  split; [exact Hsplit |].
  apply (translate_line_unparsable_pvalue_raises decimal_float example_dic ∅
           _ _ _ _ _ _ _ _ "G1" Hsplit).
  - discriminate.
  - reflexivity.
  - reflexivity.
  - discriminate.
  - reflexivity.
Defined.

(** The whole translation of a file with such a row ends in the exception;
    the sibling columns 1 and 2 fall back to 0 on the same kind of text. *)
Example translate_unparsable_pvalue :
  translate_to_orthologs decimal_float
    {["a.txt" := ["AAAA|1 10 1.5 x x abc NA"]]} "a.txt" example_dic None false
  = Raise ValueError.
Proof. by_eval. Qed.

Example translate_unparsable_logfc :
  translate_to_orthologs decimal_float
    {["a.txt" := ["AAAA|1 abc abc x x 0.001 0.01"]]} "a.txt" example_dic None
    false
  = Ok {["G1" := {| padj := Fin (qc 1 100); logfc := f_zero;
                    basemean := f_zero |}]}.
Proof. by_eval. Qed.

(** ** translate_to_orthologs: several rows of one group *)

Example ex_fetch_duplicates :
  ortho_dic <$> fetch_orthologs {["o.txt" := ortho_lines]} "o.txt"
      None None true
  = Ok duplicates_dic.
Proof. by_eval. Qed.

(** With [duplicates=True] the table is the one of [duplicates=False] less
    the rows whose values another row has too: how many rows of the file
    went to a group plays no part. *)
Lemma translate_duplicates_by_value (pyfloat : string → option float64)
    (fs : gmap string (list string)) (degfile : string)
    (orthodic : gmap string string) (calibrate : option string) :
  translate_to_orthologs pyfloat fs degfile orthodic calibrate true
  = drop_duplicates
      <$> translate_to_orthologs pyfloat fs degfile orthodic calibrate false.
Proof.
  unfold translate_to_orthologs. destruct (open_file fs degfile) as [h|e]; [|done].
  simpl. destruct (for_each _ ∅ h) as [degdic|e]; [|done].
  simpl. by destruct (calibrate_df calibrate degdic).
Qed.

Lemma lookup_drop_duplicates (df : gmap string degrec) (g : string) (r : degrec) :
  drop_duplicates df !! g = Some r
  ↔ df !! g = Some r ∧ occurrences df r = 1%nat.
Proof. unfold drop_duplicates. by rewrite map_lookup_filter_Some. Qed.

(** C2. With [duplicates=True] a group two rows contributed to stays in the
    table, with the values of the later row: [drop_duplicates(keep=False)]
    compares the values of the rows, and the dictionary has kept one row per
    group before it runs. *)
Theorem translate_duplicates_keeps_group :
  translate_to_orthologs decimal_float {["a.txt" := two_rows_of_G2]} "a.txt"
    duplicates_dic None true
  = Ok (<["G2" := {| padj := Fin (qc 1 50); logfc := Fin (qc (-2) 1);
                     basemean := Fin (qc 20 1) |}]>
        {["G1" := {| padj := Fin (qc 3 5); logfc := Fin (qc 1 1);
                     basemean := Fin (qc 5 1) |}]}).
Proof. by_eval. Qed.

(** What goes instead: two groups, one row each, with equal values. *)
Example translate_duplicates_drops_equal_rows :
  translate_to_orthologs decimal_float
    {["a.txt" := ["AAAA|1 10 1.5 x x 0.001 0.01";
                  "AAAA|4 10 1.5 x x 0.001 0.01"]]} "a.txt"
    duplicates_dic None true
  = Ok ∅.
Proof. by_eval. Qed.

(** ** The rows a mask selects *)

Lemma elem_of_index_of (mask : joined → bool) (df3 : gmap string joined)
    (g : string) :
  g ∈ index_of mask df3 ↔ ∃ j, df3 !! g = Some j ∧ mask j = true.
Proof.
  unfold index_of, select. rewrite elem_of_dom. unfold is_Some.
  setoid_rewrite map_lookup_filter_Some. simpl. reflexivity.
Qed.

(** ** The sign columns *)

Lemma sign_columns_Ok (df3 : gmap string joined)
    (bf : gmap string (float64 * float64)) :
  sign_columns df3 = Ok bf →
  df3 ≠ ∅ ∧ bf = (λ j, (sign_of (logfc2 j), sign_of (logfc1st j))) <$> df3.
Proof.
  unfold sign_columns. destruct (decide (df3 = ∅)); [done|].
  by intros [= <-].
Qed.

Lemma sign_columns_nonempty (df3 : gmap string joined) :
  df3 ≠ ∅ →
  sign_columns df3
  = Ok ((λ j, (sign_of (logfc2 j), sign_of (logfc1st j))) <$> df3).
Proof. intros Hne. unfold sign_columns. by rewrite decide_False. Qed.

Lemma nonempty_of_index_of (mask : joined → bool) (df3 : gmap string joined) :
  size (index_of mask df3) ≠ 0%nat → df3 ≠ ∅.
Proof.
  intros Hsize ->. apply Hsize. unfold index_of, select.
  by rewrite map_filter_empty, dom_empty_L, size_empty.
Qed.

(** ** The correlation over the genes significant in at least one *)

Section OnedegFacts.

Variable pearson : list (float64 * float64) → float64.

(** C6. The rows [onedeg_corr] is computed over are those of the mask
    [(padj <= 0.5) | (padj1st <= 0.05)]: a row whose adjusted p-value in the
    second experiment lies above 0.05 and at most at 0.5, and which is not
    significant in the first, is among them although it is significant in
    neither experiment (and not counted in [num_sig]). *)
Theorem onedeg_corr_uses_threshold_0_5 (threshold : float64)
    (df3 : gmap string joined) (g : string) (j : joined) (r : pair_scores) :
  df3 !! g = Some j →
  fle (padj2 j) f_0_5 = true →
  fle (padj2 j) f_0_05 = false →
  fle (padj1st j) f_0_05 = false →
  analyse_joined pearson threshold df3 = Ok r →
  onedeg_corr r = pearson (columns logfc2 logfc1st (select onedeg_mask df3))
  ∧ g ∈ dom (select onedeg_mask df3)
  ∧ g ∉ index_of sig_mask df3.
Proof.
  intros Hrow H05 H005 H1st Hr. split; [|split].
  - unfold analyse_joined in Hr.
    apply bind_Ok in Hr as (bf & _ & Hr).
    apply bind_Ok in Hr as (rel & _ & Hr).
    apply bind_Ok in Hr as (cs & _ & Hr).
    apply bind_Ok in Hr as (ij & _ & Hr).
    by injection Hr as <-.
  - apply (elem_of_index_of onedeg_mask). exists j. split; [done|].
    unfold onedeg_mask. by rewrite H05.
  - rewrite elem_of_index_of. intros (j' & Hj' & Hsig).
    rewrite Hrow in Hj'. injection Hj' as <-.
    unfold sig_mask in Hsig. by rewrite H005, H1st in Hsig.
Qed.

End OnedegFacts.

Example ex_joined_onedeg :
  joined_table decimal_float fs_onedeg example_dic None true "a.txt" "b.txt"
  = Ok df3_onedeg.
Proof. by_eval. Qed.

Lemma onedeg_corr_uses_threshold_0_5_witness :
  ∃ r, analyse_joined no_corr f_one df3_onedeg = Ok r
       ∧ "G3" ∈ dom (select onedeg_mask df3_onedeg)
       ∧ "G3" ∉ index_of sig_mask df3_onedeg.
Proof.
  destruct (analyse_joined no_corr f_one df3_onedeg) as [r|e] eqn:Hr;
    [|exfalso; revert Hr; vm_compute; discriminate].
  exists r. split; [reflexivity|].
  apply (onedeg_corr_uses_threshold_0_5 no_corr f_one df3_onedeg "G3"
           (row (qc 3 10) (qc 3 2) (qc 10 1), row (qc 3 10) (qc 1 1) (qc 10 1))
           r);
    [by_eval | reflexivity | reflexivity | reflexivity | exact Hr].
Defined.

(** ** Counts as Python floats *)

Lemma of_nat_add (a b : nat) : of_nat (a + b) = (of_nat a + of_nat b)%Qc.
Proof.
  unfold of_nat. apply Qc_is_canon. simpl.
  rewrite !Qred_correct, Nat2Z.inj_add, inject_Z_plus. reflexivity.
Qed.

Lemma of_nat_eq_0 (n : nat) : of_nat n = 0%Qc ↔ n = 0%nat.
Proof.
  unfold of_nat. split.
  - intros H. apply Q2Qc_eq_iff in H. unfold Qeq in H. simpl in H. lia.
  - intros ->. reflexivity.
Qed.

Lemma of_nat_inj (a b : nat) : of_nat a = of_nat b → a = b.
Proof.
  unfold of_nat. intros H. apply Q2Qc_eq_iff in H. unfold Qeq in H.
  simpl in H. lia.
Qed.

Lemma Qclt_irrefl (x : Qc) : ¬ (x < x)%Qc.
Proof. apply Qcle_not_lt, Qcle_refl. Qed.

Lemma py_div_zero (x y : Qc) : y = 0%Qc → py_div x y = Raise ZeroDivisionError.
Proof. intros ->. reflexivity. Qed.

Lemma py_div_nonzero (x y : Qc) : y ≠ 0%Qc → py_div x y = Ok (x / y)%Qc.
Proof. intros H. unfold py_div. by destruct (decide (y = 0%Qc)). Qed.

Lemma size_third_of_union (A B C D : gset string) :
  (size C ≤ size (A ∪ B ∪ C ∪ D))%nat.
Proof. apply subseteq_size. set_solver. Qed.

Lemma size_fourth_of_union (A B C D : gset string) :
  (size D ≤ size (A ∪ B ∪ C ∪ D))%nat.
Proof. apply subseteq_size. set_solver. Qed.

(** ** The analysis of one joined table *)

Section AnalyseFacts.

Variable pearson : list (float64 * float64) → float64.

Lemma concordancecounts_con_sig1
    (sp_1 sp_2 sn_1 sn_2 nsp_1 nsp_2 nsn_1 nsn_2 : gset string)
    (c : concordance) :
  concordancecounts sp_1 sp_2 sn_1 sn_2 nsp_1 nsp_2 nsn_1 nsn_2 = Ok c →
  con_sig1 c = (sp_1 ∩ sp_2) ∪ (sn_1 ∩ sn_2).
Proof.
  unfold concordancecounts. intros (freq & _ & Hc)%bind_Ok. by injection Hc as <-.
Qed.

Lemma analyse_joined_con_sig (threshold : float64) (df3 : gmap string joined)
    (r : pair_scores) :
  analyse_joined pearson threshold df3 = Ok r →
  con_sig1 (concordance_sets r)
  = (index_of sp1 df3 ∩ index_of sp2 df3) ∪ (index_of sn1 df3 ∩ index_of sn2 df3).
Proof.
  unfold analyse_joined. intros (bf & _ & Hr)%bind_Ok.
  apply bind_Ok in Hr as (rel & _ & Hr).
  apply bind_Ok in Hr as (cs & Hcs & Hr).
  apply bind_Ok in Hr as (ij & _ & Hr).
  injection Hr as <-. simpl. by apply concordancecounts_con_sig1 in Hcs.
Qed.

(** A joined table without rows does not get as far as the divisions. *)
Lemma analyse_joined_empty (threshold : float64) :
  analyse_joined pearson threshold ∅ = Raise ValueError.
Proof. reflexivity. Qed.

(** When the significant genes are exactly the concordant significant ones,
    one of the Python divisions has a zero divisor. *)
Lemma analyse_joined_union_eq_intersection (threshold : float64)
    (df3 : gmap string joined) :
  df3 ≠ ∅ →
  size (index_of sig_mask df3)
  = (size (index_of sp1 df3 ∩ index_of sp2 df3)
     + size (index_of sn1 df3 ∩ index_of sn2 df3))%nat →
  analyse_joined pearson threshold df3 = Raise ZeroDivisionError.
Proof.
  intros Hrows Hsize. unfold analyse_joined.
  rewrite sign_columns_nonempty by done. cbn [mbind result_bind].
  destruct (decide (size (index_of sig_mask df3) = 0%nat)) as [Hz|Hnz].
  { rewrite (py_div_zero _ (of_nat _)); [done | by apply of_nat_eq_0]. }
  rewrite (py_div_nonzero _ (of_nat (size (index_of sig_mask df3))));
    [|by rewrite of_nat_eq_0]. simpl.
  unfold concordancecounts.
  rewrite (py_div_nonzero _ (of_nat _)).
  - simpl. rewrite py_div_zero; [done|]. rewrite Hsize, of_nat_add. ring.
  - rewrite of_nat_eq_0.
    match goal with
    | |- (size (?A ∪ ?B ∪ ?C ∪ ?D) + _)%nat ≠ _ =>
        pose proof (size_third_of_union A B C D);
        pose proof (size_fourth_of_union A B C D)
    end.
    lia.
Qed.

End AnalyseFacts.

(** ** The loop over the pairs of experiments *)

Lemma elem_of_foldl_intersection (s : gset string) (rest : list (gset string))
    (g : string) :
  g ∈ foldl (∩) s rest ↔ g ∈ s ∧ ∀ c, c ∈ rest → g ∈ c.
Proof.
  revert s. induction rest as [|c rest IH]; intros s; simpl.
  - split; [intros H; split; [done|] | by intros [H _]].
    intros c Hc. by apply elem_of_nil in Hc.
  - rewrite IH, elem_of_intersection. split.
    + intros [[Hs Hc] Hrest]. split; [done|].
      intros c' [->|Hc']%elem_of_cons; [done | by apply Hrest].
    + intros [Hs Hall]. split; [split; [done|] |].
      * apply Hall, elem_of_cons. by left.
      * intros c' Hc'. apply Hall, elem_of_cons. by right.
Qed.

Section PairwiseFacts.

Variable pyfloat : string → option float64.
Variable pearson : list (float64 * float64) → float64.
Variable fs : gmap string (list string).
Variable orthodic : gmap string string.
Variable threshold : float64.
Variable calibrate : option string.
Variable drop_nas : bool.

Let step := pairwise_step pyfloat pearson fs orthodic threshold calibrate drop_nas.
Let table := joined_table pyfloat fs orthodic calibrate drop_nas.

(** A pair is classified when its table is built and analysed without an
    exception. *)
Let classified (exp1 exp2 : string) : Prop :=
  ∃ df3 r, table exp1 exp2 = Ok df3
           ∧ analyse_joined pearson threshold df3 = Ok r.

Lemma pairwise_step_same (st : pairwise_state) (exp : string) :
  step st (exp, exp) = Ok st.
Proof. unfold step, pairwise_step. by destruct (decide (exp = exp)). Qed.

Lemma pairwise_step_Ok (st st' : pairwise_state) (exp1 exp2 : string) :
  exp1 ≠ exp2 →
  step st (exp1, exp2) = Ok st' ↔
  ∃ df3 r, table exp1 exp2 = Ok df3
           ∧ analyse_joined pearson threshold df3 = Ok r
           ∧ st' = {| scores := <[(label exp1, label exp2) := r]> (scores st);
                      concordant_sig_genesets :=
                        concordant_sig_genesets st
                        ++ [con_sig1 (concordance_sets r)] |}.
Proof.
  intros Hne. unfold step, pairwise_step.
  destruct (decide (exp1 = exp2)) as [|_]; [done|].
  split.
  - intros (df3 & Hdf3 & Hst)%bind_Ok.
    apply bind_Ok in Hst as (r & Hr & Hst). exists df3, r.
    injection Hst as <-. by repeat split.
  - intros (df3 & r & Hdf3 & Hr & ->). unfold table in Hdf3.
    rewrite Hdf3. simpl. by rewrite Hr.
Qed.

(** The sets the loop appends: one per ordered pair of distinct experiments
    among [pairs], each the concordant significant set of the pair's joined
    table; and each such pair has been classified. *)
Lemma pairwise_loop_Ok (pairs : list (string * string)) (st st' : pairwise_state) :
  for_each step st pairs = Ok st' →
  (∀ exp1 exp2, (exp1, exp2) ∈ pairs → exp1 ≠ exp2 → classified exp1 exp2)
  ∧ ∃ new,
      concordant_sig_genesets st' = concordant_sig_genesets st ++ new
      ∧ (∀ exp1 exp2, (exp1, exp2) ∈ pairs → exp1 ≠ exp2 → new ≠ [])
      ∧ ∀ c, c ∈ new ↔
             ∃ exp1 exp2 df3,
               (exp1, exp2) ∈ pairs ∧ exp1 ≠ exp2 ∧ table exp1 exp2 = Ok df3
               ∧ c = (index_of sp1 df3 ∩ index_of sp2 df3)
                     ∪ (index_of sn1 df3 ∩ index_of sn2 df3).
Proof.
  revert st. induction pairs as [|[exp1 exp2] pairs IH]; intros st.
  - intros [= <-]. split.
    + intros e1 e2 H. by apply elem_of_nil in H.
    + exists []. rewrite app_nil_r. split; [done|]. split.
      * intros e1 e2 H. by apply elem_of_nil in H.
      * intros c. split; [by intros H%elem_of_nil|].
        intros (e1 & e2 & df3 & H & _). by apply elem_of_nil in H.
  - rewrite for_each_cons. intros (st1 & Hstep & Hrest)%bind_Ok.
    destruct (IH _ Hrest) as (Hcl & new & Hnew & Hnonempty & Hin).
    destruct (decide (exp1 = exp2)) as [->|Hne].
    + rewrite pairwise_step_same in Hstep. injection Hstep as <-. split.
      * intros e1 e2 [[= -> ->]|H]%elem_of_cons Hd; [done | by apply Hcl].
      * exists new. split; [done|]. split.
        -- intros e1 e2 [[= -> ->]|H]%elem_of_cons Hd; [done|].
           by apply (Hnonempty e1 e2).
        -- intros c. rewrite Hin. split.
           ++ intros (e1 & e2 & df3 & H & Hrem). exists e1, e2, df3.
              split; [apply elem_of_cons; by right | done].
           ++ intros (e1 & e2 & df3 & [[= -> ->]|H]%elem_of_cons & Hd & Hrem);
                [done|]. by exists e1, e2, df3.
    + apply (pairwise_step_Ok _ _ _ _ Hne) in Hstep
        as (df3 & r & Hdf3 & Hr & ->). simpl in Hnew. split.
      * intros e1 e2 [[= -> ->]|H]%elem_of_cons Hd; [by exists df3, r|].
        by apply Hcl.
      * exists (con_sig1 (concordance_sets r) :: new).
        split; [by rewrite Hnew, <- app_assoc|]. split; [done|].
        intros c. rewrite elem_of_cons, Hin.
        rewrite (analyse_joined_con_sig _ _ _ _ Hr). split.
        -- intros [->|(e1 & e2 & df3' & H & Hrem)].
           ++ exists exp1, exp2, df3. split; [apply elem_of_cons; by left|done].
           ++ exists e1, e2, df3'. split; [apply elem_of_cons; by right|done].
        -- intros (e1 & e2 & df3' & [[= -> ->]|H]%elem_of_cons & Hd & Ht & ->).
           ++ left. rewrite Hdf3 in Ht. by injection Ht as <-.
           ++ right. by exists e1, e2, df3'.
Qed.

Lemma pairwise_loop_total (pairs : list (string * string)) (st : pairwise_state) :
  (∀ exp1 exp2, (exp1, exp2) ∈ pairs → exp1 ≠ exp2 → classified exp1 exp2) →
  ∃ st', for_each step st pairs = Ok st'.
Proof.
  revert st. induction pairs as [|[exp1 exp2] pairs IH]; intros st Hcl.
  - by exists st.
  - rewrite for_each_cons. destruct (decide (exp1 = exp2)) as [->|Hne].
    + rewrite pairwise_step_same. simpl. apply IH.
      intros e1 e2 H. apply Hcl, elem_of_cons. by right.
    + destruct (Hcl exp1 exp2) as (df3 & r & Hdf3 & Hr);
        [apply elem_of_cons; by left | done |].
      assert (Hstep : step st (exp1, exp2)
                      = Ok {| scores := <[(label exp1, label exp2) := r]> (scores st);
                              concordant_sig_genesets :=
                                concordant_sig_genesets st
                                ++ [con_sig1 (concordance_sets r)] |}).
      { apply pairwise_step_Ok; [done|]. by exists df3, r. }
      rewrite Hstep. simpl. apply IH.
      intros e1 e2 H. apply Hcl, elem_of_cons. by right.
Qed.

Lemma elem_of_list_prod (l : list string) (exp1 exp2 : string) :
  (exp1, exp2) ∈ list_prod l l ↔ exp1 ∈ l ∧ exp2 ∈ l.
Proof. rewrite !list_elem_of_In. apply in_prod_iff. Qed.

(** C1. When the experiments hold two distinct names and every ordered pair
    of distinct experiments is classified, [pairwise_comparisons] returns a
    set, and an ortholog is in it exactly when it is in the concordant
    significant set [(df1_sp & df2_sp) | (df1_sn & df2_sn)] of every such
    pair. *)
Theorem common_to_all_is_intersection (experiments : list string) :
  (∃ exp1 exp2, exp1 ∈ experiments ∧ exp2 ∈ experiments ∧ exp1 ≠ exp2) →
  (∀ exp1 exp2, exp1 ∈ experiments → exp2 ∈ experiments → exp1 ≠ exp2 →
     ∃ df3 r, joined_table pyfloat fs orthodic calibrate drop_nas exp1 exp2
              = Ok df3
              ∧ analyse_joined pearson threshold df3 = Ok r) →
  ∃ common_to_all,
    pairwise_comparisons pyfloat pearson fs experiments orthodic threshold
      calibrate drop_nas = Ok common_to_all
    ∧ ∀ g, g ∈ common_to_all ↔
           ∀ exp1 exp2 df3,
             exp1 ∈ experiments → exp2 ∈ experiments → exp1 ≠ exp2 →
             joined_table pyfloat fs orthodic calibrate drop_nas exp1 exp2
             = Ok df3 →
             g ∈ (index_of sp1 df3 ∩ index_of sp2 df3)
                 ∪ (index_of sn1 df3 ∩ index_of sn2 df3).
Proof.
  intros (a & b & Ha & Hb & Hab) Hall.
  destruct (pairwise_loop_total (list_prod experiments experiments)
              {| scores := ∅; concordant_sig_genesets := [] |}) as [st Hst].
  { intros e1 e2 [H1 H2]%elem_of_list_prod Hd. by apply Hall. }
  destruct (pairwise_loop_Ok _ _ _ Hst) as (_ & new & Hnew & Hnonempty & Hin).
  simpl in Hnew. unfold pairwise_comparisons. fold step. rewrite Hst. simpl.
  rewrite Hnew. destruct new as [|s rest].
  { exfalso. apply (Hnonempty a b); [by apply elem_of_list_prod | done..]. }
  exists (foldl (∩) s rest). split; [done|].
  intros g. rewrite elem_of_foldl_intersection. split.
  - intros [Hs Hrest] e1 e2 df3 H1 H2 Hd Ht.
    assert (Hc : (index_of sp1 df3 ∩ index_of sp2 df3)
                 ∪ (index_of sn1 df3 ∩ index_of sn2 df3) ∈ s :: rest).
    { apply Hin. exists e1, e2, df3. by rewrite elem_of_list_prod. }
    apply elem_of_cons in Hc as [<-|Hc]; [done | by apply Hrest].
  - intros Hg.
    assert (Hevery : ∀ c, c ∈ s :: rest → g ∈ c).
    { intros c (e1 & e2 & df3 & [H1 H2]%elem_of_list_prod & Hd & Ht & ->)%Hin.
      by apply (Hg e1 e2 df3). }
    split; [apply Hevery, elem_of_cons; by left|].
    intros c Hc. apply Hevery, elem_of_cons. by right.
Qed.

(** C5. When the genes significant in at least one experiment of a pair are
    exactly its concordant significant genes (union = intersection), the
    analysis of the pair stores no undefined value: on a joined table with a
    row it raises [ZeroDivisionError]; on a joined table without rows (union
    and intersection are both 0) it ends earlier, in the [ValueError] of
    line 619.  Either way [pairwise_comparisons] over any list of
    experiments with that pair ends in an exception. *)
Theorem jaccard_zero_denominator_raises (experiments : list string)
    (exp1 exp2 : string) (df3 : gmap string joined) :
  exp1 ∈ experiments → exp2 ∈ experiments → exp1 ≠ exp2 →
  joined_table pyfloat fs orthodic calibrate drop_nas exp1 exp2 = Ok df3 →
  size (index_of sig_mask df3)
  = (size (index_of sp1 df3 ∩ index_of sp2 df3)
     + size (index_of sn1 df3 ∩ index_of sn2 df3))%nat →
  (df3 ≠ ∅ → analyse_joined pearson threshold df3 = Raise ZeroDivisionError)
  ∧ (df3 = ∅ → analyse_joined pearson threshold df3 = Raise ValueError)
  ∧ ∃ e, pairwise_comparisons pyfloat pearson fs experiments orthodic
           threshold calibrate drop_nas = Raise e.
Proof.
  intros H1 H2 Hd Ht Hsize.
  assert (Hraise : ∃ e, analyse_joined pearson threshold df3 = Raise e).
  { destruct (decide (df3 = ∅)) as [->|Hrows].
    - exists ValueError. apply analyse_joined_empty.
    - exists ZeroDivisionError.
      by apply analyse_joined_union_eq_intersection. }
  split; [intros Hrows; by apply analyse_joined_union_eq_intersection|].
  split; [intros ->; apply analyse_joined_empty|].
  destruct Hraise as [e0 Hraise].
  unfold pairwise_comparisons. fold step.
  destruct (for_each step _ (list_prod experiments experiments))
    as [st|e] eqn:Hst; [|by exists e].
  exfalso. apply pairwise_loop_Ok in Hst as [Hcl _].
  destruct (Hcl exp1 exp2) as (df3' & r & Ht' & Hr);
    [by apply elem_of_list_prod | done |].
  unfold table in Ht'. rewrite Ht in Ht'. injection Ht' as <-.
  by rewrite Hraise in Hr.
Qed.

End PairwiseFacts.

(** ** Worked pairs of experiments *)

Example ex_joined_ab :
  joined_table decimal_float fs_pair example_dic None true "a.txt" "b.txt"
  = Ok df3_ab.
Proof. by_eval. Qed.

Example ex_joined_ba :
  joined_table decimal_float fs_pair example_dic None true "b.txt" "a.txt"
  = Ok df3_ba.
Proof. by_eval. Qed.

Example ex_joined_single :
  joined_table decimal_float fs_single example_dic None true "a.txt" "b.txt"
  = Ok df3_single.
Proof. by_eval. Qed.

Lemma elem_of_two (x a b : string) : x ∈ [a; b] → x = a ∨ x = b.
Proof. intros [->|[->|[]%elem_of_nil]%elem_of_cons]%elem_of_cons; auto. Qed.

Lemma common_to_all_is_intersection_witness :
  ∃ common_to_all,
    pairwise_comparisons decimal_float no_corr fs_pair ["a.txt"; "b.txt"]
      example_dic f_one None true = Ok common_to_all
    ∧ ∀ g, g ∈ common_to_all ↔
           ∀ exp1 exp2 df3,
             exp1 ∈ ["a.txt"; "b.txt"] → exp2 ∈ ["a.txt"; "b.txt"] →
             exp1 ≠ exp2 →
             joined_table decimal_float fs_pair example_dic None true exp1 exp2
             = Ok df3 →
             g ∈ (index_of sp1 df3 ∩ index_of sp2 df3)
                 ∪ (index_of sn1 df3 ∩ index_of sn2 df3).
Proof.
  apply (common_to_all_is_intersection decimal_float no_corr fs_pair
           example_dic f_one None true ["a.txt"; "b.txt"]).
  - exists "a.txt", "b.txt". repeat split; [by_eval | by_eval | discriminate].
  - assert (Hab : ∃ r, analyse_joined no_corr f_one df3_ab = Ok r).
    { destruct (analyse_joined no_corr f_one df3_ab) as [r|e] eqn:Hr;
        [by exists r | exfalso; revert Hr; vm_compute; discriminate]. }
    assert (Hba : ∃ r, analyse_joined no_corr f_one df3_ba = Ok r).
    { destruct (analyse_joined no_corr f_one df3_ba) as [r|e] eqn:Hr;
        [by exists r | exfalso; revert Hr; vm_compute; discriminate]. }
    destruct Hab as [rab Hab], Hba as [rba Hba].
    intros exp1 exp2 [->| ->]%elem_of_two [->| ->]%elem_of_two Hd;
      try contradiction.
    + exists df3_ab, rab. split; [by_eval | exact Hab].
    + exists df3_ba, rba. split; [by_eval | exact Hba].
Defined.

Example ex_common_to_all :
  pairwise_comparisons decimal_float no_corr fs_pair ["a.txt"; "b.txt"]
    example_dic f_one None true = Ok {["G1"]}.
Proof. by_eval. Qed.

(** [set.intersection] has nothing to intersect when no two names differ. *)
Example ex_common_to_all_same_file :
  pairwise_comparisons decimal_float no_corr fs_pair ["a.txt"; "a.txt"]
    example_dic f_one None true = Raise TypeError.
Proof. by_eval. Qed.

Lemma jaccard_zero_denominator_raises_witness :
  df3_single ≠ ∅
  ∧ analyse_joined no_corr f_one df3_single = Raise ZeroDivisionError
  ∧ ∃ e, pairwise_comparisons decimal_float no_corr fs_single
           ["a.txt"; "b.txt"] example_dic f_one None true = Raise e.
Proof.
  assert (Hrows : df3_single ≠ ∅) by by_eval.
  destruct (jaccard_zero_denominator_raises decimal_float no_corr fs_single
              example_dic f_one None true ["a.txt"; "b.txt"] "a.txt" "b.txt"
              df3_single) as (Hzero & _ & Hraise).
  - by_eval.
  - by_eval.
  - discriminate.
  - by_eval.
  - vm_compute. reflexivity.
  - split; [exact Hrows|]. split; [exact (Hzero Hrows) | exact Hraise].
Defined.

(** Two files without a shared group: the joined table has no row, and the
    run ends in the [ValueError] of line 619. *)
Example ex_no_shared_group :
  joined_table decimal_float
    {["a.txt" := ["AAAA|1 10 1.5 x x 0.001 0.01"];
      "b.txt" := ["BBBB|4 10 2.0 x x 0.001 0.02"]]}
    example_dic None true "a.txt" "b.txt" = Ok ∅
  ∧ pairwise_comparisons decimal_float no_corr
      {["a.txt" := ["AAAA|1 10 1.5 x x 0.001 0.01"];
        "b.txt" := ["BBBB|4 10 2.0 x x 0.001 0.02"]]}
      ["a.txt"; "b.txt"] example_dic f_one None true = Raise ValueError.
Proof. split; by_eval. Qed.

(** No undefined value is stored and the batch does not go on in the
    scenario of one shared, concordant and significant group: union and
    intersection are both 1, and the run ends in [ZeroDivisionError]. *)
Lemma jaccard_undefined_value_counterexample :
  joined_table decimal_float fs_single example_dic None true "a.txt" "b.txt"
  = Ok df3_single
  ∧ size (index_of sig_mask df3_single)
    = (size (index_of sp1 df3_single ∩ index_of sp2 df3_single)
       + size (index_of sn1 df3_single ∩ index_of sn2 df3_single))%nat
  ∧ ijidx <$> analyse_joined no_corr f_one df3_single = Raise ZeroDivisionError
  ∧ pairwise_comparisons decimal_float no_corr fs_single ["a.txt"; "b.txt"]
      example_dic f_one None true = Raise ZeroDivisionError.
Proof.
  split; [by_eval|]. split; [vm_compute; reflexivity|].
  split; [vm_compute; reflexivity | by_eval].
Qed.

(** ** The sign-only fold change *)

Lemma sign_of_zero : sign_of f_zero = NaN.
Proof. reflexivity. Qed.

Lemma sign_of_positive (q : Qc) : (0 < q)%Qc → sign_of (Fin q) = Fin 1%Qc.
Proof.
  intros Hq. unfold sign_of, fabs, np_div.
  rewrite bool_decide_eq_false_2 by (apply Qcle_not_lt, Qclt_le_weak, Hq).
  destruct (decide (q = 0%Qc)) as [->|Hne]; [by apply Qclt_irrefl in Hq|].
  f_equal. unfold Qcdiv. by apply Qcmult_inv_r.
Qed.

Lemma sign_of_negative (q : Qc) : (q < 0)%Qc → sign_of (Fin q) = Fin (-1)%Qc.
Proof.
  intros Hq. unfold sign_of, fabs, np_div.
  rewrite bool_decide_eq_true_2 by done.
  assert (Hne : q ≠ 0%Qc) by (intros ->; by apply Qclt_irrefl in Hq).
  assert (Hopp : (- q)%Qc ≠ 0%Qc).
  { intros H. apply Hne. rewrite <- (Qcopp_involutive q), H. reflexivity. }
  destruct (decide ((- q)%Qc = 0%Qc)) as [H0|_]; [done|].
  f_equal. by field.
Qed.

Section SignFacts.

Variable pearson : list (float64 * float64) → float64.

(** C10. A joined row with a fold change of exactly 0 in one of the two
    experiments gets the sign value NaN there (numpy's [0.0 / 0.0]); no
    exception is raised for it, and the analysis of the pair returns its
    scores whenever its three Python divisions have divisors other than
    zero. *)
Theorem bitfc_zero_fold_change_is_nan (threshold : float64)
    (df3 : gmap string joined) (g : string) (j : joined) :
  df3 !! g = Some j →
  logfc2 j = f_zero ∨ logfc1st j = f_zero →
  size (index_of sig_mask df3) ≠ 0%nat →
  (size ((index_of nsp1 df3 ∩ index_of nsp2 df3)
         ∪ (index_of nsn1 df3 ∩ index_of nsn2 df3)
         ∪ (index_of sp1 df3 ∩ index_of sp2 df3)
         ∪ (index_of sn1 df3 ∩ index_of sn2 df3))
   + size ((index_of nsp1 df3 ∩ index_of nsn2 df3)
           ∪ (index_of nsn1 df3 ∩ index_of nsp2 df3)
           ∪ (index_of sn1 df3 ∩ index_of sp2 df3)
           ∪ (index_of sp1 df3 ∩ index_of sn2 df3)))%nat ≠ 0%nat →
  size (index_of sig_mask df3)
  ≠ (size (index_of sp1 df3 ∩ index_of sp2 df3)
     + size (index_of sn1 df3 ∩ index_of sn2 df3))%nat →
  ∃ r, analyse_joined pearson threshold df3 = Ok r
       ∧ bitfc r !! g = Some (sign_of (logfc2 j), sign_of (logfc1st j))
       ∧ (sign_of (logfc2 j) = NaN ∨ sign_of (logfc1st j) = NaN).
Proof.
  intros Hrow Hzero Hsig Hbkgd Hne. unfold analyse_joined.
  rewrite sign_columns_nonempty by (by apply (nonempty_of_index_of sig_mask)).
  cbn [mbind result_bind].
  rewrite (py_div_nonzero _ (of_nat (size (index_of sig_mask df3))))
    by (by rewrite of_nat_eq_0).
  simpl. unfold concordancecounts.
  rewrite (py_div_nonzero _ (of_nat _)) by (by rewrite of_nat_eq_0).
  simpl. rewrite py_div_nonzero.
  - simpl. eexists. split; [reflexivity|]. simpl. split.
    + by rewrite lookup_fmap, Hrow.
    + destruct Hzero as [-> | ->]; [left | right]; apply sign_of_zero.
  - intros H. apply Hne, of_nat_inj. rewrite of_nat_add.
    match type of H with
    | ?d = _ => match goal with
                | |- _ = ?rhs => transitivity (d + rhs)%Qc; [ring | rewrite H; ring]
                end
    end.
Qed.

End SignFacts.

Example ex_analyse_ab :
  bitfc <$> analyse_joined no_corr f_one df3_ab
  = Ok {["G1" := (Fin 1%Qc, Fin 1%Qc); "G3" := (NaN, Fin 1%Qc)]}.
Proof. by_eval. Qed.

Lemma bitfc_zero_fold_change_is_nan_witness :
  ∃ r, analyse_joined no_corr f_one df3_ab = Ok r
       ∧ bitfc r !! "G3" = Some (sign_of f_zero, sign_of (Fin (qc 3 2)))
       ∧ (sign_of f_zero = NaN ∨ sign_of (Fin (qc 3 2)) = NaN).
Proof.
  apply (bitfc_zero_fold_change_is_nan no_corr f_one df3_ab "G3"
           (row (qc 1 100) (qc 3 2) (qc 10 1), row (qc 1 2) (qc 0 1) (qc 10 1))).
  - by_eval.
  - left. reflexivity.
  - vm_compute. discriminate.
  - vm_compute. discriminate.
  - vm_compute. discriminate.
Defined.

(** No division error on the pair of [fs_pair]: [G3] has
    the fold change 0 in [b.txt] (its column 2 is [NA]), its sign value is
    NaN, and the comparison returns its scores and the common set. *)
Lemma bitfc_division_error_counterexample :
  logfc2 <$> df3_ab !! "G3" = Some f_zero
  ∧ bitfc <$> analyse_joined no_corr f_one df3_ab
    = Ok {["G1" := (Fin 1%Qc, Fin 1%Qc); "G3" := (NaN, Fin 1%Qc)]}
  ∧ pairwise_comparisons decimal_float no_corr fs_pair ["a.txt"; "b.txt"]
      example_dic f_one None true = Ok {["G1"]}.
Proof. split; [by_eval|]. split; by_eval. Qed.

(** ** The reductions over all experiments *)

Lemma column_lookup (w : wide) (i : nat) (c : degrec) :
  w.2 !! i = Some c → column w (S i) = Ok c.
Proof. intros H. simpl. by rewrite H. Qed.

Lemma reduce_loop (op : bool → bool → bool) (p : degrec → bool) (w : wide)
    (rest : list degrec) (before : list degrec) (acc : bool) :
  w.2 = before ++ rest →
  for_each (λ acc i, c ← column w i; Ok (op (p c) acc)) acc
    (seq (S (length before)) (length rest))
  = Ok (foldl (λ acc c, op (p c) acc) acc rest).
Proof.
  revert before acc. induction rest as [|c rest IH]; intros before acc Hw.
  - reflexivity.
  - simpl length. simpl seq. rewrite for_each_cons.
    rewrite (column_lookup w (length before) c).
    + simpl. specialize (IH (before ++ [c]) (op (p c) acc)).
      rewrite length_app in IH. simpl in IH.
      replace (length before + 1)%nat with (S (length before)) in IH by lia.
      apply IH. by rewrite <- app_assoc.
    + rewrite Hw. by apply list_lookup_middle.
Qed.

(** On a row with the columns of [n] experiments each loop is a fold over
    the columns of the experiments after the first. *)
Lemma reduce_fold (op : bool → bool → bool) (p : degrec → bool) (n : nat)
    (w : wide) :
  length w.2 = (n - 1)%nat →
  reduce op p n w = Ok (foldl (λ acc c, op (p c) acc) (p w.1) w.2).
Proof.
  intros Hlen. unfold reduce. rewrite <- Hlen.
  by apply (reduce_loop op p w w.2 []).
Qed.

Lemma foldl_andb (p : degrec → bool) (l : list degrec) (b : bool) :
  foldl (λ acc c, p c && acc) b l = true ↔ b = true ∧ ∀ c, c ∈ l → p c = true.
Proof.
  revert b. induction l as [|x l IH]; intros b; simpl.
  - split; [intros ->; split; [done|] | by intros [-> _]].
    intros c H. by apply elem_of_nil in H.
  - rewrite IH, andb_true_iff. split.
    + intros [[Hx Hb] Hl]. split; [done|].
      intros c [->|H]%elem_of_cons; [done | by apply Hl].
    + intros [Hb Hl]. split; [split; [|done] |].
      * apply Hl, elem_of_cons. by left.
      * intros c H. apply Hl, elem_of_cons. by right.
Qed.

Lemma foldl_orb (p : degrec → bool) (l : list degrec) (b : bool) :
  foldl (λ acc c, p c || acc) b l = true ↔ b = true ∨ ∃ c, c ∈ l ∧ p c = true.
Proof.
  revert b. induction l as [|x l IH]; intros b; simpl.
  - split; [by left | intros [H|(c & H & _)]; [done | by apply elem_of_nil in H]].
  - rewrite IH, orb_true_iff. split.
    + intros [[Hx|Hb]|(c & Hc & Hp)].
      * right. exists x. split; [apply elem_of_cons; by left | done].
      * by left.
      * right. exists c. split; [apply elem_of_cons; by right | done].
    + intros [Hb|(c & [->|Hc]%elem_of_cons & Hp)].
      * left. by right.
      * left. by left.
      * right. by exists c.
Qed.

Lemma reduce_andb (p : degrec → bool) (n : nat) (w : wide) :
  length w.2 = (n - 1)%nat →
  ∃ b, reduce andb p n w = Ok b
       ∧ (b = true ↔ ∀ c, c ∈ cells w → p c = true).
Proof.
  intros Hlen. eexists. split; [by apply reduce_fold|].
  rewrite foldl_andb. unfold cells. split.
  - intros [H1 H2] c [->|H]%elem_of_cons; [done | by apply H2].
  - intros H. split; [apply H, elem_of_cons; by left|].
    intros c Hc. apply H, elem_of_cons. by right.
Qed.

Lemma reduce_orb (p : degrec → bool) (n : nat) (w : wide) :
  length w.2 = (n - 1)%nat →
  ∃ b, reduce orb p n w = Ok b
       ∧ (b = true ↔ ∃ c, c ∈ cells w ∧ p c = true).
Proof.
  intros Hlen. eexists. split; [by apply reduce_fold|].
  rewrite foldl_orb. unfold cells. split.
  - intros [H|(c & Hc & Hp)].
    + exists w.1. split; [apply elem_of_cons; by left | done].
    + exists c. split; [apply elem_of_cons; by right | done].
  - intros (c & [->|Hc]%elem_of_cons & Hp); [by left | right; by exists c].
Qed.

Lemma fle_not_null (x y : float64) : fle x y = true → isnull x = false.
Proof. by destruct x. Qed.

Lemma flt_not_null (x y : float64) : flt x y = true → isnull x = false.
Proof. by destruct x. Qed.

Lemma fgt_not_null (x y : float64) : fgt x y = true → isnull x = false.
Proof. unfold fgt. by destruct x, y. Qed.

Lemma fge_not_null (x y : float64) : fge x y = true → isnull x = false.
Proof. unfold fge. by destruct x, y. Qed.

Lemma is_big_not_null (threshold : float64) (c : degrec) :
  is_big threshold c = true → isnull (logfc c) = false.
Proof.
  unfold is_big. intros [H|H]%orb_true_iff;
    [by apply fge_not_null in H | by apply fle_not_null in H].
Qed.

Lemma reduce_all_or_null (col : degrec → float64) (p : degrec → bool) (n : nat)
    (w : wide) :
  length w.2 = (n - 1)%nat →
  ∃ b, reduce andb (λ c, p c || isnull (col c)) n w = Ok b
       ∧ (b = true ↔ all_or_null col p w).
Proof.
  intros Hlen. destruct (reduce_andb (λ c, p c || isnull (col c)) n w Hlen)
    as (b & Hb & Hiff).
  exists b. split; [done|]. rewrite Hiff. unfold all_or_null.
  split; intros H c Hc; specialize (H c Hc).
  - apply orb_true_iff in H. tauto.
  - apply orb_true_iff. tauto.
Qed.

Lemma reduce_some_not_null (col : degrec → float64) (p : degrec → bool)
    (n : nat) (w : wide) :
  (∀ c, p c = true → isnull (col c) = false) →
  length w.2 = (n - 1)%nat →
  ∃ b, reduce orb p n w = Ok b ∧ (b = true ↔ some_not_null col p w).
Proof.
  intros Hp Hlen. destruct (reduce_orb p n w Hlen) as (b & Hb & Hiff).
  exists b. split; [done|]. rewrite Hiff. unfold some_not_null.
  split; intros (c & Hc & H).
  - exists c. split; [done|]. split; [by apply Hp | done].
  - exists c. tauto.
Qed.

(** C4. On a row of [dfall] with the columns of all [n] experiments, each
    all-experiments reduction (significant, negative, positive, big change)
    holds exactly when every cell is null or satisfies the predicate, and
    each at-least-one reduction holds exactly when some cell that is not
    null satisfies it: a null never contradicts the first kind and never
    counts for the second. *)
Theorem null_handling_in_reductions (threshold : float64) (n : nat) (w : wide) :
  length w.2 = (n - 1)%nat →
  (∃ b, sig n w = Ok b ∧ (b = true ↔ all_or_null padj is_sig w))
  ∧ (∃ b, neg n w = Ok b ∧ (b = true ↔ all_or_null logfc is_neg w))
  ∧ (∃ b, pos n w = Ok b ∧ (b = true ↔ all_or_null logfc is_pos w))
  ∧ (∃ b, bigchange threshold n w = Ok b
          ∧ (b = true ↔ all_or_null logfc (is_big threshold) w))
  ∧ (∃ b, sig_alo n w = Ok b ∧ (b = true ↔ some_not_null padj is_sig w))
  ∧ (∃ b, neg_alo n w = Ok b ∧ (b = true ↔ some_not_null logfc is_neg w))
  ∧ (∃ b, pos_alo n w = Ok b ∧ (b = true ↔ some_not_null logfc is_pos w))
  ∧ (∃ b, bigchange_alo threshold n w = Ok b
          ∧ (b = true ↔ some_not_null logfc (is_big threshold) w)).
Proof.
  intros Hlen. repeat split.
  - by apply (reduce_all_or_null padj is_sig).
  - by apply (reduce_all_or_null logfc is_neg).
  - by apply (reduce_all_or_null logfc is_pos).
  - by apply (reduce_all_or_null logfc (is_big threshold)).
  - apply (reduce_some_not_null padj is_sig); [|done].
    intros c. apply fle_not_null.
  - apply (reduce_some_not_null logfc is_neg); [|done].
    intros c. apply flt_not_null.
  - apply (reduce_some_not_null logfc is_pos); [|done].
    intros c. apply fgt_not_null.
  - apply (reduce_some_not_null logfc (is_big threshold)); [|done].
    intros c. apply is_big_not_null.
Qed.

Lemma null_handling_in_reductions_witness :
  (∃ b, sig 3 w_missing = Ok b ∧ (b = true ↔ all_or_null padj is_sig w_missing))
  ∧ sig 3 w_missing = Ok true
  ∧ pos 3 w_missing = Ok true
  ∧ neg 3 w_missing = Ok false
  ∧ neg_alo 3 w_missing = Ok false.
Proof.
  split; [|by repeat split].
  exact (proj1 (null_handling_in_reductions f_one 3 w_missing eq_refl)).
Defined.

(** A row of nulls alone: every all-experiments reduction holds, none of the
    at-least-one reductions does. *)
Example reductions_of_nulls :
  sig 2 (nan_row, [nan_row]) = Ok true
  ∧ pos 2 (nan_row, [nan_row]) = Ok true
  ∧ neg 2 (nan_row, [nan_row]) = Ok true
  ∧ bigchange f_one 2 (nan_row, [nan_row]) = Ok true
  ∧ sig_alo 2 (nan_row, [nan_row]) = Ok false
  ∧ pos_alo 2 (nan_row, [nan_row]) = Ok false
  ∧ neg_alo 2 (nan_row, [nan_row]) = Ok false
  ∧ bigchange_alo f_one 2 (nan_row, [nan_row]) = Ok false.
Proof. by repeat split. Qed.

(** ** The enrichment report *)

Section EnrichmentFacts.

Variable p_to_q : list float64 → float64 → option float64.

Lemma report_square_reported (fdr : float64 → option float64)
    (s : Fisher_square) :
  reported fdr s →
  report_square fdr s
  = [square_line s;
     match fdr (p s) with
     | Some q => fdr_line q
     | None => fdr_not_determined_line (p s)
     end].
Proof.
  intros [Hn Hp]. unfold report_square.
  assert (Hlt : Nat.ltb 1 (TwG s) = true) by (apply Nat.ltb_lt; lia).
  destruct (fdr (p s)) as [q|]; by rewrite Hp, Hlt.
Qed.

Lemma report_square_not_reported (fdr : float64 → option float64)
    (s : Fisher_square) :
  ¬ reported fdr s → report_square fdr s = [].
Proof.
  intros Hnot. unfold report_square, reported in *.
  destruct (fdr (p s)) as [q|];
    (match goal with |- context [fle ?x f_0_05] => destruct (fle x f_0_05) end;
     [|done]);
    (destruct (Nat.ltb 1 (TwG s)) eqn:Hlt; [|done]);
    exfalso; apply Hnot; apply Nat.ltb_lt in Hlt; (split; [lia | done]).
Qed.

Lemma elem_of_report_square (fdr : float64 → option float64)
    (s s' : Fisher_square) :
  square_line s ∈ report_square fdr s' ↔ s = s' ∧ reported fdr s'.
Proof.
  destruct (decide (reported fdr s')) as [Hrep|Hnot].
  - rewrite (report_square_reported _ _ Hrep). split.
    + intros [[= ->]|Hin]%elem_of_cons; [done|].
      apply elem_of_cons in Hin as [Hin|Hin]; [|by apply elem_of_nil in Hin].
      by destruct (fdr (p s')).
    + intros [-> _]. apply elem_of_cons. by left.
  - rewrite (report_square_not_reported _ _ Hnot). split.
    + by intros Hin%elem_of_nil.
    + by intros [_ Hrep].
Qed.

(** C7. A domain is printed exactly when at least 2 target genes carry it
    and either its corrected value is at most 0.05 or it has no corrected
    value and its raw p-value is at most 0.05; it is followed by its FDR, or
    by the note that the FDR was not determined with the raw p-value.
    Nothing is printed for any other domain: not for one carried by a single
    target gene, and not for one without a corrected value whose raw p-value
    is above 0.05. *)
Theorem enrichment_report_rule (fs : list Fisher_square) (s : Fisher_square) :
  (square_line s ∈ enrichment_report p_to_q fs
   ↔ s ∈ fs ∧ reported (p_to_q (p <$> fs)) s)
  ∧ report_square (p_to_q (p <$> fs)) s
    = if decide (reported (p_to_q (p <$> fs)) s)
      then [square_line s;
            match p_to_q (p <$> fs) (p s) with
            | Some q => fdr_line q
            | None => fdr_not_determined_line (p s)
            end]
      else [].
Proof.
  split.
  - unfold enrichment_report. rewrite list_elem_of_In, in_concat. split.
    + intros (lines & Hlines & Hin).
      apply list_elem_of_In, list_elem_of_fmap in Hlines as (s' & -> & Hs').
      apply list_elem_of_In, elem_of_report_square in Hin as [-> Hrep]. done.
    + intros [Hs Hrep]. exists (report_square (p_to_q (p <$> fs)) s). split.
      * apply list_elem_of_In, list_elem_of_fmap. by exists s.
      * apply list_elem_of_In, elem_of_report_square. done.
  - destruct (decide (reported (p_to_q (p <$> fs)) s)) as [Hrep|Hnot].
    + by apply report_square_reported.
    + by apply report_square_not_reported.
Qed.

End EnrichmentFacts.

(** Neither domain appears in the report, flagged or not. *)
Lemma enrichment_silent_drop_counterexample :
  TwG one_gene_square = 1%nat
  ∧ example_p_to_q [p one_gene_square; p no_fdr_square] (p one_gene_square)
    = Some (Fin (qc 1 100))
  ∧ example_p_to_q [p one_gene_square; p no_fdr_square] (p no_fdr_square)
    = None
  ∧ enrichment_report example_p_to_q [one_gene_square; no_fdr_square] = [].
Proof. repeat split; vm_compute; reflexivity. Qed.

(** ** The start of the program *)

Lemma lost_files_nil (fs : gmap string (list string)) (l : list string) :
  Forall (λ f, isfile fs f = true) l →
  List.filter (λ f, negb (isfile fs f)) l = [].
Proof.
  induction 1 as [|f l Hf _ IH]; simpl; [done|]. by rewrite Hf.
Qed.

Lemma lost_files_cons (fs : gmap string (list string)) (l : list string) :
  Exists (λ f, isfile fs f = false) l →
  List.filter (λ f, negb (isfile fs f)) l ≠ [].
Proof.
  induction 1 as [f l Hf | f l _ IH]; simpl.
  - by rewrite Hf.
  - by destruct (negb (isfile fs f)).
Qed.

(** C8. A run with a missing experiment file ends with exit status 1 after
    the lines on the missing files alone: [fetch_orthologs] is not called.
    A run whose experiment files all exist but are fewer than 2 calls
    [fetch_orthologs] first; it ends with the exception of that call, or,
    once the index is built, with the line on insufficient files and exit
    status 1. *)
Theorem main_start_fatal_errors (fs : gmap string (list string))
    (args : arguments) :
  (Exists (λ f, isfile fs f = false) (experiments args) →
   ∃ lost, lost ≠ []
           ∧ main_start fs args = (could_not_be_found <$> lost, sys_exit 1))
  ∧ (Forall (λ f, isfile fs f = true) (experiments args) →
     (length (experiments args) < 2)%nat →
     ∃ before necessary exclusions,
       (call_fetch_orthologs (orthologs args) ∉ before)
       ∧ main_start fs args
         = match fetch_orthologs fs (orthologs args) necessary exclusions
                   (manage_duplicates args) with
           | Ok t =>
               (before ++ [call_fetch_orthologs (orthologs args);
                           genes_were_indexed (size (ortho_dic t))
                             (size (ortho_idx t));
                           insufficient_files],
                sys_exit 1)
           | Raise e =>
               (before ++ [call_fetch_orthologs (orthologs args)], uncaught e)
           end).
Proof.
  split.
  - intros Hlost%lost_files_cons.
    exists (List.filter (λ f, negb (isfile fs f)) (experiments args)).
    split; [done|]. unfold main_start.
    by rewrite bool_decide_eq_false_2.
  - intros Hall%lost_files_nil Hfew.
    exists ((if truthy_str (mustcontain args)
             then [finding_orthologs_containing
                     (split_on "," (default "" (mustcontain args)))]
             else [])
            ++ (if truthy_str (exclude args)
                then [not_worrying_about
                        (split_on "," (default "" (exclude args)))]
                else [])),
      (if truthy_str (mustcontain args)
       then Some (split_on "," (default "" (mustcontain args))) else None),
      (if truthy_str (exclude args)
       then Some (split_on "," (default "" (exclude args))) else None).
    split.
    + destruct (truthy_str (mustcontain args)), (truthy_str (exclude args));
        simpl; intros H; repeat (apply elem_of_cons in H as [H|H]; [done|]);
        by apply elem_of_nil in H.
    + unfold main_start. rewrite Hall. simpl.
      destruct (fetch_orthologs _ _ _ _ _) as [t|e].
      * rewrite (proj2 (Nat.ltb_ge _ _)) by lia.
        destruct (truthy_str (mustcontain args)), (truthy_str (exclude args));
          reflexivity.
      * destruct (truthy_str (mustcontain args)), (truthy_str (exclude args));
          reflexivity.
Qed.

Lemma main_start_fatal_errors_witness :
  (∃ lost, lost ≠ []
           ∧ main_start fs_run args_missing_file
             = (could_not_be_found <$> lost, sys_exit 1))
  ∧ main_start fs_run args_missing_file
    = ([could_not_be_found "c.txt"], sys_exit 1)
  ∧ ∃ before necessary exclusions,
      (call_fetch_orthologs "o.txt" ∉ before)
      ∧ main_start fs_run args_one_file
        = match fetch_orthologs fs_run "o.txt" necessary exclusions false with
          | Ok t =>
              (before ++ [call_fetch_orthologs "o.txt";
                          genes_were_indexed (size (ortho_dic t))
                            (size (ortho_idx t));
                          insufficient_files],
               sys_exit 1)
          | Raise e => (before ++ [call_fetch_orthologs "o.txt"], uncaught e)
          end.
Proof.
  split; [|split; [reflexivity|]].
  - apply (proj1 (main_start_fatal_errors fs_run args_missing_file)).
    apply Exists_cons_tl, Exists_cons_hd. reflexivity.
  - apply (proj2 (main_start_fatal_errors fs_run args_one_file)).
    + repeat constructor.
    + simpl. lia.
Defined.

(** Without [-x] the list to ignore is [None], and the run ends in the
    exception of [fetch_orthologs]. *)
Example main_start_without_exclude :
  main_start fs_run
    {| experiments := ["a.txt"]; orthologs := "o.txt"; mustcontain := None;
       exclude := None; manage_duplicates := false |}
  = ([call_fetch_orthologs "o.txt"], uncaught TypeError).
Proof. vm_compute. reflexivity. Qed.

(** With a single experiment file the orthology file is read and the index
    of its 3 groups built before the run is refused. *)
Lemma main_start_one_file_counterexample :
  length (experiments args_one_file) = 1%nat
  ∧ main_start fs_run args_one_file
    = ([not_worrying_about ["XXXX"]; call_fetch_orthologs "o.txt";
        genes_were_indexed 6 3; insufficient_files],
       sys_exit 1).
Proof. split; vm_compute; reflexivity. Qed.

(** * Further properties *)

(** ** The index: what both dictionaries hold *)

Lemma update_all_lookup (grp : string) (cols : list string)
    (dic : gmap string string) (g : string) :
  update_all grp cols dic !! g = if decide (g ∈ cols) then Some grp else dic !! g.
Proof.
  unfold update_all. revert dic. induction cols as [|c cols IH]; intros dic; simpl.
  - destruct (decide (g ∈ [])) as [H|_]; [by apply elem_of_nil in H | done].
  - rewrite IH. destruct (decide (g ∈ cols)) as [Hin|Hnin].
    + rewrite decide_True; [done | apply elem_of_cons; by right].
    + destruct (decide (g = c)) as [->|Hne].
      * rewrite lookup_insert_eq. rewrite decide_True; [done | apply elem_of_cons; by left].
      * rewrite lookup_insert_ne by done.
        rewrite decide_False; [done|]. intros [?|?]%elem_of_cons; done.
Qed.

(** What one line does to the two dictionaries, whatever the options. *)
Lemma fetch_line_Ok (mc ex : option (list string)) (dup : bool)
    (t t' : ortho_tables) (line : string) :
  fetch_line mc ex dup t line = Ok t' →
  match split line with
  | [] => t' = t
  | grp :: members =>
      ortho_idx t' = <[grp := members]> (ortho_idx t)
      ∧ (ortho_dic t' = ortho_dic t
         ∨ ortho_dic t' = update_all grp (grp :: members) (ortho_dic t))
  end.
Proof.
  unfold fetch_line. destruct (split line) as [|grp members].
  - by intros [= <-].
  - intros (counts & _ & H)%bind_Ok.
    destruct (all_at_most_once counts && all_present _ counts);
      injection H as <-; simpl; auto.
Qed.

Lemma fetch_loop_invariant (mc ex : option (list string)) (dup : bool)
    (handle : list string) (t t' : ortho_tables) :
  for_each (fetch_line mc ex dup) t handle = Ok t' →
  (∀ g grp, ortho_dic t !! g = Some grp → grp ∈ dom (ortho_idx t)) →
  ∀ g grp, ortho_dic t' !! g = Some grp → grp ∈ dom (ortho_idx t').
Proof.
  revert t. induction handle as [|line handle IH]; intros t.
  - by intros [= <-].
  - rewrite for_each_cons. intros (t1 & Hline & Hrest)%bind_Ok Hinv.
    apply (IH _ Hrest). apply fetch_line_Ok in Hline.
    destruct (split line) as [|grp0 members]; [by subst|].
    destruct Hline as [Hidx Hdic]. intros g grp.
    rewrite Hidx, dom_insert, elem_of_union, elem_of_singleton.
    destruct Hdic as [-> | ->].
    + intros Hg%Hinv. by right.
    + rewrite update_all_lookup.
      destruct (decide (g ∈ grp0 :: members)); [intros [= <-]; by left|].
      intros Hg%Hinv. by right.
Qed.

Lemma fetch_loop_dic (mc ex : option (list string)) (dup : bool)
    (handle : list string) (t t' : ortho_tables) (g grp : string) :
  for_each (fetch_line mc ex dup) t handle = Ok t' →
  ortho_dic t' !! g = Some grp →
  ortho_dic t !! g = Some grp
  ∨ ∃ members, line_of handle grp members ∧ g ∈ grp :: members.
Proof.
  revert t. induction handle as [|line handle IH]; intros t.
  - intros [= <-]. by left.
  - rewrite for_each_cons. intros (t1 & Hline & Hrest)%bind_Ok Hg.
    destruct (IH _ Hrest Hg) as [H1|(members & (l & Hl & Hsplit) & Hin)].
    + apply fetch_line_Ok in Hline.
      destruct (split line) as [|grp0 members] eqn:Es; [subst; by left|].
      destruct Hline as [_ [Hdic|Hdic]]; rewrite Hdic in H1; [by left|].
      rewrite update_all_lookup in H1.
      destruct (decide (g ∈ grp0 :: members)) as [Hin|_]; [|by left].
      injection H1 as ->. right. exists members. split; [|done].
      exists line. split; [apply elem_of_cons; by left | done].
    + right. exists members. split; [|done].
      exists l. split; [apply elem_of_cons; by right | done].
Qed.

(** X1. Every gene of [ortho_dic] is a column of a line of the file whose
    first column is the group it is mapped to, and [ortho_idx] knows that
    group. *)
Theorem ortho_dic_entries_come_from_lines (fs : gmap string (list string))
    (orthofile : string) (handle : list string)
    (mc ex : option (list string)) (dup : bool)
    (t : ortho_tables) (g grp : string) :
  fs !! orthofile = Some handle →
  fetch_orthologs fs orthofile mc ex dup = Ok t →
  ortho_dic t !! g = Some grp →
  grp ∈ dom (ortho_idx t)
  ∧ ∃ members, line_of handle grp members ∧ g ∈ grp :: members.
Proof.
  intros Hfile. unfold fetch_orthologs, open_file. rewrite Hfile.
  cbn [mbind result_bind]. intros Hloop Hg. split.
  - apply (fetch_loop_invariant _ _ _ _ _ _ Hloop) with g; [|done].
    intros g' grp' H. simpl in H. by rewrite lookup_empty in H.
  - destruct (fetch_loop_dic _ _ _ _ _ _ _ _ Hloop Hg) as [H|H]; [|done].
    simpl in H. by rewrite lookup_empty in H.
Qed.

(** A group that is in [ortho_idx] stays in it. *)
Lemma fetch_loop_keeps_groups (mc ex : option (list string)) (dup : bool)
    (handle : list string) (t t' : ortho_tables) (grp : string) :
  for_each (fetch_line mc ex dup) t handle = Ok t' →
  ortho_idx t !! grp ≠ None → ortho_idx t' !! grp ≠ None.
Proof.
  revert t. induction handle as [|line handle IH]; intros t.
  - by intros [= <-].
  - rewrite for_each_cons. intros (t1 & Hline & Hrest)%bind_Ok Ht.
    apply (IH _ Hrest). apply fetch_line_Ok in Hline.
    destruct (split line) as [|g0 m0]; [by subst|].
    destruct Hline as [-> _]. destruct (decide (g0 = grp)) as [->|Hne].
    + by rewrite lookup_insert_eq.
    + by rewrite lookup_insert_ne.
Qed.

Lemma fetch_loop_idx (mc ex : option (list string)) (dup : bool)
    (handle : list string) (t t' : ortho_tables) :
  for_each (fetch_line mc ex dup) t handle = Ok t' →
  (∀ grp members, line_of handle grp members → ortho_idx t' !! grp ≠ None)
  ∧ ∀ grp members,
      ortho_idx t' !! grp = Some members →
      ortho_idx t !! grp = Some members ∨ line_of handle grp members.
Proof.
  revert t. induction handle as [|line handle IH]; intros t.
  - intros [= <-]. split; [|auto].
    intros grp members (l & Hl & _). by apply elem_of_nil in Hl.
  - rewrite for_each_cons. intros (t1 & Hline & Hrest)%bind_Ok.
    destruct (IH _ Hrest) as [Hdom Hfrom]. apply fetch_line_Ok in Hline. split.
    + intros grp members (l & [->|Hl]%elem_of_cons & Hsplit).
      * rewrite Hsplit in Hline. destruct Hline as [Hidx _].
        apply (fetch_loop_keeps_groups _ _ _ _ _ _ _ Hrest).
        by rewrite Hidx, lookup_insert_eq.
      * apply (Hdom grp members). by exists l.
    + intros grp members [H|(l & Hl & Hsplit)]%Hfrom.
      * destruct (split line) as [|g0 m0] eqn:Es; [subst; by left|].
        destruct Hline as [Hidx _]. rewrite Hidx in H.
        destruct (decide (g0 = grp)) as [->|Hne].
        -- rewrite lookup_insert_eq in H. injection H as ->. right.
           exists line. split; [apply elem_of_cons; by left | done].
        -- rewrite lookup_insert_ne in H by done. by left.
      * right. exists l. split; [apply elem_of_cons; by right | done].
Qed.

Lemma last_line_of_nil (grp : string) (members : list string) :
  ¬ last_line_of [] grp members.
Proof. intros (before & line & after & H & _). by destruct before. Qed.

Lemma last_line_of_cons (line : string) (handle : list string) (grp : string)
    (members : list string) :
  last_line_of (line :: handle) grp members
  ↔ last_line_of handle grp members
    ∨ (split line = grp :: members ∧ ∀ l m, l ∈ handle → split l ≠ grp :: m).
Proof.
  split.
  - intros ([|b before] & l0 & after & Heq & Hsplit & Hlast); simpl in Heq;
      injection Heq as -> ->.
    + by right.
    + left. by exists before, l0, after.
  - intros [(before & l0 & after & -> & Hsplit & Hlast) | [Hsplit Hlast]].
    + by exists (line :: before), l0, after.
    + by exists [], line, handle.
Qed.

Lemma fetch_loop_idx_last (mc ex : option (list string)) (dup : bool)
    (handle : list string) (t t' : ortho_tables) (grp : string)
    (members : list string) :
  for_each (fetch_line mc ex dup) t handle = Ok t' →
  ortho_idx t' !! grp = Some members
  ↔ last_line_of handle grp members
    ∨ (ortho_idx t !! grp = Some members
       ∧ ∀ l m, l ∈ handle → split l ≠ grp :: m).
Proof.
  revert t. induction handle as [|line handle IH]; intros t.
  - intros [= <-]. split.
    + intros H. right. split; [done|]. intros l m Hl. by apply elem_of_nil in Hl.
    + intros [H%last_line_of_nil | [H _]]; done.
  - rewrite for_each_cons. intros (t1 & Hline & Hrest)%bind_Ok.
    rewrite (IH _ Hrest), last_line_of_cons. apply fetch_line_Ok in Hline.
    assert (Hcons : (∀ l m, l ∈ line :: handle → split l ≠ grp :: m)
                    ↔ (∀ m, split line ≠ grp :: m)
                      ∧ ∀ l m, l ∈ handle → split l ≠ grp :: m).
    { split.
      - intros H. split.
        + intros m. apply H, elem_of_cons. by left.
        + intros l m Hl. apply H, elem_of_cons. by right.
      - intros [Hhd Htl] l m [->|Hl]%elem_of_cons; [apply Hhd | by apply Htl]. }
    rewrite Hcons. destruct (split line) as [|g0 m0] eqn:Es.
    + subst t1. split.
      * intros [H | [H Hno]]; [left; by left | right]. by repeat split.
      * intros [[H | [H _]] | [H [_ Hno]]]; [by left | done | by right].
    + destruct Hline as [Hidx _]. rewrite Hidx.
      destruct (decide (g0 = grp)) as [->|Hne].
      * rewrite lookup_insert_eq. split.
        -- intros [H | [[= ->] Hno]]; [left; by left | left; by right].
        -- intros [[H | [[= ->] Hno]] | [_ [Hhd _]]];
             [by left | by right | by destruct (Hhd m0)].
      * rewrite lookup_insert_ne by done. split.
        -- intros [H | [H Hno]]; [left; by left | right].
           split; [done|]. split; [|done]. intros m [= ? ?]. done.
        -- intros [[H | [[= ? ?] _]] | [H [_ Hno]]]; [by left | done | by right].
Qed.

(** X2. [ortho_idx] reflects the file alone: its keys are the first columns
    of the lines that have a column, each key holds the other columns of
    the last line that starts with it, and the three options play no part:
    every call that returns on the same file returns the same [ortho_idx]. *)
Theorem ortho_idx_reflects_file (fs : gmap string (list string))
    (orthofile : string) (handle : list string)
    (mc ex : option (list string)) (dup : bool) (t : ortho_tables) :
  fs !! orthofile = Some handle →
  fetch_orthologs fs orthofile mc ex dup = Ok t →
  (∀ grp, grp ∈ dom (ortho_idx t) ↔ ∃ members, line_of handle grp members)
  ∧ (∀ grp members,
       ortho_idx t !! grp = Some members ↔ last_line_of handle grp members)
  ∧ ∀ mc' ex' dup' t',
      fetch_orthologs fs orthofile mc' ex' dup' = Ok t' →
      ortho_idx t' = ortho_idx t.
Proof.
  intros Hfile. unfold fetch_orthologs, open_file. rewrite Hfile.
  cbn [mbind result_bind]. intros Hloop.
  assert (Hlast : ∀ mc' ex' dup' t',
            for_each (fetch_line mc' ex' dup') {| ortho_dic := ∅; ortho_idx := ∅ |}
              handle = Ok t' →
            ∀ grp members,
              ortho_idx t' !! grp = Some members
              ↔ last_line_of handle grp members).
  { intros mc' ex' dup' t' Hloop' grp members.
    rewrite (fetch_loop_idx_last _ _ _ _ _ _ grp members Hloop'). simpl.
    rewrite lookup_empty. split; [intros [H | [H _]]; done | by left]. }
  split; [|split].
  - destruct (fetch_loop_idx _ _ _ _ _ _ Hloop) as [Hdom Hfrom].
    intros grp. rewrite elem_of_dom. split.
    + intros [members Hm]. exists members.
      destruct (Hfrom _ _ Hm) as [H|H]; [|done]. simpl in H.
      by rewrite lookup_empty in H.
    + intros [members H%Hdom]. by destruct (ortho_idx t !! grp).
  - by apply (Hlast mc ex dup).
  - intros mc' ex' dup' t' Hloop'. apply map_eq. intros grp. apply option_eq.
    intros members. by rewrite (Hlast _ _ _ _ Hloop'), (Hlast _ _ _ _ Hloop).
Qed.

(** ** The index: which lines are taken *)

Lemma count_occ_filter (P : string → Prop) `{∀ x, Decision (P x)}
    (l : list string) (x : string) :
  count_occ string_dec (filter P l) x
  = if decide (P x) then count_occ string_dec l x else 0%nat.
Proof.
  induction l as [|y l IH]; simpl.
  - by destruct (decide (P x)).
  - rewrite filter_cons. destruct (decide (P y)) as [Hy|Hy]; simpl;
      destruct (string_dec y x) as [->|Hne]; rewrite IH;
      destruct (decide (P x)); try done; lia.
Qed.

Lemma count_species_Some (ex : list string) (c : gmap string nat) (g : string) :
  count_species false (Some ex) c g
  = Ok (<[species g := if decide (species g ∈ ex) then 1%nat
                       else S (default 0%nat (c !! species g))]> c).
Proof.
  unfold count_species, species. simpl.
  destruct (decide (hd "" (split_on "|" g) ∈ ex)) as [Hex|Hex].
  - by rewrite bool_decide_eq_true_2.
  - by rewrite bool_decide_eq_false_2.
Qed.

Lemma count_occ_notin (l : list string) (x : string) :
  x ∉ l → count_occ string_dec l x = 0%nat.
Proof. rewrite list_elem_of_In. apply count_occ_not_In. Qed.

(** The counter after [for g in cols], with a list to ignore. *)
Lemma count_species_loop (ex : list string) (cols : list string)
    (c0 : gmap string nat) :
  ∃ c, for_each (count_species false (Some ex)) c0 cols = Ok c
       ∧ ∀ s, c !! s
              = if decide (s ∈ species <$> cols)
                then Some (if decide (s ∈ ex) then 1%nat
                           else (default 0%nat (c0 !! s)
                                 + count_occ string_dec (species <$> cols) s)%nat)
                else c0 !! s.
Proof.
  revert c0. induction cols as [|g cols IH]; intros c0.
  - exists c0. split; [done|]. intros s.
    destruct (decide (s ∈ species <$> [])) as [Hin|_]; [|done].
    by apply elem_of_nil in Hin.
  - rewrite for_each_cons, count_species_Some. cbn [mbind result_bind].
    destruct (IH (<[species g := if decide (species g ∈ ex) then 1%nat
                                 else S (default 0%nat (c0 !! species g))]> c0))
      as (c & Hc & Hlook).
    exists c. split; [done|]. intros s. rewrite Hlook.
    change (species <$> g :: cols) with (species g :: (species <$> cols)).
    cbn [count_occ].
    destruct (decide (s ∈ species g :: (species <$> cols))) as [H1|H1];
      rewrite elem_of_cons in H1;
      destruct (decide (s ∈ species <$> cols)) as [H2|H2];
      destruct (string_dec (species g) s) as [<-|Hne];
      rewrite ?lookup_insert_eq, ?lookup_insert_ne by done;
      try (exfalso; intuition congruence);
      destruct (decide (_ ∈ ex)); simpl; rewrite ?count_occ_notin by done;
      try done; f_equal; lia.
Qed.

Lemma all_at_most_once_counts (ex cols : list string) (c : gmap string nat) :
  (∀ s, c !! s
        = if decide (s ∈ species <$> cols)
          then Some (if decide (s ∈ ex) then 1%nat
                     else (0 + count_occ string_dec (species <$> cols) s)%nat)
          else None) →
  all_at_most_once c = true
  ↔ NoDup (filter (λ s, s ∉ ex) (species <$> cols)).
Proof.
  intros Hlook. unfold all_at_most_once.
  rewrite bool_decide_eq_true, NoDup_ListNoDup, (NoDup_count_occ string_dec).
  split.
  - intros Hall s. rewrite count_occ_filter.
    destruct (decide (s ∉ ex)) as [Hex|_]; [|lia].
    destruct (decide (s ∈ species <$> cols)) as [Hin|Hnin].
    + specialize (Hall s). rewrite Hlook, decide_True, decide_False in Hall by done.
      specialize (Hall _ eq_refl). simpl in Hall. lia.
    + rewrite (proj1 (count_occ_not_In string_dec _ _)); [lia|].
      by rewrite <- list_elem_of_In.
  - intros Hnd s n. rewrite Hlook.
    destruct (decide (s ∈ species <$> cols)) as [Hin|_]; [|done].
    destruct (decide (s ∈ ex)) as [Hex|Hex]; intros [= <-]; [lia|].
    specialize (Hnd s). rewrite count_occ_filter, decide_True in Hnd by done.
    simpl. lia.
Qed.

Lemma all_present_counts (cols whitelist : list string) (c : gmap string nat) :
  (∀ s, is_Some (c !! s) ↔ s ∈ species <$> cols) →
  all_present whitelist c = true
  ↔ Forall (λ wl, wl ∈ species <$> cols) whitelist.
Proof.
  intros Hdom. unfold all_present. rewrite forallb_forall, list.Forall_forall.
  split; intros Hall wl Hwl.
  - apply list_elem_of_In in Hwl. pose proof (Hall wl Hwl) as Hin.
    by apply bool_decide_eq_true, elem_of_dom, Hdom in Hin.
  - apply list_elem_of_In in Hwl. pose proof (Hall wl Hwl) as Hin.
    by apply bool_decide_eq_true, elem_of_dom, Hdom.
Qed.

(** X3. With a list to ignore and [duplicates=False], a line is recorded in
    [ortho_idx] in any case, and its columns are mapped to its group in
    [ortho_dic] exactly when no species outside the list occurs twice among
    them and every species of [mustcontain] occurs; no exception is
    raised. *)
Theorem fetch_line_inclusion (mc : option (list string)) (ex : list string)
    (t : ortho_tables) (line grp : string) (members : list string) :
  split line = grp :: members →
  ∃ t', fetch_line mc (Some ex) false t line = Ok t'
        ∧ ortho_idx t' = <[grp := members]> (ortho_idx t)
        ∧ (included mc ex (grp :: members) →
           ortho_dic t' = update_all grp (grp :: members) (ortho_dic t))
        ∧ (¬ included mc ex (grp :: members) → ortho_dic t' = ortho_dic t).
Proof.
  intros Hsplit. unfold fetch_line. rewrite Hsplit.
  destruct (count_species_loop ex (grp :: members) ∅) as (c & -> & Hlook).
  cbn [mbind result_bind].
  assert (Hlook' : ∀ s, c !! s
            = if decide (s ∈ species <$> grp :: members)
              then Some (if decide (s ∈ ex) then 1%nat
                         else (0 + count_occ string_dec
                                     (species <$> grp :: members) s)%nat)
              else None).
  { intros s. rewrite Hlook, lookup_empty. done. }
  pose proof (all_at_most_once_counts ex (grp :: members) c Hlook') as Honce.
  assert (Hdom : ∀ s, is_Some (c !! s) ↔ s ∈ species <$> grp :: members).
  { intros s. rewrite Hlook'.
    destruct (decide (s ∈ species <$> grp :: members)) as [Hin|Hnin].
    - split; [done | by eexists].
    - split; [by intros [? ?] | done]. }
  set (whitelist := if truthy_list mc then default [] mc else elements (dom c)).
  assert (Hpresent : all_present whitelist c = true
                      ↔ (truthy_list mc = true →
                         Forall (λ wl, wl ∈ species <$> grp :: members)
                           (default [] mc))).
  { unfold whitelist. destruct (truthy_list mc).
    - rewrite (all_present_counts (grp :: members)) by done. tauto.
    - split; [done|]. intros _. unfold all_present.
      apply forallb_forall. intros wl Hwl%list_elem_of_In%elem_of_elements.
      by apply bool_decide_eq_true. }
  destruct (all_at_most_once c && all_present whitelist c) eqn:Hboth.
  - eexists. split; [done|]. simpl. split; [done|]. split; [done|].
    intros Hnot. exfalso. apply Hnot.
    apply andb_true_iff in Hboth as [H1 H2]. split; [by apply Honce | by apply Hpresent].
  - eexists. split; [done|]. simpl. split; [done|]. split; [|done].
    intros [H1 H2]. apply Honce in H1. apply Hpresent in H2.
    by rewrite H1, H2 in Hboth.
Qed.

(** ** The index with [duplicates=True] *)

Lemma count_species_dup_loop (ex : option (list string)) (cols : list string)
    (c0 : gmap string nat) :
  ∃ c, for_each (count_species true ex) c0 cols = Ok c
       ∧ ∀ s, c !! s = if decide (s ∈ species <$> cols) then Some 1%nat
                       else c0 !! s.
Proof.
  revert c0. induction cols as [|g cols IH]; intros c0.
  - exists c0. split; [done|]. intros s.
    destruct (decide (s ∈ species <$> [])) as [Hin|_]; [|done].
    by apply elem_of_nil in Hin.
  - rewrite for_each_cons. unfold count_species at 1. fold (species g).
    cbn [mbind result_bind].
    destruct (IH (<[species g := 1%nat]> c0)) as (c & Hc & Hlook).
    exists c. split; [done|]. intros s. rewrite Hlook.
    change (species <$> g :: cols) with (species g :: (species <$> cols)).
    destruct (decide (s ∈ species g :: (species <$> cols))) as [H1|H1];
      rewrite elem_of_cons in H1;
      destruct (decide (s ∈ species <$> cols)) as [H2|H2];
      destruct (decide (s = species g)) as [->|Hne];
      rewrite ?lookup_insert_eq, ?lookup_insert_ne by done;
      try done; exfalso; intuition congruence.
Qed.

(** With [duplicates=True] and no [mustcontain] every line is taken. *)
Lemma fetch_line_dup (mc ex : option (list string)) (t : ortho_tables)
    (line : string) :
  truthy_list mc = false →
  fetch_line mc ex true t line
  = Ok match split line with
       | [] => t
       | grp :: members =>
           {| ortho_dic := update_all grp (grp :: members) (ortho_dic t);
              ortho_idx := <[grp := members]> (ortho_idx t) |}
       end.
Proof.
  intros Hmc. unfold fetch_line. destruct (split line) as [|grp members]; [done|].
  destruct (count_species_dup_loop ex (grp :: members) ∅) as (c & -> & Hlook).
  cbn [mbind result_bind]. rewrite Hmc.
  assert (Honce : all_at_most_once c = true).
  { apply bool_decide_eq_true. intros s n. rewrite Hlook, lookup_empty.
    destruct (decide (s ∈ species <$> grp :: members)); [|done].
    intros [= <-]. lia. }
  assert (Hpresent : all_present (elements (dom c)) c = true).
  { apply forallb_forall. intros wl Hwl%list_elem_of_In%elem_of_elements.
    by apply bool_decide_eq_true. }
  by rewrite Honce, Hpresent.
Qed.

Lemma fetch_loop_dup (mc ex : option (list string)) (handle : list string)
    (t : ortho_tables) :
  truthy_list mc = false →
  ∃ t', for_each (fetch_line mc ex true) t handle = Ok t'
        ∧ (∀ g, is_Some (ortho_dic t !! g) → is_Some (ortho_dic t' !! g))
        ∧ ∀ line g, line ∈ handle → g ∈ split line → is_Some (ortho_dic t' !! g).
Proof.
  intros Hmc. revert t. induction handle as [|line handle IH]; intros t.
  - exists t. split; [done|]. split; [done|].
    intros line g Hl. by apply elem_of_nil in Hl.
  - rewrite for_each_cons, (fetch_line_dup _ _ _ _ Hmc). cbn [mbind result_bind].
    destruct (IH (match split line with
                  | [] => t
                  | grp :: members =>
                      {| ortho_dic := update_all grp (grp :: members) (ortho_dic t);
                         ortho_idx := <[grp := members]> (ortho_idx t) |}
                  end)) as (t' & Hloop & Hkeep & Hall).
    exists t'. split; [done|]. split.
    + intros g Hg. apply Hkeep. destruct (split line) as [|grp members]; [done|].
      cbn [ortho_dic]. rewrite update_all_lookup.
      destruct (decide (g ∈ grp :: members)); [by eexists | done].
    + intros l g [->|Hl]%elem_of_cons Hg; [|by apply (Hall l)].
      apply Hkeep. destruct (split line) as [|grp members];
        [by apply elem_of_nil in Hg|].
      cbn [ortho_dic]. rewrite update_all_lookup, decide_True by done.
      by eexists.
Qed.

(** X4. With [duplicates=True] and no [mustcontain], [fetch_orthologs]
    returns for every file that exists, whatever [exclude] is, and every
    column of every line is a key of [ortho_dic]. *)
Theorem fetch_orthologs_duplicates_total (fs : gmap string (list string))
    (orthofile : string) (handle : list string) (mc ex : option (list string)) :
  fs !! orthofile = Some handle →
  truthy_list mc = false →
  ∃ t, fetch_orthologs fs orthofile mc ex true = Ok t
       ∧ ∀ line g, line ∈ handle → g ∈ split line → g ∈ dom (ortho_dic t).
Proof.
  intros Hfile Hmc. unfold fetch_orthologs, open_file. rewrite Hfile.
  cbn [mbind result_bind].
  destruct (fetch_loop_dup mc ex handle {| ortho_dic := ∅; ortho_idx := ∅ |} Hmc)
    as (t & Hloop & _ & Hall).
  exists t. split; [done|]. intros line g Hl Hg. apply elem_of_dom. by apply (Hall line).
Qed.

(** ** The translated table *)

Section TranslateTable.

Variable pyfloat : string → option float64.

(** A line changes the dictionary only as a row of seven columns, not the
    header, whose gene is indexed. *)
Lemma translate_line_Ok (orthodic : gmap string string)
    (degdic d : gmap string degrec) (line : string) :
  translate_line pyfloat orthodic degdic line = Ok d →
  d = degdic
  ∨ ∃ c0 c1 c2 c3 c4 c5 c6 grp p,
      split line = [c0; c1; c2; c3; c4; c5; c6]
      ∧ c0 ≠ "baseMean"
      ∧ orthodic !! c0 = Some grp
      ∧ parse_padj pyfloat c5 c6 = Ok p
      ∧ d = <[grp := {| padj := p; logfc := parse_or_zero pyfloat c2;
                        basemean := parse_or_zero pyfloat c1 |}]> degdic.
Proof.
  unfold translate_line.
  destruct (split line) as [|c0 [|c1 [|c2 [|c3 [|c4 [|c5 [|c6 [|c7 rest]]]]]]]];
    try (intros [= <-]; by left).
  destruct (String.eqb c0 "baseMean") eqn:Hhead; [intros [= <-]; by left|].
  destruct (orthodic !! c0) as [grp|] eqn:Hgene; [|intros [= <-]; by left].
  intros (p & Hp & [= <-])%bind_Ok. right.
  exists c0, c1, c2, c3, c4, c5, c6, grp, p.
  by apply String.eqb_neq in Hhead.
Qed.

Lemma translate_loop_dom (orthodic : gmap string string)
    (handle : list string) (degdic d : gmap string degrec) (g : string) :
  for_each (translate_line pyfloat orthodic) degdic handle = Ok d →
  g ∈ dom d →
  g ∈ dom degdic ∨ data_row orthodic handle g.
Proof.
  revert degdic. induction handle as [|line handle IH]; intros degdic.
  - intros [= <-]. by left.
  - rewrite for_each_cons. intros (d1 & Hline & Hrest)%bind_Ok Hg.
    destruct (IH _ Hrest Hg) as [H1|(l & c0 & cs & Hl & Hsplit & Hhead & Hgene)].
    + apply translate_line_Ok in Hline
        as [->|(c0 & c1 & c2 & c3 & c4 & c5 & c6 & grp & p & Hs & Hh & Hgene & _ & ->)];
        [by left|].
      apply elem_of_dom in H1. destruct (decide (grp = g)) as [->|Hne].
      * right. exists line, c0, [c1; c2; c3; c4; c5; c6].
        split; [apply elem_of_cons; by left | done].
      * rewrite lookup_insert_ne in H1 by done. left. by apply elem_of_dom.
    + right. exists l, c0, cs. split; [apply elem_of_cons; by right | done].
Qed.

Lemma dom_negate_logfc (df : gmap string degrec) :
  dom (negate_logfc df) = dom df.
Proof. unfold negate_logfc. apply dom_fmap_L. Qed.

Lemma calibrate_df_Ok (calibrate : option string) (df df' : gmap string degrec) :
  calibrate_df calibrate df = Ok df' → df' = df ∨ df' = negate_logfc df.
Proof.
  unfold calibrate_df. destruct (truthy_str calibrate); [|intros [= <-]; by left].
  destruct (df !! default "" calibrate) as [r|]; [|done].
  destruct (flt (logfc r) f_zero); intros [= <-]; auto.
Qed.

(** X5. Every ortholog group of a translated table is the group of an
    indexed gene that stands in the first column of a line of seven
    columns of the file, not the header: no other line leaves a row. *)
Theorem translated_groups_come_from_rows (fs : gmap string (list string))
    (degfile : string) (handle : list string) (orthodic : gmap string string)
    (calibrate : option string) (duplicates : bool)
    (df : gmap string degrec) (g : string) :
  fs !! degfile = Some handle →
  translate_to_orthologs pyfloat fs degfile orthodic calibrate duplicates = Ok df →
  g ∈ dom df →
  data_row orthodic handle g.
Proof.
  intros Hfile. unfold translate_to_orthologs, open_file. rewrite Hfile.
  cbn [mbind result_bind]. intros (degdic & Hloop & Hrest)%bind_Ok.
  apply bind_Ok in Hrest as (idf & Hcal & [= <-]). intros Hg.
  assert (Hidf : g ∈ dom idf).
  { destruct duplicates; [|done]. unfold drop_duplicates in Hg.
    apply elem_of_dom in Hg as [r Hr]. apply map_lookup_filter_Some in Hr as [Hr _].
    by apply elem_of_dom. }
  assert (Hdeg : g ∈ dom degdic).
  { apply calibrate_df_Ok in Hcal as [->| ->]; [done|].
    by rewrite dom_negate_logfc in Hidf. }
  destruct (translate_loop_dom _ _ _ _ _ Hloop Hdeg) as [H|H]; [|done].
  by rewrite dom_empty_L in H.
Qed.

End TranslateTable.

(** ** Calibration *)

Lemma flt_fneg_zero (x : float64) :
  flt x f_zero = true → flt (fneg x) f_zero = false.
Proof.
  destruct x as [a| | |]; simpl; try done.
  intros Ha%bool_decide_eq_true. apply bool_decide_eq_false.
  apply Qcle_not_lt. apply Qclt_le_weak, Qcopp_le_compat in Ha.
  by replace (- qc 0 1)%Qc with (qc 0 1) in Ha by by apply Qc_is_canon.
Qed.

Lemma fneg_involutive (x : float64) : fneg (fneg x) = x.
Proof. destruct x as [a| | |]; simpl; try done. by rewrite Qcopp_involutive. Qed.

(** Negating the column twice gives the table back. *)
Lemma negate_logfc_involutive (df : gmap string degrec) :
  negate_logfc (negate_logfc df) = df.
Proof.
  unfold negate_logfc. rewrite <- map_fmap_compose. rewrite <- (map_fmap_id df) at 2.
  apply map_fmap_ext. intros g [p l b] _. unfold with_logfc. simpl.
  by rewrite fneg_involutive.
Qed.

(** X6. Calibration flips the whole fold-change column or nothing, leaves
    the reference group with a fold change that is not negative, and is
    idempotent: calibrating the calibrated table changes nothing. *)
Theorem calibrate_df_idempotent (calibrate : option string)
    (df df' : gmap string degrec) :
  calibrate_df calibrate df = Ok df' →
  (df' = df ∨ df' = negate_logfc df)
  ∧ (truthy_str calibrate = true →
     ∃ r, df' !! default "" calibrate = Some r ∧ flt (logfc r) f_zero = false)
  ∧ calibrate_df calibrate df' = Ok df'.
Proof.
  intros Hcal. split; [by apply calibrate_df_Ok in Hcal|].
  unfold calibrate_df in *. destruct (truthy_str calibrate); [|by split].
  destruct (df !! default "" calibrate) as [r|] eqn:Hr; [|done].
  destruct (flt (logfc r) f_zero) eqn:Hneg; injection Hcal as <-.
  - assert (Hr' : negate_logfc df !! default "" calibrate
                  = Some (with_logfc fneg r)).
    { unfold negate_logfc. by rewrite lookup_fmap, Hr. }
    split.
    + intros _. exists (with_logfc fneg r). split; [done|]. simpl.
      by apply flt_fneg_zero.
    + rewrite Hr'. simpl. by rewrite (flt_fneg_zero _ Hneg).
  - split.
    + intros _. by exists r.
    + by rewrite Hr, Hneg.
Qed.

Section TranslateEdges.

Variable pyfloat : string → option float64.

(** X7. When the calibration group has no row in the table of an
    experiment, the translation of that experiment raises [KeyError]. *)
Theorem translate_calibrate_missing_group (fs : gmap string (list string))
    (degfile : string) (orthodic : gmap string string) (calibrate : option string)
    (duplicates : bool) (df : gmap string degrec) :
  truthy_str calibrate = true →
  translate_to_orthologs pyfloat fs degfile orthodic None false = Ok df →
  df !! default "" calibrate = None →
  translate_to_orthologs pyfloat fs degfile orthodic calibrate duplicates
  = Raise KeyError.
Proof.
  intros Htruthy. unfold translate_to_orthologs.
  destruct (open_file fs degfile) as [handle|e]; [|done]. cbn [mbind result_bind].
  destruct (for_each _ ∅ handle) as [degdic|e]; [|done]. cbn [mbind result_bind].
  intros [= <-] Hnone. unfold calibrate_df. by rewrite Htruthy, Hnone.
Qed.

(** X8. A row whose adjusted p-value does not parse and whose raw p-value
    does counts as significant (adjusted p-value at most 0.05) exactly when
    the raw p-value is below 0.05. *)
Theorem fallback_row_significance (orthodic : gmap string string)
    (degdic : gmap string degrec) (line c0 c1 c2 c3 c4 c5 c6 grp : string)
    (v : float64) :
  split line = [c0; c1; c2; c3; c4; c5; c6] →
  c0 ≠ "baseMean" →
  orthodic !! c0 = Some grp →
  pyfloat c6 = None →
  c5 ≠ "NA" →
  pyfloat c5 = Some v →
  ∃ df r, translate_line pyfloat orthodic degdic line = Ok df
          ∧ df !! grp = Some r
          ∧ is_sig r = flt v f_0_05.
Proof.
  intros Hsplit Hhead Hgene H6 HNA H5. unfold translate_line.
  rewrite Hsplit, Hgene. apply String.eqb_neq in Hhead, HNA. rewrite Hhead.
  unfold parse_padj. rewrite H6, H5, HNA.
  destruct (flt v f_0_05); cbn [mbind result_bind]; eexists _, _;
    (split; [done|]); rewrite lookup_insert_eq; (split; [done|]);
    by vm_compute.
Qed.

End TranslateEdges.

(** ** Rows with equal values *)

Lemma length_one_of_NoDup {A : Type} (l : list A) (x : A) :
  NoDup l → x ∈ l → (∀ y, y ∈ l → y = x) → length l = 1%nat.
Proof.
  intros Hnd Hx Hall. destruct l as [|a [|b l]]; [by apply elem_of_nil in Hx|done|].
  exfalso. assert (a = x) as -> by (apply Hall, elem_of_cons; by left).
  assert (b = x) as ->
    by (apply Hall, elem_of_cons; right; apply elem_of_cons; by left).
  inversion Hnd as [|? ? Hnot _]; subst. apply Hnot, elem_of_cons. by left.
Qed.

Lemma occurrences_one (df : gmap string degrec) (g : string) (r : degrec) :
  df !! g = Some r →
  occurrences df r = 1%nat ↔ ∀ g', df !! g' = Some r → g' = g.
Proof.
  intros Hg. unfold occurrences.
  assert (Hin : ∀ g', (g', r) ∈ filter (λ kv, kv.2 = r) (map_to_list df)
                      ↔ df !! g' = Some r).
  { intros g'. rewrite list_elem_of_filter, elem_of_map_to_list. simpl. tauto. }
  split.
  - intros Hlen g' Hg'. apply Hin in Hg, Hg'.
    destruct (filter _ (map_to_list df)) as [|a [|b l]]; [done| |done].
    apply list_elem_of_singleton in Hg, Hg'. congruence.
  - intros Huniq. apply (length_one_of_NoDup _ (g, r)).
    + apply list.NoDup_filter, NoDup_map_to_list.
    + by apply Hin.
    + intros [g' r'] [Hr' Hy]%list_elem_of_filter. simpl in Hr'. subst r'.
      apply elem_of_map_to_list in Hy. by rewrite (Huniq g' Hy).
Qed.

(** X9. With [duplicates=True] the table holds exactly the rows of the
    table of [duplicates=False] whose three values no other row has. *)
Theorem translate_duplicates_keeps_unique_values
    (pyfloat : string → option float64) (fs : gmap string (list string))
    (degfile : string) (orthodic : gmap string string) (calibrate : option string)
    (df : gmap string degrec) :
  translate_to_orthologs pyfloat fs degfile orthodic calibrate false = Ok df →
  ∃ dd, translate_to_orthologs pyfloat fs degfile orthodic calibrate true = Ok dd
        ∧ ∀ g r, dd !! g = Some r
                 ↔ df !! g = Some r ∧ ∀ g', df !! g' = Some r → g' = g.
Proof.
  intros Hdf. rewrite translate_duplicates_by_value, Hdf.
  exists (drop_duplicates df). split; [done|]. intros g r.
  rewrite lookup_drop_duplicates. split.
  - intros [Hg Hocc]. split; [done|]. by apply (occurrences_one df g r).
  - intros [Hg Huniq]. split; [done|]. by apply (occurrences_one df g r).
Qed.

(** ** Comparisons of floats *)

Lemma fle_negb_flt (x : float64) (c : Qc) :
  isnull x = false → fle x (Fin c) = negb (flt (Fin c) x).
Proof.
  destruct x as [a| | |]; simpl; try done. intros _.
  destruct (Qclt_le_dec c a) as [Hlt|Hle].
  - rewrite (bool_decide_eq_true_2 (c < a)%Qc) by done.
    apply bool_decide_eq_false. by apply Qclt_not_le.
  - rewrite (bool_decide_eq_false_2 (c < a)%Qc) by by apply Qcle_not_lt.
    by apply bool_decide_eq_true.
Qed.

Lemma flt_asym (x y : float64) : flt x y = true → flt y x = false.
Proof.
  destruct x as [a| | |], y as [b| | |]; simpl; try done.
  intros Hab%bool_decide_eq_true. apply bool_decide_eq_false.
  by apply Qcle_not_lt, Qclt_le_weak.
Qed.

Lemma fle_null (x y : float64) : isnull x = true → fle x y = false.
Proof. by destruct x. Qed.

Lemma fgt_null (x y : float64) : isnull x = true → fgt x y = false.
Proof. unfold fgt. by destruct x, y. Qed.

(** ** The four sets of one experiment *)

Lemma index_of_disjoint (m1 m2 : joined → bool) (df3 : gmap string joined) :
  (∀ j, m1 j = true → m2 j = false) →
  index_of m1 df3 ## index_of m2 df3.
Proof.
  intros Hex g. rewrite !elem_of_index_of.
  intros (j & Hj & H1) (j' & Hj' & H2). rewrite Hj in Hj'. injection Hj' as <-.
  by rewrite (Hex j H1) in H2.
Qed.

Lemma index_of_ext (m1 m2 : joined → bool) (df3 : gmap string joined) :
  (∀ j, m1 j = m2 j) → index_of m1 df3 = index_of m2 df3.
Proof.
  intros Hext. apply set_eq. intros g. rewrite !elem_of_index_of.
  by setoid_rewrite Hext.
Qed.

Lemma index_of_union (m1 m2 : joined → bool) (df3 : gmap string joined) :
  index_of m1 df3 ∪ index_of m2 df3 = index_of (λ j, m1 j || m2 j) df3.
Proof.
  apply set_eq. intros g. rewrite elem_of_union, !elem_of_index_of. split.
  - intros [(j & Hj & H)|(j & Hj & H)]; exists j; (split; [done|]);
      rewrite H; [done | apply orb_true_r].
  - intros (j & Hj & [H|H]%orb_true_iff); [left | right]; by exists j.
Qed.

Lemma quadrants_exclusive (p l : float64) :
  let sp := fle p f_0_05 && fgt l f_zero in
  let sn := fle p f_0_05 && flt l f_zero in
  let nsp := fgt p f_0_05 && fgt l f_zero in
  let nsn := fgt p f_0_05 && flt l f_zero in
  (sp = true → sn = false ∧ nsp = false ∧ nsn = false)
  ∧ (sn = true → nsp = false ∧ nsn = false)
  ∧ (nsp = true → nsn = false)
  ∧ sp || sn || nsp || nsn
    = negb (isnull p) && (fgt l f_zero || flt l f_zero).
Proof.
  cbv zeta. unfold fgt. destruct (isnull p) eqn:Hp.
  - pose proof (fgt_null p f_0_05 Hp) as Hg. unfold fgt in Hg.
    rewrite (fle_null p f_0_05 Hp), Hg. by repeat split.
  - pose proof (fle_negb_flt p (qc 1 20) Hp) as Hle. fold f_0_05 in Hle.
    rewrite Hle. pose proof (flt_asym f_zero l) as Has.
    destruct (flt f_0_05 p), (flt f_zero l), (flt l f_zero);
      cbn [negb andb orb]; repeat split; intros; try done;
      by specialize (Has eq_refl).
Qed.

Lemma sp1_sn1_disjoint (df3 : gmap string joined) :
  index_of sp1 df3 ## index_of sn1 df3.
Proof.
  apply index_of_disjoint. intros j.
  pose proof (quadrants_exclusive (padj1st j) (logfc1st j)) as Hq.
  unfold sp1, sn1. cbv zeta in Hq. tauto.
Qed.

(** X10. For each experiment of a pair the four sets (significant or not,
    positive or negative) are pairwise disjoint, and together they hold the
    joined rows whose adjusted p-value is a number and whose fold change is
    above or below 0; a row with the fold change 0 is in none of them. *)
Theorem four_sets_partition (df3 : gmap string joined) :
  (index_of sp1 df3 ## index_of sn1 df3
   ∧ index_of sp1 df3 ## index_of nsp1 df3
   ∧ index_of sp1 df3 ## index_of nsn1 df3
   ∧ index_of sn1 df3 ## index_of nsp1 df3
   ∧ index_of sn1 df3 ## index_of nsn1 df3
   ∧ index_of nsp1 df3 ## index_of nsn1 df3
   ∧ index_of sp1 df3 ∪ index_of sn1 df3 ∪ index_of nsp1 df3 ∪ index_of nsn1 df3
     = index_of directed1 df3)
  ∧ (index_of sp2 df3 ## index_of sn2 df3
     ∧ index_of sp2 df3 ## index_of nsp2 df3
     ∧ index_of sp2 df3 ## index_of nsn2 df3
     ∧ index_of sn2 df3 ## index_of nsp2 df3
     ∧ index_of sn2 df3 ## index_of nsn2 df3
     ∧ index_of nsp2 df3 ## index_of nsn2 df3
     ∧ index_of sp2 df3 ∪ index_of sn2 df3 ∪ index_of nsp2 df3 ∪ index_of nsn2 df3
       = index_of directed2 df3).
Proof.
  split.
  - repeat split; try (apply index_of_disjoint; intros j;
      pose proof (quadrants_exclusive (padj1st j) (logfc1st j)) as Hq;
      unfold sp1, sn1, nsp1, nsn1; cbv zeta in Hq; tauto).
    rewrite !index_of_union. apply index_of_ext. intros j.
    apply (quadrants_exclusive (padj1st j) (logfc1st j)).
  - repeat split; try (apply index_of_disjoint; intros j;
      pose proof (quadrants_exclusive (padj2 j) (logfc2 j)) as Hq;
      unfold sp2, sn2, nsp2, nsn2; cbv zeta in Hq; tauto).
    rewrite !index_of_union. apply index_of_ext. intros j.
    apply (quadrants_exclusive (padj2 j) (logfc2 j)).
Qed.

(** ** The counts of the Venn diagram *)

(** X11. When no gene is both positive and negative in one experiment, the
    eight sets [sigcounts] counts are a partition of the genes of the four
    sets it is given: any two of the eight are disjoint, their union is the
    union of the four, and so the eight sizes, which [sigcounts] returns as
    decimal strings, add up to the number of genes that are in one of the
    four. *)
Theorem sigcounts_partition (pos1 pos2 neg1 neg2 : gset string) :
  pos1 ## neg1 →
  pos2 ## neg2 →
  (∀ i j s s', i ≠ j →
     fordrawing pos1 pos2 neg1 neg2 !! i = Some s →
     fordrawing pos1 pos2 neg1 neg2 !! j = Some s' →
     s ## s')
  ∧ ⋃ fordrawing pos1 pos2 neg1 neg2 = pos1 ∪ pos2 ∪ neg1 ∪ neg2
  ∧ sum_list (size <$> fordrawing pos1 pos2 neg1 neg2)
    = size (pos1 ∪ pos2 ∪ neg1 ∪ neg2)
  ∧ sigcounts pos1 pos2 neg1 neg2
    = pretty <$> (size <$> fordrawing pos1 pos2 neg1 neg2).
Proof.
  intros H1 H2. split; [|split; [|split; [|done]]].
  - intros i j s s' Hij Hi Hj. unfold fordrawing in Hi, Hj.
    do 9 (try destruct i as [|i]); do 9 (try destruct j as [|j]);
      try done; simpl in Hi, Hj; injection Hi as <-; injection Hj as <-;
      intros g; specialize (H1 g); specialize (H2 g); set_unfold; tauto.
  - unfold fordrawing. simpl. apply set_eq. intros g. set_unfold.
    destruct (decide (g ∈ pos1)), (decide (g ∈ pos2)), (decide (g ∈ neg1)),
      (decide (g ∈ neg2)); tauto.
  - unfold fordrawing. simpl. rewrite Nat.add_0_r.
    rewrite <- !size_union
      by (intros g; specialize (H1 g); specialize (H2 g); set_unfold; tauto).
    f_equal. apply set_eq. intros g. set_unfold.
    destruct (decide (g ∈ pos1)), (decide (g ∈ pos2)), (decide (g ∈ neg1)),
      (decide (g ∈ neg2)); tauto.
Qed.

(** ** Quotients of counts *)

Lemma of_nat_le (a b : nat) : (a ≤ b)%nat → (of_nat a ≤ of_nat b)%Qc.
Proof.
  intros Hab. unfold of_nat, Qcle. simpl. rewrite !Qred_correct.
  unfold Qle. simpl. lia.
Qed.

Lemma of_nat_pos (n : nat) : n ≠ 0%nat → (0 < of_nat n)%Qc.
Proof.
  intros Hn. unfold of_nat, Qclt. simpl. rewrite !Qred_correct.
  unfold Qlt. simpl. lia.
Qed.

Lemma of_nat_sub (m n : nat) :
  (m ≤ n)%nat → of_nat (n - m) = (of_nat n - of_nat m)%Qc.
Proof.
  intros Hmn. replace n with ((n - m) + m)%nat at 2 by lia.
  rewrite of_nat_add. ring.
Qed.

Lemma Qclt_neq_0 (y : Qc) : (0 < y)%Qc → y ≠ 0%Qc.
Proof. intros Hy ->. by apply Qclt_irrefl in Hy. Qed.

Lemma Qcdiv_nonneg (x y : Qc) : (0 ≤ x)%Qc → (0 < y)%Qc → (0 ≤ x / y)%Qc.
Proof.
  intros Hx Hy. unfold Qcdiv. apply Qcmult_nonneg_nonneg; [done|].
  by apply Qclt_le_weak, Qcinv_pos.
Qed.

Lemma Qcdiv_le_1 (x y : Qc) : (0 < y)%Qc → (x ≤ y)%Qc → (x / y ≤ 1)%Qc.
Proof.
  intros Hy Hxy. apply (Qcmult_lt_0_le_reg_r _ _ y Hy).
  rewrite test_field by by apply Qclt_neq_0. by rewrite Qcmult_1_l.
Qed.

Lemma Qcdiv_ge_1 (x y : Qc) : (0 < y)%Qc → (y ≤ x)%Qc → (1 ≤ x / y)%Qc.
Proof.
  intros Hy Hxy. apply (Qcmult_lt_0_le_reg_r _ _ y Hy).
  rewrite test_field by by apply Qclt_neq_0. by rewrite Qcmult_1_l.
Qed.

(** ** The three divisions of a pair *)

Lemma intersection_le_num_sig (df3 : gmap string joined) :
  (intersection_ab df3 ≤ num_sig df3)%nat.
Proof.
  unfold intersection_ab, num_sig.
  rewrite <- (size_union (index_of sp1 df3 ∩ index_of sp2 df3)
                (index_of sn1 df3 ∩ index_of sn2 df3)).
  - apply subseteq_size. intros g.
    rewrite elem_of_union, !elem_of_intersection, !elem_of_index_of.
    intros [[(j & Hj & H1) _]|[(j & Hj & H1) _]]; exists j; (split; [done|]);
      unfold sp1, sn1 in H1; unfold sig_mask;
      apply andb_true_iff in H1 as [-> _]; apply orb_true_r.
  - intros g. rewrite !elem_of_intersection.
    intros [Hp _] [Hn _]. by apply (sp1_sn1_disjoint df3 g).
Qed.

Lemma num_close_le_num_sig (df3 : gmap string joined) :
  (size (index_of close_mask df3) ≤ num_sig df3)%nat.
Proof.
  unfold num_sig. apply subseteq_size. intros g. rewrite !elem_of_index_of.
  intros (j & Hj & H). exists j. split; [done|].
  unfold close_mask in H. by apply andb_true_iff in H as [_ H].
Qed.

Section DivisionFacts.

Variable pearson : list (float64 * float64) → float64.

Lemma py_div_cases (x y : Qc) :
  (y = 0%Qc ∧ py_div x y = Raise ZeroDivisionError)
  ∨ (y ≠ 0%Qc ∧ py_div x y = Ok (x / y)%Qc).
Proof.
  unfold py_div. destruct (decide (y = 0%Qc)); [left | right]; done.
Qed.

(** What the analysis returns, and what it needs to return. *)
Lemma analyse_joined_Ok (threshold : float64) (df3 : gmap string joined)
    (r : pair_scores) :
  analyse_joined pearson threshold df3 = Ok r →
  (num_sig df3 ≠ 0%nat
   ∧ (bkgd_con df3 + bkgd_dis df3)%nat ≠ 0%nat
   ∧ num_sig df3 ≠ intersection_ab df3)
  ∧ rel_conc r = (of_nat (size (index_of close_mask df3)) / of_nat (num_sig df3))%Qc
  ∧ bkgd_freq (concordance_sets r)
    = (of_nat (bkgd_con df3) / of_nat (bkgd_con df3 + bkgd_dis df3))%Qc
  ∧ ijidx r = (of_nat (num_sig df3) / of_nat (num_sig df3 - intersection_ab df3))%Qc.
Proof.
  unfold analyse_joined. intros (bf & _ & Hr)%bind_Ok.
  apply bind_Ok in Hr as (rel & Hrel & Hr).
  apply bind_Ok in Hr as (cs & Hcs & Hr).
  apply bind_Ok in Hr as (ij & Hij & [= <-]). simpl.
  unfold concordancecounts in Hcs. apply bind_Ok in Hcs as (freq & Hfreq & [= <-]).
  simpl. fold (num_sig df3) in *. fold (bkgd_con df3) (bkgd_dis df3) in *.
  pose proof (intersection_le_num_sig df3) as Hle.
  destruct (py_div_cases (1 * of_nat (size (index_of close_mask df3)))
              (of_nat (num_sig df3))) as [[_ H]|[Hn H]];
    rewrite H in Hrel; [done|]. injection Hrel as <-.
  destruct (py_div_cases (1 * of_nat (bkgd_con df3))
              (of_nat (bkgd_con df3 + bkgd_dis df3))) as [[_ H']|[Hb H']];
    rewrite H' in Hfreq; [done|]. injection Hfreq as <-.
  match type of Hij with
  | py_div ?x ?y = _ =>
      destruct (py_div_cases x y) as [[_ H'']|[Hi H'']]; rewrite H'' in Hij;
        [done|]; injection Hij as <-
  end.
  rewrite of_nat_eq_0 in Hn, Hb. split; [split; [done | split; [done|]] |].
  - intros Heq. apply Hi. rewrite Heq at 1. unfold intersection_ab.
    rewrite of_nat_add. ring.
  - split; [unfold Qcdiv; f_equal; ring|].
    split; [unfold Qcdiv; f_equal; ring|].
    rewrite of_nat_sub by done. unfold intersection_ab. rewrite of_nat_add.
    unfold Qcdiv. do 2 f_equal. ring.
Qed.

Lemma analyse_joined_defined (threshold : float64) (df3 : gmap string joined) :
  num_sig df3 ≠ 0%nat →
  (bkgd_con df3 + bkgd_dis df3)%nat ≠ 0%nat →
  num_sig df3 ≠ intersection_ab df3 →
  ∃ r, analyse_joined pearson threshold df3 = Ok r.
Proof.
  intros Hn Hb Hi. unfold analyse_joined.
  rewrite sign_columns_nonempty by (by apply (nonempty_of_index_of sig_mask)).
  cbn [mbind result_bind]. fold (num_sig df3).
  rewrite (py_div_nonzero _ (of_nat (num_sig df3))) by by rewrite of_nat_eq_0.
  cbn [mbind result_bind]. unfold concordancecounts.
  fold (bkgd_con df3) (bkgd_dis df3).
  rewrite (py_div_nonzero _ (of_nat _)) by by rewrite of_nat_eq_0.
  cbn [mbind result_bind]. rewrite py_div_nonzero; [by eexists|].
  intros H. apply Hi, of_nat_inj. unfold intersection_ab. rewrite of_nat_add.
  match type of H with
  | ?d = _ => match goal with
              | |- _ = ?rhs => transitivity (d + rhs)%Qc; [ring | rewrite H; ring]
              end
  end.
Qed.

Lemma analyse_joined_zero_divisor (threshold : float64)
    (df3 : gmap string joined) :
  df3 ≠ ∅ →
  num_sig df3 = 0%nat
  ∨ (bkgd_con df3 + bkgd_dis df3)%nat = 0%nat
  ∨ num_sig df3 = intersection_ab df3 →
  analyse_joined pearson threshold df3 = Raise ZeroDivisionError.
Proof.
  intros Hrows Hzero.
  destruct (analyse_joined pearson threshold df3) as [r|e] eqn:Hr.
  - apply analyse_joined_Ok in Hr as [(Hn & Hb & Hi) _]. tauto.
  - revert Hr. unfold analyse_joined, concordancecounts.
    rewrite sign_columns_nonempty by done. cbn [mbind result_bind].
    repeat match goal with
    | |- context [py_div ?x ?y] =>
        destruct (py_div_cases x y) as [[_ ->]|[_ ->]];
          cbn [mbind result_bind]; [by intros [= <-]|]
    end.
    done.
Qed.

(** X12. How the analysis of a joined table ends: in the [ValueError] of
    line 619 exactly when the table has no row; in [ZeroDivisionError]
    exactly when it has a row and one of its three Python divisions has the
    divisor 0 (no gene is significant in one of the two experiments, or no
    gene has a direction and a p-value in both, or every significant gene
    is concordant and significant in both); and with its scores exactly when
    the three divisors are not 0. *)
Theorem analyse_joined_errors (threshold : float64) (df3 : gmap string joined) :
  (analyse_joined pearson threshold df3 = Raise ValueError ↔ df3 = ∅)
  ∧ (analyse_joined pearson threshold df3 = Raise ZeroDivisionError
     ↔ df3 ≠ ∅
       ∧ (num_sig df3 = 0%nat
          ∨ (bkgd_con df3 + bkgd_dis df3)%nat = 0%nat
          ∨ num_sig df3 = intersection_ab df3))
  ∧ ((∃ r, analyse_joined pearson threshold df3 = Ok r)
     ↔ num_sig df3 ≠ 0%nat
       ∧ (bkgd_con df3 + bkgd_dis df3)%nat ≠ 0%nat
       ∧ num_sig df3 ≠ intersection_ab df3).
Proof.
  assert (Hok : (∃ r, analyse_joined pearson threshold df3 = Ok r)
                ↔ num_sig df3 ≠ 0%nat
                  ∧ (bkgd_con df3 + bkgd_dis df3)%nat ≠ 0%nat
                  ∧ num_sig df3 ≠ intersection_ab df3).
  { split.
    - intros [r Hr]. by apply analyse_joined_Ok in Hr as [Hr _].
    - intros (Hn & Hb & Hi). by apply analyse_joined_defined. }
  split; [|split; [|done]].
  - split.
    + intros Hraise. destruct (decide (df3 = ∅)) as [|Hrows]; [done|].
      destruct (decide (num_sig df3 ≠ 0%nat
                        ∧ (bkgd_con df3 + bkgd_dis df3)%nat ≠ 0%nat
                        ∧ num_sig df3 ≠ intersection_ab df3)) as [Hdiv|Hdiv].
      * apply Hok in Hdiv as [r Hr]. congruence.
      * rewrite analyse_joined_zero_divisor in Hraise; [done | done | lia].
    + intros ->. apply analyse_joined_empty.
  - split.
    + intros Hraise. split.
      * intros ->. by rewrite analyse_joined_empty in Hraise.
      * destruct (decide (num_sig df3 ≠ 0%nat
                          ∧ (bkgd_con df3 + bkgd_dis df3)%nat ≠ 0%nat
                          ∧ num_sig df3 ≠ intersection_ab df3)) as [Hdiv|Hdiv];
          [|lia].
        apply Hok in Hdiv as [r Hr]. congruence.
    + intros [Hrows Hzero]. by apply analyse_joined_zero_divisor.
Qed.

(** X13. The scores of a pair that depend on a division are bounded: the
    inverse Jaccard index is at least 1, and the share of close genes among
    the significant ones and the background frequency of concordance lie
    between 0 and 1. *)
Theorem pair_scores_bounds (threshold : float64) (df3 : gmap string joined)
    (r : pair_scores) :
  analyse_joined pearson threshold df3 = Ok r →
  (1 ≤ ijidx r)%Qc
  ∧ (0 ≤ rel_conc r ≤ 1)%Qc
  ∧ (0 ≤ bkgd_freq (concordance_sets r) ≤ 1)%Qc.
Proof.
  intros ((Hn & Hb & Hi) & -> & -> & ->)%analyse_joined_Ok.
  pose proof (intersection_le_num_sig df3) as Hle.
  pose proof (num_close_le_num_sig df3) as Hclose.
  split; [|split; split].
  - apply Qcdiv_ge_1; [apply of_nat_pos; lia | apply of_nat_le; lia].
  - apply Qcdiv_nonneg; [apply (of_nat_le 0); lia | by apply of_nat_pos].
  - apply Qcdiv_le_1; [by apply of_nat_pos | by apply of_nat_le].
  - apply Qcdiv_nonneg; [apply (of_nat_le 0); lia | by apply of_nat_pos].
  - apply Qcdiv_le_1; [by apply of_nat_pos | apply of_nat_le; lia].
Qed.

End DivisionFacts.

(** ** The joined table *)

Lemma lookup_join_left (df1 df2 : gmap string degrec) (g : string) :
  join_left df1 df2 !! g
  = (λ r1, (r1, default nan_row (df2 !! g))) <$> df1 !! g.
Proof.
  unfold join_left. rewrite map_lookup_imap. by destruct (df1 !! g).
Qed.

Lemma lookup_dropna (df3 : gmap string joined) (g : string) (j : joined) :
  dropna df3 !! g = Some j
  ↔ df3 !! g = Some j ∧ row_has_na j.1 = false ∧ row_has_na j.2 = false.
Proof. unfold dropna. by rewrite map_lookup_filter_Some. Qed.

(** The left join followed by [dropna] is an inner join on complete rows. *)
Lemma dropna_join_left_rows (df1 df2 : gmap string degrec) (g : string)
    (r1 r2 : degrec) :
  dropna (join_left df1 df2) !! g = Some (r1, r2)
  ↔ df1 !! g = Some r1 ∧ df2 !! g = Some r2
    ∧ row_has_na r1 = false ∧ row_has_na r2 = false.
Proof.
  rewrite lookup_dropna, lookup_join_left. simpl. split.
  - intros (Hj & H1 & H2). destruct (df1 !! g) as [r|]; [|done].
    injection Hj as -> Hr2. destruct (df2 !! g) as [r|]; simpl in Hr2.
    + by subst.
    + by subst.
  - intros (-> & -> & H1 & H2). done.
Qed.

Lemma dropna_join_left_swap (df1 df2 : gmap string degrec) :
  dropna (join_left df2 df1) = prod_swap <$> dropna (join_left df1 df2).
Proof.
  apply map_eq. intros g. apply option_eq. intros [r2 r1].
  rewrite dropna_join_left_rows, lookup_fmap, fmap_Some. split.
  - intros (H2 & H1 & Hn2 & Hn1). exists (r1, r2). split; [|done].
    by apply dropna_join_left_rows.
  - intros ([a b] & Hab & [= -> ->]).
    apply dropna_join_left_rows in Hab. tauto.
Qed.

Lemma index_of_swap (m : joined → bool) (df3 : gmap string joined) :
  index_of m (prod_swap <$> df3) = index_of (λ j, m (prod_swap j)) df3.
Proof.
  apply set_eq. intros g. rewrite !elem_of_index_of. split.
  - intros (j & Hj & Hm). rewrite lookup_fmap, fmap_Some in Hj.
    destruct Hj as (j' & Hj' & ->). by exists j'.
  - intros (j & Hj & Hm). exists (prod_swap j). split; [|done].
    rewrite lookup_fmap. apply fmap_Some. by exists j.
Qed.

Lemma swap_counts (df3 : gmap string joined) :
  num_sig (prod_swap <$> df3) = num_sig df3
  ∧ intersection_ab (prod_swap <$> df3) = intersection_ab df3
  ∧ bkgd_con (prod_swap <$> df3) = bkgd_con df3
  ∧ bkgd_dis (prod_swap <$> df3) = bkgd_dis df3
  ∧ size (index_of close_mask (prod_swap <$> df3))
    = size (index_of close_mask df3)
  ∧ (index_of sp1 (prod_swap <$> df3) ∩ index_of sp2 (prod_swap <$> df3))
    ∪ (index_of sn1 (prod_swap <$> df3) ∩ index_of sn2 (prod_swap <$> df3))
    = (index_of sp1 df3 ∩ index_of sp2 df3)
      ∪ (index_of sn1 df3 ∩ index_of sn2 df3).
Proof.
  unfold num_sig, intersection_ab, bkgd_con, bkgd_dis.
  rewrite !index_of_swap.
  rewrite (index_of_ext (λ j, sig_mask (prod_swap j)) sig_mask)
    by (intros [a b]; apply orb_comm).
  rewrite (index_of_ext (λ j, close_mask (prod_swap j)) close_mask).
  2:{ intros [a b].
      unfold close_mask, concord_mask, sig_mask, logfc1st, logfc2, padj1st,
        padj2.
      cbn [fst snd prod_swap].
      by destruct (fgt (logfc a) f_zero), (fgt (logfc b) f_zero),
        (flt (logfc a) f_zero), (flt (logfc b) f_zero),
        (fle (padj a) f_0_05), (fle (padj b) f_0_05). }
  change (index_of (λ j, sp1 (prod_swap j)) df3) with (index_of sp2 df3).
  change (index_of (λ j, sp2 (prod_swap j)) df3) with (index_of sp1 df3).
  change (index_of (λ j, sn1 (prod_swap j)) df3) with (index_of sn2 df3).
  change (index_of (λ j, sn2 (prod_swap j)) df3) with (index_of sn1 df3).
  change (index_of (λ j, nsp1 (prod_swap j)) df3) with (index_of nsp2 df3).
  change (index_of (λ j, nsp2 (prod_swap j)) df3) with (index_of nsp1 df3).
  change (index_of (λ j, nsn1 (prod_swap j)) df3) with (index_of nsn2 df3).
  change (index_of (λ j, nsn2 (prod_swap j)) df3) with (index_of nsn1 df3).
  repeat split; try done.
  - by rewrite (comm_L (∩) (index_of sp2 df3)), (comm_L (∩) (index_of sn2 df3)).
  - f_equal. apply set_eq. intros g. set_unfold. tauto.
  - f_equal. apply set_eq. intros g. set_unfold. tauto.
  - apply set_eq. intros g. set_unfold. tauto.
Qed.

(** ** One pair in both orders *)

Section PairFacts.

Variable pyfloat : string → option float64.
Variable pearson : list (float64 * float64) → float64.
Variable fs : gmap string (list string).
Variable orthodic : gmap string string.
Variable threshold : float64.
Variable calibrate : option string.

Lemma joined_table_Ok (drop_nas : bool) (exp1 exp2 : string)
    (df3 : gmap string joined) :
  joined_table pyfloat fs orthodic calibrate drop_nas exp1 exp2 = Ok df3
  ↔ ∃ df1 df2,
      calibrated pyfloat fs orthodic calibrate exp1 = Ok df1
      ∧ calibrated pyfloat fs orthodic calibrate exp2 = Ok df2
      ∧ df3 = if drop_nas then dropna (join_left df1 df2) else join_left df1 df2.
Proof.
  unfold joined_table, calibrated. split.
  - intros (t1 & Ht1 & H)%bind_Ok. apply bind_Ok in H as (t2 & Ht2 & H).
    apply bind_Ok in H as (df1 & Hdf1 & H). apply bind_Ok in H as (df2 & Hdf2 & H).
    injection H as <-. exists df1, df2. by rewrite Ht1, Ht2.
  - intros (df1 & df2 & (t1 & Ht1 & Hdf1)%bind_Ok & (t2 & Ht2 & Hdf2)%bind_Ok & ->).
    rewrite Ht1, Ht2. cbn [mbind result_bind]. by rewrite Hdf1, Hdf2.
Qed.

(** X14. Without kept NaN rows a pair gives the same results in both
    orders: when the comparison of [(exp1, exp2)] returns, so does the one
    of [(exp2, exp1)], on the same rows with the two sides exchanged, with
    the same inverse Jaccard index, the same shares and the same concordant
    significant set. *)
Theorem pair_scores_symmetric (exp1 exp2 : string) (df3 : gmap string joined)
    (r : pair_scores) :
  joined_table pyfloat fs orthodic calibrate true exp1 exp2 = Ok df3 →
  analyse_joined pearson threshold df3 = Ok r →
  ∃ r',
    joined_table pyfloat fs orthodic calibrate true exp2 exp1
    = Ok (prod_swap <$> df3)
    ∧ analyse_joined pearson threshold (prod_swap <$> df3) = Ok r'
    ∧ ijidx r' = ijidx r
    ∧ rel_conc r' = rel_conc r
    ∧ bkgd_freq (concordance_sets r') = bkgd_freq (concordance_sets r)
    ∧ con_sig1 (concordance_sets r') = con_sig1 (concordance_sets r).
Proof.
  intros (df1 & df2 & H1 & H2 & ->)%joined_table_Ok Hr.
  destruct (swap_counts (dropna (join_left df1 df2)))
    as (Hn & Hi & Hc & Hd & Hcl & Hset).
  pose proof (analyse_joined_Ok pearson _ _ _ Hr)
    as ((Cn & Cb & Ci) & Erel & Efreq & Eij).
  destruct (analyse_joined_defined pearson threshold
              (prod_swap <$> dropna (join_left df1 df2))) as [r' Hr'];
    [rewrite Hn; exact Cn | rewrite Hc, Hd; exact Cb | rewrite Hn, Hi; exact Ci |].
  exists r'. split.
  { apply joined_table_Ok. exists df2, df1. split; [done|]. split; [done|].
    symmetry. apply dropna_join_left_swap. }
  split; [done|].
  pose proof (analyse_joined_Ok pearson _ _ _ Hr')
    as (_ & Erel' & Efreq' & Eij').
  rewrite Erel', Efreq', Eij', Erel, Efreq, Eij, Hn, Hi, Hc, Hd, Hcl.
  repeat split; try done.
  by rewrite (analyse_joined_con_sig pearson _ _ _ Hr'),
    (analyse_joined_con_sig pearson _ _ _ Hr), Hset.
Qed.

(** ** The whole loop *)

Variable drop_nas : bool.

Lemma pairwise_loop_skips (pairs : list (string * string)) (st : pairwise_state) :
  (∀ exp1 exp2, (exp1, exp2) ∈ pairs → exp1 = exp2) →
  for_each (pairwise_step pyfloat pearson fs orthodic threshold calibrate drop_nas)
    st pairs = Ok st.
Proof.
  induction pairs as [|[e1 e2] pairs IH]; intros Hsame; [done|].
  rewrite for_each_cons. rewrite (Hsame e1 e2) by (apply elem_of_cons; by left).
  rewrite pairwise_step_same. cbn [mbind result_bind].
  apply IH. intros a b Hab. apply Hsame, elem_of_cons. by right.
Qed.

(** X15. When the list of experiments holds no two different names (it is
    empty, has one name, or one name several times), every pair is skipped
    and [pairwise_comparisons] raises [TypeError]: [set.intersection] is
    called without a set. *)
Theorem pairwise_comparisons_no_pair (experiments : list string) :
  (∀ exp1 exp2, exp1 ∈ experiments → exp2 ∈ experiments → exp1 = exp2) →
  pairwise_comparisons pyfloat pearson fs experiments orthodic threshold
    calibrate drop_nas = Raise TypeError.
Proof.
  intros Hsame. unfold pairwise_comparisons. rewrite pairwise_loop_skips; [done|].
  intros e1 e2 [H1 H2]%elem_of_list_prod. by apply Hsame.
Qed.

Lemma elem_of_con_sig (df3 : gmap string joined) (g : string) :
  g ∈ (index_of sp1 df3 ∩ index_of sp2 df3) ∪ (index_of sn1 df3 ∩ index_of sn2 df3)
  ↔ ∃ j up, df3 !! g = Some j
            ∧ significant_towards up j.1 = true
            ∧ significant_towards up j.2 = true.
Proof.
  rewrite elem_of_union, !elem_of_intersection, !elem_of_index_of. split.
  - intros [[(j & Hj & H1) (j' & Hj' & H2)]|[(j & Hj & H1) (j' & Hj' & H2)]];
      rewrite Hj in Hj'; injection Hj' as <-;
      [exists j, true | exists j, false]; done.
  - intros (j & [|] & Hj & H1 & H2); [left | right]; split; by exists j.
Qed.

Lemma significant_towards_not_null (up : bool) (r : degrec) :
  significant_towards up r = true → r ≠ nan_row.
Proof. by intros H ->. Qed.

Lemma significant_towards_one_way (r : degrec) (up up' : bool) :
  significant_towards up r = true → significant_towards up' r = true → up = up'.
Proof.
  unfold significant_towards. intros [_ H1]%andb_true_iff [_ H2]%andb_true_iff.
  destruct up, up'; try done; unfold fgt in *.
  - by rewrite (flt_asym _ _ H1) in H2.
  - by rewrite (flt_asym _ _ H2) in H1.
Qed.

(** The rows of a joined table are rows of the two calibrated tables. *)
Lemma joined_table_rows (exp1 exp2 : string) (df3 : gmap string joined)
    (g : string) (j : joined) :
  joined_table pyfloat fs orthodic calibrate drop_nas exp1 exp2 = Ok df3 →
  df3 !! g = Some j →
  ∃ df1 df2,
    calibrated pyfloat fs orthodic calibrate exp1 = Ok df1
    ∧ calibrated pyfloat fs orthodic calibrate exp2 = Ok df2
    ∧ df1 !! g = Some j.1
    ∧ j.2 = default nan_row (df2 !! g)
    ∧ (drop_nas = true → row_has_na j.1 = false ∧ row_has_na j.2 = false).
Proof.
  intros (df1 & df2 & H1 & H2 & ->)%joined_table_Ok Hj.
  exists df1, df2. split; [done|]. split; [done|].
  assert (Hjoin : join_left df1 df2 !! g = Some j
                  ∧ (drop_nas = true
                     → row_has_na j.1 = false ∧ row_has_na j.2 = false)).
  { destruct drop_nas; [|done]. by apply lookup_dropna in Hj as [Hj Hna]. }
  destruct Hjoin as [Hjoin Hna].
  rewrite lookup_join_left in Hjoin. destruct (df1 !! g) as [r1|]; [|done].
  injection Hjoin as <-. done.
Qed.

Lemma common_to_all_rows (experiments : list string)
    (common_to_all : gset string) (g : string) :
  pairwise_comparisons pyfloat pearson fs experiments orthodic threshold
    calibrate drop_nas = Ok common_to_all →
  g ∈ common_to_all →
  ∃ up, ∀ exp, exp ∈ experiments →
    ∃ df r, calibrated pyfloat fs orthodic calibrate exp = Ok df
            ∧ df !! g = Some r
            ∧ significant_towards up r = true
            ∧ (drop_nas = true → row_has_na r = false).
Proof.
  unfold pairwise_comparisons. intros (st & Hloop & Hint)%bind_Ok Hg.
  destruct (pairwise_loop_Ok _ _ _ _ _ _ _ _ _ _ Hloop)
    as (Hcl & new & Hnew & _ & Hin).
  simpl in Hnew. rewrite Hnew in Hint. unfold set_intersection in Hint.
  destruct new as [|s0 rest]; [done|]. injection Hint as <-.
  apply elem_of_foldl_intersection in Hg.
  assert (Hall : ∀ c, c ∈ s0 :: rest → g ∈ c).
  { intros c [->|Hc]%elem_of_cons; [by destruct Hg | by apply Hg]. }
  assert (Hpair : ∀ e1 e2, e1 ∈ experiments → e2 ∈ experiments → e1 ≠ e2 →
            ∃ df1 df2 r1 r2 up,
              calibrated pyfloat fs orthodic calibrate e1 = Ok df1
              ∧ calibrated pyfloat fs orthodic calibrate e2 = Ok df2
              ∧ df1 !! g = Some r1 ∧ df2 !! g = Some r2
              ∧ significant_towards up r1 = true
              ∧ significant_towards up r2 = true
              ∧ (drop_nas = true
                 → row_has_na r1 = false ∧ row_has_na r2 = false)).
  { intros e1 e2 H1 H2 Hne.
    destruct (Hcl e1 e2) as (df3 & r & Ht & _);
      [by apply elem_of_list_prod | done |].
    assert (Hc : g ∈ (index_of sp1 df3 ∩ index_of sp2 df3)
                     ∪ (index_of sn1 df3 ∩ index_of sn2 df3)).
    { apply Hall, Hin. exists e1, e2, df3. by rewrite elem_of_list_prod. }
    apply elem_of_con_sig in Hc as (j & up & Hj & Hs1 & Hs2).
    destruct (joined_table_rows _ _ _ _ _ Ht Hj)
      as (df1 & df2 & Hd1 & Hd2 & Hr1 & Hr2 & Hna).
    exists df1, df2, j.1, j.2, up. repeat split; try done; try by apply Hna.
    destruct (df2 !! g) as [r2|]; simpl in Hr2; [by rewrite Hr2|].
    by apply significant_towards_not_null in Hs2. }
  assert (Hdist : ∃ a b, a ∈ experiments ∧ b ∈ experiments ∧ a ≠ b).
  { assert (Hs0 : s0 ∈ s0 :: rest) by (apply elem_of_cons; by left).
    apply Hin in Hs0 as (a & b & _ & [Ha Hb]%elem_of_list_prod & Hne & _).
    by exists a, b. }
  destruct Hdist as (a & b & Ha & Hb & Hab).
  destruct (Hpair a b Ha Hb Hab)
    as (dfa & dfb & ra & rb & up & Hda & Hdb & Hra & Hrb & Hsa & Hsb & Hna).
  exists up. intros e He. destruct (decide (e = a)) as [->|Hea].
  - exists dfa, ra. repeat split; try done. intros Hd. by apply Hna.
  - destruct (Hpair a e Ha He (not_eq_sym Hea))
      as (dfa' & dfe & ra' & re & up' & Hda' & Hde & Hra' & Hre & Hsa' & Hse & Hna').
    rewrite Hda in Hda'. injection Hda' as <-. rewrite Hra in Hra'.
    injection Hra' as <-.
    rewrite (significant_towards_one_way ra up up' Hsa Hsa').
    exists dfe, re. repeat split; try done. intros Hd. by apply Hna'.
Qed.

(** X16. Every ortholog of [common_to_all] has a row in the calibrated
    table of every experiment, significant there (adjusted p-value at most
    0.05) and with a fold change of one and the same sign in all of them. *)
Theorem common_to_all_one_direction (experiments : list string)
    (common_to_all : gset string) (g : string) :
  pairwise_comparisons pyfloat pearson fs experiments orthodic threshold
    calibrate drop_nas = Ok common_to_all →
  g ∈ common_to_all →
  ∃ up, ∀ exp, exp ∈ experiments →
    ∃ df r, calibrated pyfloat fs orthodic calibrate exp = Ok df
            ∧ df !! g = Some r
            ∧ significant_towards up r = true.
Proof.
  intros Hc Hg. destruct (common_to_all_rows _ _ _ Hc Hg) as [up Hup].
  exists up. intros exp Hexp.
  destruct (Hup exp Hexp) as (df & r & Hdf & Hr & Hs & _). by exists df, r.
Qed.

End PairFacts.

(** ** The table of all experiments *)

Lemma wide_has_na_prefix (r : degrec) (l l' : list degrec) :
  wide_has_na (r, l ++ l') = false → wide_has_na (r, l) = false.
Proof.
  unfold wide_has_na, cells. cbn [fst snd existsb].
  rewrite existsb_app, !orb_false_iff. tauto.
Qed.

Lemma wide_has_na_cells (w : wide) :
  wide_has_na w = false ↔ ∀ c, c ∈ cells w → row_has_na c = false.
Proof.
  unfold wide_has_na. induction (cells w) as [|x l IH]; simpl.
  - split; [|done]. intros _ c H. by apply elem_of_nil in H.
  - rewrite orb_false_iff, IH. split.
    + intros [Hx Hl] c [->|H]%elem_of_cons; [done | by apply Hl].
    + intros H. split; [apply H, elem_of_cons; by left|].
      intros c Hc. apply H, elem_of_cons. by right.
Qed.

Section GlobalFacts.

Variable pyfloat : string → option float64.
Variable fs : gmap string (list string).
Variable orthodic : gmap string string.
Variable calibrate : option string.
Variable drop_nas duplicates : bool.

Let translated (exp : string) : result (gmap string degrec) :=
  translate_to_orthologs pyfloat fs exp orthodic calibrate duplicates.

Let add : gmap string wide → string → result (gmap string wide) :=
  add_experiment pyfloat fs orthodic calibrate drop_nas duplicates.

Lemma add_experiment_Ok (dfall dfall' : gmap string wide) (exp : string) :
  add dfall exp = Ok dfall' →
  ∃ dfnew, translated exp = Ok dfnew
    ∧ ∀ g w', dfall' !! g = Some w' ↔
        ∃ w, dfall !! g = Some w
             ∧ w' = (w.1, w.2 ++ [default nan_row (dfnew !! g)])
             ∧ (drop_nas = true → wide_has_na w' = false).
Proof.
  unfold add, add_experiment. fold (translated exp).
  intros (dfnew & Hnew & [= <-])%bind_Ok. exists dfnew. split; [done|].
  intros g w'. destruct drop_nas.
  - rewrite map_lookup_filter_Some, map_lookup_imap. cbn [snd]. split.
    + intros [(w & Hw & [= <-])%bind_Some Hna]. by exists w.
    + intros (w & Hw & -> & Hna). split; [|by apply Hna].
      apply bind_Some. by exists w.
  - rewrite map_lookup_imap. split.
    + intros (w & Hw & [= <-])%bind_Some. by exists w.
    + intros (w & Hw & -> & _). apply bind_Some. by exists w.
Qed.

Lemma global_loop_Ok (others : list string) (st dfall : gmap string wide) :
  for_each add st others = Ok dfall →
  ∃ dfs, Forall2 (λ exp df, translated exp = Ok df) others dfs
    ∧ ∀ g w', dfall !! g = Some w' ↔
        ∃ w, st !! g = Some w
             ∧ w' = (w.1, w.2 ++ ((λ df, default nan_row (df !! g)) <$> dfs))
             ∧ (drop_nas = true → others ≠ [] → wide_has_na w' = false).
Proof.
  revert st. induction others as [|exp others IH]; intros st.
  - intros [= <-]. exists []. split; [constructor|]. intros g w'. split.
    + intros H. exists w'. simpl. rewrite app_nil_r. by destruct w'.
    + intros (w & H & -> & _). simpl. rewrite app_nil_r. by destruct w.
  - rewrite for_each_cons. intros (st1 & Hstep & Hrest)%bind_Ok.
    apply add_experiment_Ok in Hstep as (dfnew & Hnew & Hstep).
    apply IH in Hrest as (dfs & Hdfs & Hrest).
    exists (dfnew :: dfs). split; [by constructor|].
    intros g w'. rewrite Hrest. split.
    + intros (w1 & (w & Hw & -> & Hna1)%Hstep & -> & Hna).
      exists w. split; [done|]. cbn [fst snd fmap list_fmap].
      rewrite <- app_assoc. split; [done|]. intros Hd _.
      destruct others as [|e others'].
      * inversion Hdfs; subst. simpl. by apply Hna1.
      * rewrite app_assoc. by apply Hna.
    + intros (w & Hw & -> & Hna).
      exists (w.1, w.2 ++ [default nan_row (dfnew !! g)]). split.
      * apply Hstep. exists w. split; [done|]. split; [done|].
        intros Hd. specialize (Hna Hd ltac:(done)).
        cbn [fmap list_fmap] in Hna.
        rewrite cons_middle, app_assoc in Hna.
        by apply wide_has_na_prefix in Hna.
      * cbn [fst snd fmap list_fmap]. rewrite <- app_assoc. split; [done|].
        intros Hd _. by apply Hna.
Qed.

Lemma global_dataframe_Ok (experiments : list string) (dfall : gmap string wide) :
  global_dataframe pyfloat fs experiments orthodic calibrate drop_nas duplicates
  = Ok dfall →
  ∃ df0 dfs,
    Forall2 (λ exp df, translated exp = Ok df) experiments (df0 :: dfs)
    ∧ dfs ≠ []
    ∧ ∀ g w, dfall !! g = Some w ↔
        ∃ r, df0 !! g = Some r
             ∧ w = (r, (λ df, default nan_row (df !! g)) <$> dfs)
             ∧ (drop_nas = true → wide_has_na w = false).
Proof.
  unfold global_dataframe. destruct experiments as [|exp0 [|exp1 others]]; try done.
  fold (translated exp0). fold add.
  intros (df0 & H0 & Hloop)%bind_Ok.
  apply global_loop_Ok in Hloop as (dfs & Hdfs & Hrows).
  exists df0, dfs. split; [by constructor|]. split.
  { intros ->. inversion Hdfs. }
  intros g w. rewrite Hrows. split.
  - intros (w0 & Hw0 & -> & Hna). rewrite lookup_fmap in Hw0.
    destruct (df0 !! g) as [r|]; [|done]. injection Hw0 as <-.
    exists r. split; [done|]. split; [done|]. intros Hd. by apply Hna.
  - intros (r & Hr & -> & Hna). exists (r, []). rewrite lookup_fmap, Hr.
    split; [done|]. split; [done|]. intros Hd _. by apply Hna.
Qed.

(** X17. The table that [global_dataframe] returns: the list of experiments
    has at least two names, every one of them was translated, and the rows
    are those of the first experiment, each followed by the row of the same
    ortholog in every later experiment, in order, or by NaNs where it has
    none; with [drop_nas] only the rows without any NaN are kept. *)
Theorem global_dataframe_rows (experiments : list string)
    (dfall : gmap string wide) :
  global_dataframe pyfloat fs experiments orthodic calibrate drop_nas duplicates
  = Ok dfall →
  ∃ df0 dfs,
    Forall2 (λ exp df,
       translate_to_orthologs pyfloat fs exp orthodic calibrate duplicates
       = Ok df) experiments (df0 :: dfs)
    ∧ (2 ≤ length experiments)%nat
    ∧ ∀ g w, dfall !! g = Some w ↔
        ∃ r, df0 !! g = Some r
             ∧ w = (r, (λ df, default nan_row (df !! g)) <$> dfs)
             ∧ (drop_nas = true → wide_has_na w = false).
Proof.
  intros (df0 & dfs & Hdfs & Hne & Hrows)%global_dataframe_Ok.
  exists df0, dfs. split; [done|]. split; [|done].
  apply Forall2_length in Hdfs. rewrite Hdfs. destruct dfs; [done | simpl; lia].
Qed.

Lemma global_dataframe_width (experiments : list string)
    (dfall : gmap string wide) (g : string) (w : wide) :
  global_dataframe pyfloat fs experiments orthodic calibrate drop_nas duplicates
  = Ok dfall →
  dfall !! g = Some w →
  length w.2 = (length experiments - 1)%nat.
Proof.
  intros (df0 & dfs & Hdfs & Hne & Hrows)%global_dataframe_Ok Hw.
  apply Hrows in Hw as (r & _ & -> & _). cbn [snd]. rewrite length_fmap.
  apply Forall2_length in Hdfs. rewrite Hdfs. simpl. lia.
Qed.

End GlobalFacts.

(** ** Selection of the orthologs in the table of all experiments *)

Lemma enough_iff (n : nat) (w : wide) :
  enough n w = true
  ↔ (sum_list (null_cells <$> cells w) < 3 * (n - 1))%nat ∧ (1 ≤ n)%nat.
Proof.
  unfold enough, missing. rewrite bool_decide_eq_true.
  generalize (sum_list (null_cells <$> cells w)). intros s.
  unfold Qclt, Qcdiv, Qcmult, Qcinv, of_nat, qc. cbn [this Q2Qc].
  rewrite !Qred_correct. unfold Qlt, Qmult, Qinv, inject_Z. simpl. lia.
Qed.

Lemma null_cells_zero (c : degrec) : row_has_na c = false → null_cells c = 0%nat.
Proof.
  unfold row_has_na, null_cells. rewrite !orb_false_iff. intros [[Hp Hl] Hb].
  cbn [filter list_filter]. 
  rewrite !decide_False by (rewrite ?Hp, ?Hl, ?Hb; done). done.
Qed.

Lemma enough_without_na (n : nat) (w : wide) :
  (2 ≤ n)%nat → wide_has_na w = false → enough n w = true.
Proof.
  intros Hn Hna. apply enough_iff. split; [|lia].
  rewrite wide_has_na_cells in Hna.
  assert (Hz : sum_list (null_cells <$> cells w) = 0%nat).
  { induction (cells w) as [|c l IH]; [done|]. simpl.
    rewrite null_cells_zero by (apply Hna, elem_of_cons; by left).
    apply IH. intros c' Hc'. apply Hna, elem_of_cons. by right. }
  rewrite Hz. lia.
Qed.

Lemma classify_Ok (threshold : float64) (n : nat) (w : wide) :
  length w.2 = (n - 1)%nat →
  ∃ fl, classify threshold n w = Ok fl
    ∧ f_enough fl = enough n w
    ∧ (f_sig fl = true ↔ all_or_null padj is_sig w)
    ∧ (f_concordant fl = true
       ↔ all_or_null logfc is_pos w ∨ all_or_null logfc is_neg w).
Proof.
  intros Hlen.
  destruct (reduce_all_or_null padj is_sig n w Hlen) as (s & Hs & Hsi).
  destruct (reduce_all_or_null logfc is_neg n w Hlen) as (ng & Hng & Hngi).
  destruct (reduce_all_or_null logfc is_pos n w Hlen) as (ps & Hps & Hpsi).
  destruct (reduce_all_or_null logfc (is_big threshold) n w Hlen) as (b & Hb & _).
  destruct (reduce_orb is_sig n w Hlen) as (sa & Hsa & _).
  destruct (reduce_orb is_neg n w Hlen) as (na & Hna & _).
  destruct (reduce_orb is_pos n w Hlen) as (pa & Hpa & _).
  destruct (reduce_orb (is_big threshold) n w Hlen) as (ba & Hba & _).
  unfold classify, sig, neg, pos, sig_alo, neg_alo, pos_alo, bigchange_alo,
    bigchange.
  rewrite Hs, Hng, Hps, Hsa, Hna, Hpa, Hba, Hb. cbn [mbind result_bind].
  eexists. split; [done|]. cbn [f_enough f_sig f_concordant].
  split; [done|]. split; [done|]. rewrite orb_true_iff. tauto.
Qed.

Lemma classify_loop (threshold : float64) (n : nat) (F : wide → flags)
    (l : list (string * wide)) (acc : list (string * flags)) :
  (∀ kv, kv ∈ l → classify threshold n kv.2 = Ok (F kv.2)) →
  for_each (λ acc kv, fl ← classify threshold n kv.2; Ok (acc ++ [(kv.1, fl)]))
    acc l
  = Ok (acc ++ (prod_map Datatypes.id F <$> l)).
Proof.
  revert acc. induction l as [|kv l IH]; intros acc Hall.
  - simpl. by rewrite app_nil_r.
  - rewrite for_each_cons, Hall by (apply elem_of_cons; by left).
    cbn [mbind result_bind]. rewrite IH.
    + by rewrite <- app_assoc.
    + intros kv' H. apply Hall, elem_of_cons. by right.
Qed.

Lemma classify_table_Ok (threshold : float64) (n : nat)
    (dfall : gmap string wide) :
  (∀ g w, dfall !! g = Some w → length w.2 = (n - 1)%nat) →
  ∃ F, classify_table threshold n dfall = Ok (F <$> dfall)
    ∧ ∀ g w, dfall !! g = Some w → classify threshold n w = Ok (F w).
Proof.
  intros Hlen.
  pose (F := λ w, match classify threshold n w with
                  | Ok fl => fl
                  | Raise _ =>
                      {| f_enough := false; f_sig := false; f_neg := false;
                         f_pos := false; f_sig_alo := false; f_neg_alo := false;
                         f_pos_alo := false; f_concordant := false;
                         f_bigchange_alo := false; f_bigchange := false |}
                  end).
  assert (HF : ∀ g w, dfall !! g = Some w → classify threshold n w = Ok (F w)).
  { intros g w Hw. destruct (classify_Ok threshold n w (Hlen g w Hw))
      as (fl & Hfl & _). unfold F. by rewrite Hfl. }
  exists F. split; [|done]. unfold classify_table.
  rewrite (classify_loop threshold n F).
  - simpl. by rewrite list_to_map_fmap, list_to_map_to_list.
  - intros [g w] Hkv. apply elem_of_map_to_list in Hkv. by apply (HF g).
Qed.

Lemma global_comparisons_Ok (dfall : gmap string wide)
    (experiments : list string) (threshold : float64) :
  (∀ g w, dfall !! g = Some w → length w.2 = (length experiments - 1)%nat) →
  ∃ s, global_comparisons dfall experiments threshold = Ok s
    ∧ ∀ g, g ∈ s ↔
        ∃ w, dfall !! g = Some w
             ∧ enough (length experiments) w = true
             ∧ all_or_null padj is_sig w
             ∧ (all_or_null logfc is_pos w ∨ all_or_null logfc is_neg w).
Proof.
  intros Hlen.
  destruct (classify_table_Ok threshold _ dfall Hlen) as (F & Htbl & HF).
  unfold global_comparisons. rewrite Htbl. cbn [mbind result_bind].
  eexists. split; [done|]. intros g.
  rewrite elem_of_dom. unfold is_Some.
  setoid_rewrite map_lookup_filter_Some. setoid_rewrite lookup_fmap.
  setoid_rewrite fmap_Some. cbn [snd]. split.
  - intros (fl & (w & Hw & ->) & HP). exists w. split; [done|].
    destruct (classify_Ok threshold _ w (Hlen g w Hw)) as (fl & Hfl & He & Hs & Hc).
    rewrite (HF g w Hw) in Hfl. injection Hfl as <-.
    apply andb_true_iff in HP as [[Hc'%Hc Hs'%Hs]%andb_true_iff He'].
    by rewrite <- He.
  - intros (w & Hw & He & Hs & Hc). exists (F w). split; [by exists w|].
    destruct (classify_Ok threshold _ w (Hlen g w Hw))
      as (fl & Hfl & He' & Hs' & Hc').
    rewrite (HF g w Hw) in Hfl. injection Hfl as <-.
    rewrite He', He, andb_true_r. apply andb_true_iff. split.
    + by apply Hc'.
    + by apply Hs'.
Qed.

Lemma Forall2_elem_of_l {A B : Type} (P : A → B → Prop) (l : list A)
    (k : list B) (x : A) :
  Forall2 P l k → x ∈ l → ∃ y, y ∈ k ∧ P x y.
Proof.
  induction 1 as [|a b l k Hab _ IH]; [by intros H%elem_of_nil|].
  intros [->|Hx]%elem_of_cons.
  - exists b. split; [apply elem_of_cons; by left | done].
  - destruct (IH Hx) as (y & Hy & Hxy). exists y.
    split; [apply elem_of_cons; by right | done].
Qed.

Lemma Forall2_elem_of_r {A B : Type} (P : A → B → Prop) (l : list A)
    (k : list B) (y : B) :
  Forall2 P l k → y ∈ k → ∃ x, x ∈ l ∧ P x y.
Proof.
  induction 1 as [|a b l k Hab _ IH]; [by intros H%elem_of_nil|].
  intros [->|Hy]%elem_of_cons.
  - exists a. split; [apply elem_of_cons; by left | done].
  - destruct (IH Hy) as (x & Hx & Hxy). exists x.
    split; [apply elem_of_cons; by right | done].
Qed.

Lemma row_has_na_nan_row : row_has_na nan_row = true.
Proof. done. Qed.

Lemma significant_towards_flags (up : bool) (c : degrec) :
  significant_towards up c = true
  ↔ is_sig c = true ∧ (if up then is_pos c else is_neg c) = true.
Proof.
  unfold significant_towards, is_sig, is_pos, is_neg.
  rewrite andb_true_iff. by destruct up.
Qed.

Lemma no_null_cell (c : degrec) :
  row_has_na c = false → isnull (padj c) = false ∧ isnull (logfc c) = false.
Proof. unfold row_has_na. rewrite !orb_false_iff. tauto. Qed.

(** On a row without NaN the selection of [global_comparisons] asks every
    cell to be significant and all fold changes to have one sign. *)
Lemma selected_without_na (w : wide) :
  wide_has_na w = false →
  (all_or_null padj is_sig w
   ∧ (all_or_null logfc is_pos w ∨ all_or_null logfc is_neg w))
  ↔ ∃ up, ∀ c, c ∈ cells w → significant_towards up c = true.
Proof.
  rewrite wide_has_na_cells. intros Hna. unfold all_or_null. split.
  - intros [Hs [Hp|Hn]]; [exists true | exists false]; intros c Hc;
      apply significant_towards_flags;
      destruct (no_null_cell c (Hna c Hc)) as [Np Nl]; split.
    + destruct (Hs c Hc) as [H|H]; [congruence | done].
    + destruct (Hp c Hc) as [H|H]; [congruence | done].
    + destruct (Hs c Hc) as [H|H]; [congruence | done].
    + destruct (Hn c Hc) as [H|H]; [congruence | done].
  - intros [up Hup]. split.
    + intros c Hc. right. by apply (significant_towards_flags up), Hup.
    + destruct up; [left | right]; intros c Hc; right;
        specialize (Hup c Hc); apply significant_towards_flags in Hup;
        by destruct Hup.
Qed.

Section GlobalSelection.

Variable pyfloat : string → option float64.
Variable fs : gmap string (list string).
Variable orthodic : gmap string string.
Variable calibrate : option string.

Lemma calibrated_translate (exp : string) :
  calibrated pyfloat fs orthodic calibrate exp
  = translate_to_orthologs pyfloat fs exp orthodic calibrate false.
Proof.
  unfold calibrated, translate_to_orthologs.
  destruct (open_file fs exp) as [handle|e]; cbn [mbind result_bind];
    [|reflexivity].
  destruct (for_each _ _ handle) as [degdic|e]; cbn [mbind result_bind];
    [|reflexivity].
  change (calibrate_df None degdic) with (Ok degdic : result _).
  cbn [mbind result_bind].
  destruct (calibrate_df calibrate degdic); reflexivity.
Qed.

(** X18. [global_comparisons] on the table that [global_dataframe] built
    from the same experiments finds every column it reads, and selects the
    orthologs with fewer than [len(experiments) - 1] missing species whose
    cells are all significant or null and whose fold changes are all
    positive or null, or all negative or null. *)
Theorem global_selection_of_global_dataframe (experiments : list string)
    (drop_nas duplicates : bool) (threshold : float64)
    (dfall : gmap string wide) :
  global_dataframe pyfloat fs experiments orthodic calibrate drop_nas duplicates
  = Ok dfall →
  ∃ s, global_comparisons dfall experiments threshold = Ok s
    ∧ ∀ g, g ∈ s ↔
        ∃ w, dfall !! g = Some w
             ∧ enough (length experiments) w = true
             ∧ all_or_null padj is_sig w
             ∧ (all_or_null logfc is_pos w ∨ all_or_null logfc is_neg w).
Proof.
  intros Hdf. apply global_comparisons_Ok. intros g w Hw.
  by apply (global_dataframe_width _ _ _ _ _ _ _ _ _ _ Hdf Hw).
Qed.

(** Rows of the width of [experiments], none with a NaN. *)
Lemma complete_rows_of_global_dataframe (experiments : list string)
    (duplicates : bool) (dfall : gmap string wide) :
  global_dataframe pyfloat fs experiments orthodic calibrate true duplicates
  = Ok dfall →
  (2 ≤ length experiments)%nat
  ∧ ∀ g w, dfall !! g = Some w →
      length w.2 = (length experiments - 1)%nat ∧ wide_has_na w = false.
Proof.
  intros Hdf.
  destruct (global_dataframe_Ok _ _ _ _ _ _ _ _ Hdf)
    as (df0 & dfs & Hdfs & Hne & Hrows).
  split.
  - apply Forall2_length in Hdfs. rewrite Hdfs. destruct dfs; [done | simpl; lia].
  - intros g w Hw. split.
    + by apply (global_dataframe_width _ _ _ _ _ _ _ _ _ _ Hdf Hw).
    + apply Hrows in Hw as (r & _ & _ & Hna). by apply Hna.
Qed.

(** X19. When rows with NaN are dropped, the orthologs that
    [global_comparisons] selects from the table of [global_dataframe] are
    the rows of which every cell is significant (adjusted p-value at most
    0.05) with fold changes all above 0 or all below 0. *)
Theorem global_selection_without_na (experiments : list string)
    (duplicates : bool) (threshold : float64) (dfall : gmap string wide) :
  global_dataframe pyfloat fs experiments orthodic calibrate true duplicates
  = Ok dfall →
  ∃ s, global_comparisons dfall experiments threshold = Ok s
    ∧ ∀ g, g ∈ s ↔
        ∃ w up, dfall !! g = Some w
                ∧ ∀ c, c ∈ cells w → significant_towards up c = true.
Proof.
  intros [Hlen Hrows]%complete_rows_of_global_dataframe.
  destruct (global_comparisons_Ok dfall experiments threshold) as (s & Hs & Hin).
  { intros g w Hw. by apply Hrows in Hw as [Hw _]. }
  exists s. split; [done|]. intros g. rewrite Hin. split.
  - intros (w & Hw & _ & Hsel).
    destruct (Hrows g w Hw) as [_ Hna].
    apply (selected_without_na w Hna) in Hsel as [up Hup]. by exists w, up.
  - intros (w & up & Hw & Hup).
    destruct (Hrows g w Hw) as [_ Hna].
    exists w. split; [done|]. split; [by apply enough_without_na|].
    apply (selected_without_na w Hna). by exists up.
Qed.

Variable pearson : list (float64 * float64) → float64.

(** X20. With NaN rows dropped and duplicates not managed, the global and
    the pairwise analysis of the same experiments select the same
    orthologs: whenever both return, the index of
    [dfall[concordant & sig & enough]] holds exactly the members of
    [common_to_all]. *)
Theorem global_and_pairwise_agree (experiments : list string)
    (threshold threshold' : float64) (dfall : gmap string wide)
    (selected common_to_all : gset string) :
  global_dataframe pyfloat fs experiments orthodic calibrate true false
  = Ok dfall →
  global_comparisons dfall experiments threshold = Ok selected →
  pairwise_comparisons pyfloat pearson fs experiments orthodic threshold'
    calibrate true = Ok common_to_all →
  selected = common_to_all.
Proof.
  intros Hdf Hsel Hpair.
  destruct (complete_rows_of_global_dataframe _ _ _ Hdf) as [Hlen Hcomplete].
  destruct (global_comparisons_Ok dfall experiments threshold) as (s & Hs & Hin0).
  { intros g w Hw. by apply Hcomplete in Hw as [Hw _]. }
  rewrite Hsel in Hs. injection Hs as <-.
  assert (Hin : ∀ g, g ∈ selected ↔
            ∃ w up, dfall !! g = Some w
                    ∧ ∀ c, c ∈ cells w → significant_towards up c = true).
  { intros g. rewrite Hin0. split.
    - intros (w & Hw & _ & Hs).
      destruct (Hcomplete g w Hw) as [_ Hna].
      apply (selected_without_na w Hna) in Hs as [up Hup]. by exists w, up.
    - intros (w & up & Hw & Hup).
      destruct (Hcomplete g w Hw) as [_ Hna].
      exists w. split; [done|]. split; [by apply enough_without_na|].
      apply (selected_without_na w Hna). by exists up. }
  destruct (global_dataframe_Ok _ _ _ _ _ _ _ _ Hdf)
    as (df0 & dfs & Hdfs & Hne & Hrows).
  assert (Htr : ∀ exp df,
            calibrated pyfloat fs orthodic calibrate exp = Ok df
            ↔ translate_to_orthologs pyfloat fs exp orthodic calibrate false
              = Ok df).
  { intros exp df. by rewrite calibrated_translate. }
  apply set_eq. intros g. rewrite Hin. split.
  - intros (w & up & Hw & Hup).
    apply Hrows in Hw as (r0 & Hr0 & -> & Hna). specialize (Hna eq_refl).
    rewrite wide_has_na_cells in Hna.
    assert (Hcell : ∀ exp df, exp ∈ experiments → 
              calibrated pyfloat fs orthodic calibrate exp = Ok df →
              ∃ c, df !! g = Some c ∧ significant_towards up c = true
                   ∧ row_has_na c = false).
    { intros exp df Hexp Hcal.
      destruct (Forall2_elem_of_l _ _ _ _ Hdfs Hexp) as (df' & Hdf' & Htrans).
      apply Htr in Hcal. simpl in Htrans. rewrite Hcal in Htrans.
      injection Htrans as <-.
      assert (Hc : default nan_row (df !! g)
                   ∈ cells (r0, (λ df, default nan_row (df !! g)) <$> dfs)).
      { unfold cells. cbn [fst snd].
        apply elem_of_cons in Hdf' as [->|Hdf'].
        - rewrite Hr0. apply elem_of_cons. by left.
        - apply elem_of_cons. right. apply list_elem_of_fmap. by exists df. }
      destruct (df !! g) as [c|] eqn:Hdfg.
      - exists c. split; [done|]. split; [by apply Hup | by apply Hna].
      - apply Hna in Hc. cbn [default] in Hc.
        by rewrite row_has_na_nan_row in Hc. }
    unfold pairwise_comparisons in Hpair.
    apply bind_Ok in Hpair as (st & Hloop & Hint).
    destruct (pairwise_loop_Ok _ _ _ _ _ _ _ _ _ _ Hloop)
      as (_ & new & Hnew & _ & Hnewin).
    simpl in Hnew. rewrite Hnew in Hint. unfold set_intersection in Hint.
    destruct new as [|s0 rest]; [done|]. injection Hint as <-.
    apply elem_of_foldl_intersection.
    assert (Hall : ∀ c, c ∈ s0 :: rest → g ∈ c).
    { intros c (e1 & e2 & df3 & [H1 H2]%elem_of_list_prod & Hd & Ht & ->)%Hnewin.
      apply joined_table_Ok in Ht as (df1 & df2 & Hc1 & Hc2 & ->).
      destruct (Hcell e1 df1 H1 Hc1) as (c1 & Hg1 & Hs1 & Hn1).
      destruct (Hcell e2 df2 H2 Hc2) as (c2 & Hg2 & Hs2 & Hn2).
      apply elem_of_con_sig. exists (c1, c2), up. split; [|done].
      by apply dropna_join_left_rows. }
    split; [apply Hall, elem_of_cons; by left|].
    intros c Hc. apply Hall, elem_of_cons. by right.
  - intros Hg.
    destruct (common_to_all_rows _ _ _ _ _ _ _ _ _ _ Hpair Hg) as [up Hup].
    assert (Hcell : ∀ df, df ∈ df0 :: dfs →
              ∃ c, df !! g = Some c ∧ significant_towards up c = true
                   ∧ row_has_na c = false).
    { intros df Hdf'.
      destruct (Forall2_elem_of_r _ _ _ _ Hdfs Hdf') as (exp & Hexp & Htrans).
      destruct (Hup exp Hexp) as (df' & c & Hcal & Hc & Hs & Hna).
      apply Htr in Hcal. simpl in Htrans. rewrite Hcal in Htrans.
      injection Htrans as <-. exists c. split; [done|]. split; [done|].
      by apply Hna. }
    destruct (Hcell df0) as (r0 & Hr0 & Hs0 & Hn0); [apply elem_of_cons; by left|].
    assert (Hcells : ∀ c,
              c ∈ cells (r0, (λ df, default nan_row (df !! g)) <$> dfs) →
              significant_towards up c = true ∧ row_has_na c = false).
    { unfold cells. cbn [fst snd]. intros c [->|Hc]%elem_of_cons; [done|].
      apply list_elem_of_fmap in Hc as (df & -> & Hdf').
      destruct (Hcell df) as (c & Hc & Hs & Hn); [apply elem_of_cons; by right|].
      by rewrite Hc. }
    exists (r0, (λ df, default nan_row (df !! g)) <$> dfs), up. split.
    + apply Hrows. exists r0. split; [done|]. split; [done|]. intros _.
      apply wide_has_na_cells. intros c Hc. by apply Hcells.
    + intros c Hc. by apply Hcells.
Qed.

End GlobalSelection.

(** ** convert_name *)

Lemma name_loop_unnamed (name_chart : gmap string string)
    (members : list string) (st : string * string) :
  (∀ gene, gene ∈ members → name_chart !! without_prefix gene = None) →
  foldl (name_step name_chart) st members = st.
Proof.
  revert st. induction members as [|gene members IH]; intros st Hnone; [done|].
  simpl. unfold name_step at 2.
  rewrite Hnone by (apply elem_of_cons; by left).
  apply IH. intros g Hg. apply Hnone, elem_of_cons. by right.
Qed.

(** X21. [convert_name] raises [KeyError] exactly when the ortholog has no
    entry in [ortho_idx], whether names are looked up or not (the test
    [o in ortho_idx] guards the loop only), and [IndexError] exactly when
    its entry is an empty list. *)
Theorem convert_name_errors (name_genes : option string) (o : string)
    (ortho_idx : gmap string (list string)) (name_chart : gmap string string) :
  (convert_name name_genes o ortho_idx name_chart = inl name_KeyError
   ↔ ortho_idx !! o = None)
  ∧ (convert_name name_genes o ortho_idx name_chart = inl name_IndexError
     ↔ ortho_idx !! o = Some []).
Proof.
  unfold convert_name.
  destruct (ortho_idx !! o) as [members|] eqn:Ho.
  - destruct (if truthy_str name_genes
              then foldl (name_step name_chart) ("---", "") members
              else ("---", "")) as [name geneid] eqn:Hst.
    destruct members as [|gene members].
    + assert (name = "---") as ->.
      { destruct (truthy_str name_genes); simpl in Hst; congruence. }
      simpl. split; split; done.
    + destruct (String.eqb name "---"); split; split; done.
  - assert ((if truthy_str name_genes then ("---", "") else ("---", ""))
            = ("---", "")) as -> by by destruct (truthy_str name_genes).
    simpl. split; split; done.
Qed.

(** X22. With a file of names, the line of an ortholog shows the name and
    the gene of the last member of its group whose identifier without the
    first five characters is in [name_chart], as long as that name is not
    ["---"]: there is no [break], a later match replaces an earlier one. *)
Theorem convert_name_last_match (name_genes : option string) (o : string)
    (ortho_idx : gmap string (list string)) (name_chart : gmap string string)
    (before after : list string) (gene name : string) :
  truthy_str name_genes = true →
  ortho_idx !! o = Some (before ++ gene :: after) →
  name_chart !! without_prefix gene = Some name →
  (∀ g, g ∈ after → name_chart !! without_prefix g = None) →
  name ≠ "---" →
  convert_name name_genes o ortho_idx name_chart
  = inr (name_line o gene name).
Proof.
  intros Ht Ho Hname Hafter Hne. unfold convert_name. rewrite Ht, Ho.
  rewrite foldl_app. simpl. unfold name_step at 2. rewrite Hname.
  rewrite name_loop_unnamed by done.
  by apply String.eqb_neq in Hne as ->.
Qed.

(** X23. Without a file of names, or when no member of the group has a
    name, the line shows the first member of the group and its second and
    third members, separated by a space, for a name. *)
Theorem convert_name_unnamed (name_genes : option string) (o : string)
    (ortho_idx : gmap string (list string)) (name_chart : gmap string string)
    (first : string) (others : list string) :
  ortho_idx !! o = Some (first :: others) →
  truthy_str name_genes = false
  ∨ (∀ g, g ∈ first :: others → name_chart !! without_prefix g = None) →
  convert_name name_genes o ortho_idx name_chart
  = inr (name_line o first (String.concat " " (take 2 others))).
Proof.
  intros Ho Hun. unfold convert_name. rewrite Ho.
  assert ((if truthy_str name_genes
           then foldl (name_step name_chart) ("---", "") (first :: others)
           else ("---", "")) = ("---", "")) as ->.
  { destruct Hun as [->|Hnone]; [done|].
    destruct (truthy_str name_genes); [|done]. by apply name_loop_unnamed. }
  done.
Qed.

(** ** The start of the program, continued *)

(** X24. The start of the program enters the analyses only when every
    experiment file exists, there are at least 2 of them and
    [fetch_orthologs] returned the index it hands over; the last line
    before the analyses is the count of indexed genes and groups. *)
Theorem main_start_continue (fs : gmap string (list string)) (args : arguments)
    (log : list event) (t : ortho_tables) :
  main_start fs args = (log, continue t) →
  Forall (λ f, isfile fs f = true) (experiments args)
  ∧ (2 ≤ length (experiments args))%nat
  ∧ fetch_orthologs fs (orthologs args)
      (if truthy_str (mustcontain args)
       then Some (split_on "," (default "" (mustcontain args))) else None)
      (if truthy_str (exclude args)
       then Some (split_on "," (default "" (exclude args))) else None)
      (manage_duplicates args) = Ok t
  ∧ last log = Some (genes_were_indexed (size (ortho_dic t)) (size (ortho_idx t)))
  ∧ (insufficient_files ∉ log)
  ∧ ∀ f, (could_not_be_found f ∉ log).
Proof.
  unfold main_start.
  destruct (List.filter _ (experiments args)) as [|f lost] eqn:Hlost;
    [|by rewrite bool_decide_eq_false_2].
  rewrite bool_decide_eq_true_2 by done. cbn [negb fmap list_fmap app].
  destruct (fetch_orthologs _ _ _ _ _) as [t'|e] eqn:Hfetch; [|done].
  destruct (Nat.ltb 1 (length (experiments args))) eqn:Hlen; [|done].
  intros [= <- <-]. split.
  { apply list.Forall_forall. intros f Hf.
    destruct (isfile fs f) eqn:Hisf; [done|]. exfalso.
    assert (Hin : In f (List.filter (λ f, negb (isfile fs f)) (experiments args))).
    { apply filter_In. split; [by apply list_elem_of_In | by rewrite Hisf]. }
    by rewrite Hlost in Hin. }
  split; [by apply Nat.ltb_lt in Hlen|]. split; [done|].
  split; [by rewrite !app_assoc, last_snoc|].
  split.
  - destruct (truthy_str (mustcontain args)), (truthy_str (exclude args));
      simpl; intros H; repeat (apply elem_of_cons in H as [H|H]; [done|]);
      by apply elem_of_nil in H.
  - intros f. destruct (truthy_str (mustcontain args)), (truthy_str (exclude args));
      simpl; intros H; repeat (apply elem_of_cons in H as [H|H]; [done|]);
      by apply elem_of_nil in H.
Qed.

(** X25. A run that names no species to ignore and does not manage
    duplicates never reaches the analyses when its orthology file has a
    line with a column: with all experiment files present it ends in the
    [TypeError] of [fetch_orthologs], before any gene is counted. *)
Theorem main_start_needs_exclude (fs : gmap string (list string))
    (args : arguments) (handle : list string) :
  Forall (λ f, isfile fs f = true) (experiments args) →
  truthy_str (exclude args) = false →
  manage_duplicates args = false →
  fs !! orthologs args = Some handle →
  Exists (λ line, split line ≠ []) handle →
  (main_start fs args).2 = uncaught TypeError
  ∧ ∀ genes groups,
      (genes_were_indexed genes groups ∉ (main_start fs args).1).
Proof.
  intros Hall%lost_files_nil Hex Hdup Hfile Hline. unfold main_start.
  rewrite Hall, Hex, Hdup. cbn [negb fmap list_fmap app bool_decide].
  rewrite bool_decide_eq_true_2 by done. cbn [negb].
  unfold fetch_orthologs, open_file. rewrite Hfile. cbn [mbind result_bind].
  rewrite fetch_loop_None by done. split; [done|]. intros genes groups.
  destruct (truthy_str (mustcontain args));
    simpl; intros H; repeat (apply elem_of_cons in H as [H|H]; [done|]);
    by apply elem_of_nil in H.
Qed.

(** ** Instances of the further statements *)

Lemma ortho_dic_entries_come_from_lines_witness :
  "G1" ∈ dom (ortho_idx example_tables)
  ∧ ∃ members, line_of ortho_lines "G1" members ∧ "AAAA|1" ∈ "G1" :: members.
Proof.
  apply (ortho_dic_entries_come_from_lines fs_run "o.txt" ortho_lines
           (Some ["AAAA"; "BBBB"]) (Some []) false example_tables "AAAA|1" "G1");
    vm_compute; reflexivity.
Defined.

Lemma ortho_idx_reflects_file_witness :
  (∀ grp, grp ∈ dom (ortho_idx repeated_tables)
          ↔ ∃ members, line_of repeated_lines grp members)
  ∧ (∀ grp members,
       ortho_idx repeated_tables !! grp = Some members
       ↔ last_line_of repeated_lines grp members)
  ∧ ∀ mc' ex' dup' t',
      fetch_orthologs {["o.txt" := repeated_lines]} "o.txt" mc' ex' dup' = Ok t' →
      ortho_idx t' = ortho_idx repeated_tables.
Proof.
  apply (ortho_idx_reflects_file {["o.txt" := repeated_lines]} "o.txt"
           repeated_lines None (Some []) false repeated_tables);
    vm_compute; reflexivity.
Defined.

Lemma fetch_line_inclusion_witness :
  ∃ t', fetch_line (Some ["AAAA"; "BBBB"]) (Some []) false
          {| ortho_dic := ∅; ortho_idx := ∅ |} "G1 AAAA|1 BBBB|1" = Ok t'
        ∧ ortho_idx t' = <["G1" := ["AAAA|1"; "BBBB|1"]]> ∅
        ∧ (included (Some ["AAAA"; "BBBB"]) [] ["G1"; "AAAA|1"; "BBBB|1"] →
           ortho_dic t' = update_all "G1" ["G1"; "AAAA|1"; "BBBB|1"] ∅)
        ∧ (¬ included (Some ["AAAA"; "BBBB"]) [] ["G1"; "AAAA|1"; "BBBB|1"] →
           ortho_dic t' = ∅).
Proof.
  apply (fetch_line_inclusion (Some ["AAAA"; "BBBB"]) []
           {| ortho_dic := ∅; ortho_idx := ∅ |} "G1 AAAA|1 BBBB|1" "G1"
           ["AAAA|1"; "BBBB|1"]).
  vm_compute. reflexivity.
Defined.

Lemma fetch_orthologs_duplicates_total_witness :
  ∃ t, fetch_orthologs fs_run "o.txt" None None true = Ok t
       ∧ ∀ line g, line ∈ ortho_lines → g ∈ split line → g ∈ dom (ortho_dic t).
Proof.
  apply (fetch_orthologs_duplicates_total fs_run "o.txt" ortho_lines None None);
    vm_compute; reflexivity.
Defined.

Lemma translated_groups_come_from_rows_witness :
  data_row example_dic
    ["AAAA|1 10 1.5 x x 0.001 0.01"; "AAAA|4 10 1.5 x x 0.001 0.01"] "G1".
Proof.
  apply (translated_groups_come_from_rows decimal_float fs_pair "a.txt"
           ["AAAA|1 10 1.5 x x 0.001 0.01"; "AAAA|4 10 1.5 x x 0.001 0.01"]
           example_dic None false df_a "G1"); by_eval.
Defined.

Lemma calibrate_df_idempotent_witness :
  (negate_logfc df_down = df_down ∨ negate_logfc df_down = negate_logfc df_down)
  ∧ (truthy_str (Some "G1") = true →
     ∃ r, negate_logfc df_down !! default "" (Some "G1") = Some r
          ∧ flt (logfc r) f_zero = false)
  ∧ calibrate_df (Some "G1") (negate_logfc df_down) = Ok (negate_logfc df_down).
Proof.
  apply (calibrate_df_idempotent (Some "G1") df_down (negate_logfc df_down)).
  by_eval.
Defined.

Lemma translate_calibrate_missing_group_witness :
  translate_to_orthologs decimal_float fs_pair "a.txt" example_dic (Some "G9")
    true = Raise KeyError.
Proof.
  apply (translate_calibrate_missing_group decimal_float fs_pair "a.txt"
           example_dic (Some "G9") true df_a); by_eval.
Defined.

Lemma translate_duplicates_keeps_unique_values_witness :
  ∃ dd, translate_to_orthologs decimal_float fs_pair "a.txt" example_dic None
          true = Ok dd
        ∧ ∀ g r, dd !! g = Some r
                 ↔ df_a !! g = Some r ∧ ∀ g', df_a !! g' = Some r → g' = g.
Proof.
  apply (translate_duplicates_keeps_unique_values decimal_float fs_pair "a.txt"
           example_dic None df_a).
  by_eval.
Defined.

Lemma fallback_row_significance_witness :
  ∃ df r, translate_line decimal_float example_dic ∅
            "AAAA|1 10 1.5 x x 0.001 NA" = Ok df
          ∧ df !! "G1" = Some r
          ∧ is_sig r = flt (Fin (qc 1 1000)) f_0_05.
Proof.
  apply (fallback_row_significance decimal_float example_dic ∅
           "AAAA|1 10 1.5 x x 0.001 NA" "AAAA|1" "10" "1.5" "x" "x" "0.001" "NA"
           "G1" (Fin (qc 1 1000))); by_eval.
Defined.

Lemma sigcounts_partition_witness :
  (∀ i j s s', i ≠ j →
     fordrawing {["G1"; "G2"]} {["G1"; "G3"]} {["G3"]} {["G2"]} !! i = Some s →
     fordrawing {["G1"; "G2"]} {["G1"; "G3"]} {["G3"]} {["G2"]} !! j = Some s' →
     s ## s')
  ∧ ⋃ fordrawing {["G1"; "G2"]} {["G1"; "G3"]} {["G3"]} {["G2"]}
    = ({["G1"; "G2"]} : gset string) ∪ {["G1"; "G3"]} ∪ {["G3"]} ∪ {["G2"]}
  ∧ sum_list (size <$> fordrawing {["G1"; "G2"]} {["G1"; "G3"]} {["G3"]} {["G2"]})
    = size (({["G1"; "G2"]} : gset string) ∪ {["G1"; "G3"]} ∪ {["G3"]} ∪ {["G2"]})
  ∧ sigcounts {["G1"; "G2"]} {["G1"; "G3"]} {["G3"]} {["G2"]}
    = pretty <$> (size <$> fordrawing {["G1"; "G2"]} {["G1"; "G3"]} {["G3"]}
                             {["G2"]}).
Proof.
  apply (sigcounts_partition {["G1"; "G2"]} {["G1"; "G3"]} {["G3"]} {["G2"]});
    by_eval.
Defined.

Lemma pair_scores_bounds_witness :
  ∃ r, analyse_joined no_corr f_one df3_ab = Ok r
       ∧ (1 ≤ ijidx r)%Qc
       ∧ (0 ≤ rel_conc r ≤ 1)%Qc
       ∧ (0 ≤ bkgd_freq (concordance_sets r) ≤ 1)%Qc.
Proof.
  destruct (analyse_joined no_corr f_one df3_ab) as [r|e] eqn:Hr;
    [|exfalso; revert Hr; vm_compute; discriminate].
  exists r. split; [reflexivity|].
  exact (pair_scores_bounds no_corr f_one df3_ab r Hr).
Defined.

Lemma pair_scores_symmetric_witness :
  ∃ r r',
    analyse_joined no_corr f_one df3_ab = Ok r
    ∧ joined_table decimal_float fs_pair example_dic None true "b.txt" "a.txt"
      = Ok (prod_swap <$> df3_ab)
    ∧ analyse_joined no_corr f_one (prod_swap <$> df3_ab) = Ok r'
    ∧ ijidx r' = ijidx r
    ∧ rel_conc r' = rel_conc r
    ∧ bkgd_freq (concordance_sets r') = bkgd_freq (concordance_sets r)
    ∧ con_sig1 (concordance_sets r') = con_sig1 (concordance_sets r).
Proof.
  destruct (analyse_joined no_corr f_one df3_ab) as [r|e] eqn:Hr;
    [|exfalso; revert Hr; vm_compute; discriminate].
  assert (Ht : joined_table decimal_float fs_pair example_dic None true
                 "a.txt" "b.txt" = Ok df3_ab) by by_eval.
  destruct (pair_scores_symmetric decimal_float no_corr fs_pair example_dic
              f_one None "a.txt" "b.txt" df3_ab r Ht Hr) as [r' H].
  exists r, r'. split; [reflexivity | exact H].
Defined.

Lemma pairwise_comparisons_no_pair_witness :
  pairwise_comparisons decimal_float no_corr fs_pair ["a.txt"; "a.txt"]
    example_dic f_one None true = Raise TypeError.
Proof.
  apply (pairwise_comparisons_no_pair decimal_float no_corr fs_pair example_dic
           f_one None true ["a.txt"; "a.txt"]).
  intros exp1 exp2 [->| ->]%elem_of_two [->| ->]%elem_of_two; reflexivity.
Defined.

Lemma common_to_all_one_direction_witness :
  ∃ up, ∀ exp, exp ∈ ["a.txt"; "b.txt"] →
    ∃ df r, calibrated decimal_float fs_pair example_dic None exp = Ok df
            ∧ df !! "G1" = Some r
            ∧ significant_towards up r = true.
Proof.
  apply (common_to_all_one_direction decimal_float no_corr fs_pair example_dic
           f_one None true ["a.txt"; "b.txt"] {["G1"]} "G1"); by_eval.
Defined.

Lemma global_dataframe_rows_witness :
  ∃ df0 dfs,
    Forall2 (λ exp df,
       translate_to_orthologs decimal_float fs_pair exp example_dic None false
       = Ok df) ["a.txt"; "b.txt"] (df0 :: dfs)
    ∧ (2 ≤ length ["a.txt"; "b.txt"])%nat
    ∧ ∀ g w, dfall_pair !! g = Some w ↔
        ∃ r, df0 !! g = Some r
             ∧ w = (r, (λ df, default nan_row (df !! g)) <$> dfs)
             ∧ (true = true → wide_has_na w = false).
Proof.
  apply (global_dataframe_rows decimal_float fs_pair example_dic None true false
           ["a.txt"; "b.txt"] dfall_pair).
  by_eval.
Defined.

Lemma global_selection_of_global_dataframe_witness :
  ∃ s, global_comparisons dfall_pair ["a.txt"; "b.txt"] f_one = Ok s
    ∧ ∀ g, g ∈ s ↔
        ∃ w, dfall_pair !! g = Some w
             ∧ enough (length ["a.txt"; "b.txt"]) w = true
             ∧ all_or_null padj is_sig w
             ∧ (all_or_null logfc is_pos w ∨ all_or_null logfc is_neg w).
Proof.
  apply (global_selection_of_global_dataframe decimal_float fs_pair example_dic
           None ["a.txt"; "b.txt"] true false f_one dfall_pair).
  by_eval.
Defined.

Lemma global_selection_without_na_witness :
  ∃ s, global_comparisons dfall_pair ["a.txt"; "b.txt"] f_one = Ok s
    ∧ ∀ g, g ∈ s ↔
        ∃ w up, dfall_pair !! g = Some w
                ∧ ∀ c, c ∈ cells w → significant_towards up c = true.
Proof.
  apply (global_selection_without_na decimal_float fs_pair example_dic None
           ["a.txt"; "b.txt"] false f_one dfall_pair).
  by_eval.
Defined.

Lemma global_and_pairwise_agree_witness :
  ∃ selected common_to_all : gset string,
    global_comparisons dfall_pair ["a.txt"; "b.txt"] f_one = Ok selected
    ∧ pairwise_comparisons decimal_float no_corr fs_pair ["a.txt"; "b.txt"]
        example_dic f_one None true = Ok common_to_all
    ∧ selected = common_to_all.
Proof.
  assert (Hdf : global_dataframe decimal_float fs_pair ["a.txt"; "b.txt"]
                  example_dic None true false = Ok dfall_pair) by by_eval.
  assert (Hsel : global_comparisons dfall_pair ["a.txt"; "b.txt"] f_one
                 = Ok {["G1"]}) by by_eval.
  assert (Hpair : pairwise_comparisons decimal_float no_corr fs_pair
                    ["a.txt"; "b.txt"] example_dic f_one None true
                  = Ok {["G1"]}) by by_eval.
  exists {["G1"]}, {["G1"]}. split; [exact Hsel|]. split; [exact Hpair|].
  exact (global_and_pairwise_agree decimal_float fs_pair example_dic None
           no_corr ["a.txt"; "b.txt"] f_one f_one dfall_pair _ _ Hdf Hsel Hpair).
Defined.

Lemma convert_name_last_match_witness :
  convert_name (Some "names.txt") "G1" example_idx example_names
  = inr (name_line "G1" "BBBB|1" "kinase").
Proof.
  apply (convert_name_last_match (Some "names.txt") "G1" example_idx
           example_names ["AAAA|1"] [] "BBBB|1" "kinase");
    try (vm_compute; reflexivity).
  - intros g Hg. by apply elem_of_nil in Hg.
  - discriminate.
Defined.

Lemma convert_name_unnamed_witness :
  convert_name None "G1" example_idx example_names
  = inr (name_line "G1" "AAAA|1" (String.concat " " (take 2 ["BBBB|1"]))).
Proof.
  apply (convert_name_unnamed None "G1" example_idx example_names "AAAA|1"
           ["BBBB|1"]).
  - vm_compute. reflexivity.
  - left. reflexivity.
Defined.

Lemma main_start_continue_witness :
  Forall (λ f, isfile fs_two f = true) (experiments args_two_files)
  ∧ (2 ≤ length (experiments args_two_files))%nat
  ∧ fetch_orthologs fs_two (orthologs args_two_files)
      (if truthy_str (mustcontain args_two_files)
       then Some (split_on "," (default "" (mustcontain args_two_files)))
       else None)
      (if truthy_str (exclude args_two_files)
       then Some (split_on "," (default "" (exclude args_two_files)))
       else None)
      (manage_duplicates args_two_files) = Ok example_tables
  ∧ last [not_worrying_about ["XXXX"]; call_fetch_orthologs "o.txt";
          genes_were_indexed 6 3]
    = Some (genes_were_indexed (size (ortho_dic example_tables))
              (size (ortho_idx example_tables)))
  ∧ (insufficient_files ∉ [not_worrying_about ["XXXX"];
                            call_fetch_orthologs "o.txt";
                            genes_were_indexed 6 3])
  ∧ ∀ f, (could_not_be_found f ∉ [not_worrying_about ["XXXX"];
                                   call_fetch_orthologs "o.txt";
                                   genes_were_indexed 6 3]).
Proof.
  apply (main_start_continue fs_two args_two_files
           [not_worrying_about ["XXXX"]; call_fetch_orthologs "o.txt";
            genes_were_indexed 6 3] example_tables).
  vm_compute. reflexivity.
Defined.

Lemma main_start_needs_exclude_witness :
  (main_start fs_run args_no_exclude).2 = uncaught TypeError
  ∧ ∀ genes groups,
      (genes_were_indexed genes groups ∉ (main_start fs_run args_no_exclude).1).
Proof.
  apply (main_start_needs_exclude fs_run args_no_exclude ortho_lines).
  - repeat constructor.
  - reflexivity.
  - reflexivity.
  - vm_compute. reflexivity.
  - apply Exists_cons_hd. vm_compute. discriminate.
Defined.
